(** * Coverage aggregation of the ATT&CK matrix endpoint

    A shallow embedding of [get_ultimate_matrix] (blueprints/matrix.py): the
    two SQL statements it sends to the store, read with SQL's semantics
    (three-valued logic, LEFT JOIN padding, [LIKE] patterns, GROUP BY with
    [COUNT(DISTINCT ...)]), and the Python code that turns the result rows
    into technique objects, tactic objects and the global statistics.

    Conventions of the embedding.
    - A table is the list of its rows.  Columns that the coverage numbers
      never read (names, descriptions, data sources, timestamps, the
      [GROUP_CONCAT] tactic labels) are left out of the records.
    - The store compares strings under the collation of its columns,
      which is a setting of the store (config.py asks for utf8mb4, the
      set-up notes for a collation without regard to case) and not of the
      code.  A collation is a field of the store: the sort key under which
      [=], the CASE of the tactic statements, [COUNT(DISTINCT ...)] and
      ORDER BY compare strings, and the character classes of [LIKE].  The
      handler is read for any collation.
    - [JSON_CONTAINS] is the store's: it parses the candidate text that
      the handler builds by putting the filter between double quotes.  It
      is a field of the store, and the handler is read for any such
      function.  A candidate that the store refuses makes the statement
      raise, which is one of the ways the server of a call may raise.
    - ORDER BY fixes the order of the rows up to ties; among rows of the
      same sort key the order is the server's.  The server of a call is a
      field of the world the handler runs in: it may raise, and it
      enumerates the rows of a statement in an order of its choice before
      they are sorted.
    - [techniques.id] is the primary key of its table, so in the grouped
      query every technique row is a group of its own.
    - Every handler is one [try] with an [except Exception] that answers
      500: an exception of the store, or of [float(tech.version)], gives
      the error answer and no data.

    The development goes on with the two other handlers of the file,
    [get_tactics_only] and [get_matrix_statistics], with the Python dicts
    that the lists of the matrix response share, and with the helpers of
    utils/helpers.py that the handlers call: [sanitize_input],
    [escape_like_pattern], [clamp_value], [paginate_query],
    [validate_required_fields] and [clean_dict]. *)

From Stdlib Require Import ZArith String Ascii Floats Uint63.
From stdpp Require Import base decidable option list strings sorting.

#[local] Set Warnings "-clear-no-such-hyp,-register-all".

Local Open Scope string_scope.
Local Open Scope Z_scope.

(** ** SQL values *)

Module Sql.

(** SQL truth values: [Some true], [Some false] and NULL ([None]). *)
Definition tv := option bool.

Definition and3 (a b : tv) : tv :=
  match a, b with
  | Some false, _ => Some false
  | _, Some false => Some false
  | Some true, Some true => Some true
  | _, _ => None
  end.

Definition or3 (a b : tv) : tv :=
  match a, b with
  | Some true, _ => Some true
  | _, Some true => Some true
  | Some false, Some false => Some false
  | _, _ => None
  end.

Definition not3 (a : tv) : tv := negb <$> a.

(** A [WHERE], [ON] or [CASE WHEN] condition selects only on TRUE. *)
Definition holds (a : tv) : bool :=
  match a with Some true => true | _ => false end.

(** ** Collations

    The store compares strings under the collation of the column; which
    one that is, is a matter of the deployment (the sources only ask for
    the character set utf8mb4, and the setup hint names utf8mb4_unicode_ci).
    A collation gives every string its sort key, [WEIGHT_STRING(s)]: two
    strings are equal for [=], for [CASE ... WHEN] and for
    [COUNT(DISTINCT ...)] when their sort keys are, and ORDER BY is the
    order of the sort keys.  The sort key may leave out trailing spaces,
    take letters without regard to case or accent, give one character the
    weight of two or of none.  [LIKE] goes character by character: [fold]
    gives each character its class, and a pattern character matches the
    text characters of its class.  Of a sort key nothing is asked but that
    it tells apart two different words of the letters a to z. *)

Definition lower (a : ascii) : bool :=
  ((97 <=? N_of_ascii a) && (N_of_ascii a <=? 122))%N.

Fixpoint word (s : string) : bool :=
  match s with
  | EmptyString => true
  | String a s' => lower a && word s'
  end.

Record collation := {
  weight : string -> string;
  fold : ascii -> ascii;
  weight_words : forall a b,
    word a = true -> word b = true -> weight a = weight b -> a = b
}.

Fixpoint map_chars (f : ascii -> ascii) (s : string) : string :=
  match s with
  | EmptyString => EmptyString
  | String a s' => String (f a) (map_chars f s')
  end.

(** The classes of the characters of a string, as [LIKE] reads it. *)
Definition folded (c : collation) (s : string) : string :=
  map_chars (fold c) s.

Definition eqb (c : collation) (a b : string) : bool :=
  String.eqb (weight c a) (weight c b).

(** [ORDER BY] on a string column. *)
Definition leb (c : collation) (a b : string) : bool :=
  String.leb (weight c a) (weight c b).

(** The binary collation. *)
Definition binary : collation :=
  {| weight := λ s, s; fold := λ a, a; weight_words := λ a b _ _ H, H |}.

(** A collation that takes the letters a to z for A to Z. *)
Definition upcase (a : ascii) : ascii :=
  if lower a then ascii_of_N (N_of_ascii a - 32) else a.

Definition upcase_lower a b :
  lower a = true -> lower b = true -> upcase a = upcase b -> a = b.
Proof.
  unfold upcase. intros Ha Hb. rewrite Ha, Hb. intros H.
  unfold lower in Ha, Hb.
  apply andb_true_iff in Ha as [Ha1 Ha2], Hb as [Hb1 Hb2].
  apply N.leb_le in Ha1, Ha2, Hb1, Hb2.
  apply (f_equal N_of_ascii) in H.
  rewrite !N_ascii_embedding in H by lia.
  rewrite <- (ascii_N_embedding a), <- (ascii_N_embedding b). f_equal. lia.
Qed.

Definition upcase_words a b :
  word a = true -> word b = true -> map_chars upcase a = map_chars upcase b -> a = b.
Proof.
  revert b. induction a as [|x a IH]; intros [|y b]; simpl; try done.
  intros [Hx Ha]%andb_prop [Hy Hb]%andb_prop [= Hxy Hab].
  f_equal; [by apply upcase_lower|by apply IH].
Qed.

Definition ascii_ci : collation :=
  {| weight := map_chars upcase; fold := upcase; weight_words := upcase_words |}.

(** The same with trailing spaces left out of the sort key (PAD SPACE):
    [=] takes a string with spaces at its end for the string without
    them, [LIKE] does not. *)
Fixpoint unpad (s : string) : string :=
  match s with
  | EmptyString => EmptyString
  | String a s' =>
      match unpad s' with
      | EmptyString => if Ascii.eqb a " " then EmptyString else String a EmptyString
      | r => String a r
      end
  end.

Definition unpad_word a : word a = true -> unpad a = a.
Proof.
  induction a as [|x a IH]; [done|]. simpl. intros [Hx Ha]%andb_prop.
  rewrite (IH Ha). destruct a; [|done].
  destruct (Ascii.eqb_spec x " ") as [->|_]; [discriminate Hx|done].
Qed.

Definition padded_words a b :
  word a = true -> word b = true ->
  map_chars upcase (unpad a) = map_chars upcase (unpad b) -> a = b.
Proof.
  intros Ha Hb. rewrite (unpad_word a Ha), (unpad_word b Hb).
  by apply upcase_words.
Qed.

Definition ascii_ci_pad : collation :=
  {| weight := λ s, map_chars upcase (unpad s); fold := upcase;
     weight_words := padded_words |}.

(** [a = b] and [a != b] on nullable strings. *)
Definition eq_str (c : collation) (a b : option string) : tv :=
  match a, b with
  | Some x, Some y => Some (eqb c x y)
  | _, _ => None
  end.

Definition ne_str (c : collation) (a b : option string) : tv :=
  not3 (eq_str c a b).

(** [b = 1] and [b = 0] on a nullable BOOLEAN column. *)
Definition is1 (b : option bool) : tv := b.
Definition is0 (b : option bool) : tv := negb <$> b.

(** [COALESCE(a, b)]. *)
Definition coalesce {A} (a b : option A) : option A :=
  match a with Some _ => a | None => b end.

(** [CASE WHEN c THEN v END]: NULL unless [c] is TRUE. *)
Definition case_when {A} (c : tv) (v : option A) : option A :=
  if holds c then v else None.

(** Two characters of the same weight. *)
Definition similar (c : collation) (a b : ascii) : bool :=
  Ascii.eqb (fold c a) (fold c b).

(** [s LIKE p] with the default escape character: [%] matches any run of
    characters, [_] any single character, a backslash makes the next
    pattern character literal (and is itself literal when it ends the
    pattern); a literal pattern character matches the characters of its
    weight. *)
Fixpoint like (co : collation) (p s : string) {struct p} : bool :=
  match p with
  | EmptyString => match s with EmptyString => true | String _ _ => false end
  | String c p' =>
      if Ascii.eqb c "%" then
        (fix star (s : string) : bool :=
           like co p' s
           || match s with EmptyString => false | String _ s' => star s' end) s
      else if Ascii.eqb c "_" then
        match s with EmptyString => false | String _ s' => like co p' s' end
      else if Ascii.eqb c "\" then
        match p' with
        | EmptyString =>
            match s with
            | EmptyString => false
            | String d s' => similar co c d && like co p' s'
            end
        | String e p'' =>
            match s with
            | EmptyString => false
            | String d s' => similar co e d && like co p'' s'
            end
        end
      else
        match s with
        | EmptyString => false
        | String d s' => similar co c d && like co p' s'
        end
  end.

(** [LIKE] with the pattern [p] does not tell apart two strings that [=]
    takes for equal. *)
Definition like_respects (c : collation) (p : string) : Prop :=
  forall a b, weight c a = weight c b -> like c p a = like c p b.

(** The rows a LEFT JOIN pairs with one left row: the matching right rows,
    or a single all-NULL row when there is none. *)
Definition left_join {A} (matching : list A) : list (option A) :=
  match matching with
  | [] => [None]
  | _ => Some <$> matching
  end.

(** [COUNT(DISTINCT e)] over the rows of a group: NULLs are skipped. *)
Definition count_distinct {R V} `{EqDecision V} (e : R -> option V)
    (rows : list R) : Z :=
  Z.of_nat (length (remove_dups (omap e rows))).

(** [COUNT(DISTINCT e)] on a string column: the values are told apart by
    their weights. *)
Definition key {R} (c : collation) (e : R -> option string) (r : R)
  : option string :=
  weight c <$> e r.

(** ** What the server does on its own

    Whether a statement raises (a lost connection, a text that the
    server's JSON parser refuses) and in which order rows come that the
    statement does not order, is the server's choice in each request. *)
Record server := {
  raises : bool;
  enumerate : forall A : Type, list A -> list A;
  enumerate_perm : forall (A : Type) (l : list A), enumerate A l ≡ₚ l
}.

(** [ORDER BY key]: the rows in the order of the key; rows with equal
    keys stay as the server enumerates them. *)
Fixpoint insert_by {A} (le : A -> A -> bool) (x : A) (l : list A) : list A :=
  match l with
  | [] => [x]
  | y :: l' => if le x y then x :: y :: l' else y :: insert_by le x l'
  end.

Definition order_by {A} (sv : server) (le : A -> A -> bool) (l : list A)
  : list A :=
  foldr (insert_by le) [] (enumerate sv A l).

(** A server that raises nothing and enumerates the rows in the order of
    the table. *)
Definition in_table_order : server :=
  {| raises := false;
     enumerate := λ _ l, l;
     enumerate_perm := λ _ l, reflexivity l |}.

(** A server that enumerates the rows in the opposite order. *)
Definition in_reverse_order : server :=
  {| raises := false;
     enumerate := λ _ l, reverse l;
     enumerate_perm := λ _ l, reverse_Permutation l |}.

(** A [JSON_CONTAINS(doc, candidate)] for a document that is an array of
    strings: a candidate that is a string literal without escapes is
    contained when the array has that string; the result is NULL for a
    NULL document and for any other candidate text. *)
Fixpoint literal_body (s : string) : option string :=
  match s with
  | EmptyString => None
  | String c EmptyString => if Ascii.eqb c "034" then Some EmptyString else None
  | String c s' =>
      if Ascii.eqb c "034" || Ascii.eqb c "\" || (N_of_ascii c <? 32)%N then None
      else String c <$> literal_body s'
  end.

Definition string_literal (s : string) : option string :=
  match s with
  | String c s' => if Ascii.eqb c "034" then literal_body s' else None
  | EmptyString => None
  end.

Definition json_member (doc : option (list string)) (candidate : string) : tv :=
  match doc, string_literal candidate with
  | Some l, Some v => Some (bool_decide (v ∈ l))
  | _, _ => None
  end.

End Sql.

(** ** The tables (models/database.py) *)

Record tactic := {
  tac_id : string;
  tac_name : string;
  tac_name_ru : option string;
  x_mitre_shortname : string
}.

Record technique := {
  t_id : string;
  attack_id : string;
  t_name : string;
  platforms : option (list string);
  t_version : option string;
  deprecated : option bool;
  revoked : option bool
}.

Record technique_tactic := {
  tt_technique_id : string;
  tt_tactic_id : string
}.

(** [status = db.Column(db.Enum(...), nullable=False)] *)
Inductive rule_status := Draft | Testing | Active | Deprecated | Disabled.

Definition status_name (s : rule_status) : string :=
  match s with
  | Draft => "draft"
  | Testing => "testing"
  | Active => "active"
  | Deprecated => "deprecated"
  | Disabled => "disabled"
  end.

Record rule := {
  r_id : string;
  r_technique_id : string;
  r_severity : option string;
  r_active : option bool;
  r_status : rule_status
}.

Record comment := {
  c_id : Z;
  c_entity_type : string;
  c_entity_id : string;
  c_status : option string
}.

(** The store: its tables, the collation of its string columns and its
    [JSON_CONTAINS] on a [platforms] document and a candidate text. *)
Record database := {
  tactics : list tactic;
  techniques : list technique;
  technique_tactics : list technique_tactic;
  correlation_rules : list rule;
  comments : list comment;
  collation : Sql.collation;
  json_contains : option (list string) -> string -> Sql.tv
}.

(** The query parameters after [request.args.get], [sanitize_input] and the
    [.lower() == "true"] tests. *)
Record request := {
  platform_filter : option string;
  coverage_filter : string;
  tactic_filter : option string;
  include_deprecated : bool;
  include_subtechniques : bool;
  include_statistics : bool;
  response_format : string
}.

(** Python truthiness of an optional string: [None] and the empty string
    are false. *)
Definition truthy (s : option string) : bool :=
  match s with
  | Some (String _ _) => true
  | _ => false
  end.

(** [f'"{platform_filter}"'] *)
Definition quoted (s : string) : string :=
  String "034" (s ++ String "034" EmptyString).

(** [platform_json = f'"{platform_filter}"' if platform_filter else None] *)
Definition platform_json (req : request) : option string :=
  if truthy (platform_filter req) then quoted <$> platform_filter req else None.

(** [JSON_CONTAINS(doc, :platform_json)]: NULL for a NULL parameter. *)
Definition contains (db : database) (doc : option (list string))
    (candidate : option string) : Sql.tv :=
  match candidate with
  | Some text => json_contains db doc text
  | None => None
  end.

(** ** Statement 2: the techniques with their rule counts

    [FROM techniques t
     INNER JOIN technique_tactics tt ON t.id = tt.technique_id
     INNER JOIN tactics tac ON tt.tactic_id = tac.id
     LEFT JOIN correlation_rules cr_own ON t.attack_id = cr_own.technique_id
     LEFT JOIN correlation_rules cr_sub
          ON cr_sub.technique_id LIKE CONCAT(t.attack_id, '.%')
          AND t.attack_id NOT LIKE '%.%'
     LEFT JOIN comments c ON c.entity_type = 'technique'
          AND c.entity_id = t.attack_id AND c.status != 'deleted'] *)

Record tech_join := {
  j_tt : technique_tactic;
  j_tac : tactic;
  cr_own : option rule;
  cr_sub : option rule;
  j_c : option comment
}.

Definition own_on (c : Sql.collation) (t : technique) (r : rule) : bool :=
  Sql.eqb c (attack_id t) (r_technique_id r).

Definition sub_on (c : Sql.collation) (t : technique) (r : rule) : bool :=
  Sql.like c (attack_id t ++ ".%") (r_technique_id r)
  && negb (Sql.like c "%.%" (attack_id t)).

Definition comment_on (co : Sql.collation) (t : technique) (c : comment) : bool :=
  Sql.eqb co (c_entity_type c) "technique"
  && Sql.eqb co (c_entity_id c) (attack_id t)
  && Sql.holds (Sql.ne_str co (c_status c) (Some "deleted")).

Definition technique_joins (db : database) (t : technique) : list tech_join :=
  let c := collation db in
  tt ← filter (λ tt, Sql.eqb c (t_id t) (tt_technique_id tt)) (technique_tactics db);
  tac ← filter (λ tac, Sql.eqb c (tt_tactic_id tt) (tac_id tac)) (tactics db);
  own ← Sql.left_join (filter (λ r, own_on c t r) (correlation_rules db));
  sub ← Sql.left_join (filter (λ r, sub_on c t r) (correlation_rules db));
  cm ← Sql.left_join (filter (λ cm, comment_on c t cm) (comments db));
  [ {| j_tt := tt; j_tac := tac; cr_own := own; cr_sub := sub; j_c := cm |} ].

(** [where_conditions], joined with [" AND "]. *)
Definition where_conditions (db : database) (req : request) (t : technique)
    (j : tech_join) : list Sql.tv :=
  [Sql.is0 (revoked t)]
  ++ (if include_deprecated req then [] else [Sql.is0 (deprecated t)])
  ++ (if truthy (platform_filter req)
      then [contains db (platforms t) (quoted <$> platform_filter req)] else [])
  ++ (if truthy (tactic_filter req)
      then [Sql.eq_str (collation db) (Some (x_mitre_shortname (j_tac j)))
                       (tactic_filter req)]
      else []).

Definition where_clause (db : database) (req : request) (t : technique)
    (j : tech_join) : Sql.tv :=
  foldr Sql.and3 (Some true) (where_conditions db req t j).

(** The [CASE] expressions under the [COUNT(DISTINCT ...)] aggregates. *)
Definition own_id (j : tech_join) : option string := r_id <$> cr_own j.
Definition sub_id (j : tech_join) : option string := r_id <$> cr_sub j.

(** [cr.status != 'deleted'] on the ENUM column. *)
Definition not_deleted (c : Sql.collation) (r : option rule) : Sql.tv :=
  Sql.ne_str c (status_name <$> (r_status <$> r)) (Some "deleted").

Definition active_not_deleted (c : Sql.collation) (r : option rule) : Sql.tv :=
  Sql.and3 (Sql.is1 (r ≫= r_active)) (not_deleted c r).

Definition own_active_id (c : Sql.collation) (j : tech_join) : option string :=
  Sql.case_when (active_not_deleted c (cr_own j)) (own_id j).

Definition sub_active_id (c : Sql.collation) (j : tech_join) : option string :=
  Sql.case_when (active_not_deleted c (cr_sub j)) (sub_id j).

Definition severity_id (c : Sql.collation) (sev : string) (j : tech_join)
  : option string :=
  Sql.case_when
    (Sql.and3
       (Sql.and3
          (Sql.or3 (Sql.is1 (cr_own j ≫= r_active)) (Sql.is1 (cr_sub j ≫= r_active)))
          (Sql.or3 (not_deleted c (cr_own j)) (not_deleted c (cr_sub j))))
       (Sql.eq_str c (Sql.coalesce (cr_own j ≫= r_severity) (cr_sub j ≫= r_severity))
                   (Some sev)))
    (Sql.coalesce (own_id j) (sub_id j)).

(** One row of [techniques_raw]. *)
Record tech_row := {
  row_t : technique;
  own_total_rules : Z;
  own_active_rules : Z;
  sub_total_rules : Z;
  sub_active_rules : Z;
  critical_rules_count : Z;
  high_rules_count : Z;
  medium_rules_count : Z;
  low_rules_count : Z;
  comments_count : Z
}.

Definition group_rows (db : database) (req : request) (t : technique)
  : list tech_join :=
  filter (λ j, Sql.holds (where_clause db req t j)) (technique_joins db t).

Definition aggregate (c : Sql.collation) (t : technique) (rows : list tech_join)
  : tech_row :=
  {| row_t := t;
     own_total_rules := Sql.count_distinct (Sql.key c own_id) rows;
     own_active_rules := Sql.count_distinct (Sql.key c (own_active_id c)) rows;
     sub_total_rules := Sql.count_distinct (Sql.key c sub_id) rows;
     sub_active_rules := Sql.count_distinct (Sql.key c (sub_active_id c)) rows;
     critical_rules_count :=
       Sql.count_distinct (Sql.key c (severity_id c "critical")) rows;
     high_rules_count := Sql.count_distinct (Sql.key c (severity_id c "high")) rows;
     medium_rules_count :=
       Sql.count_distinct (Sql.key c (severity_id c "medium")) rows;
     low_rules_count := Sql.count_distinct (Sql.key c (severity_id c "low")) rows;
     comments_count := Sql.count_distinct (λ j, c_id <$> j_c j) rows |}.

(** A technique whose joined rows all fail the WHERE clause (or that has no
    tactic link, by the inner joins) has no group. *)
Definition technique_group (db : database) (req : request) (t : technique)
  : list tech_row :=
  match group_rows db req t with
  | [] => []
  | rows => [aggregate (collation db) t rows]
  end.

Definition by_attack_id (c : Sql.collation) (a b : tech_row) : bool :=
  Sql.leb c (attack_id (row_t a)) (attack_id (row_t b)).

Definition techniques_query (sv : Sql.server) (db : database) (req : request)
  : list tech_row :=
  Sql.order_by sv (by_attack_id (collation db))
    (t ← techniques db; technique_group db req t).

(** ** Step 3: technique objects *)

Inductive level := Excellent | Good | Basic | NoCoverage.

Definition level_name (l : level) : string :=
  match l with
  | Excellent => "excellent"
  | Good => "good"
  | Basic => "basic"
  | NoCoverage => "none"
  end.

Record severity_counts := {
  critical : Z;
  high : Z;
  medium : Z;
  low : Z
}.

Record coverage := {
  total_rules : Z;
  active_rules : Z;
  own_rules : Z;
  sub_rules : Z;
  rules_by_severity : severity_counts;
  has_coverage : bool;
  coverage_level : level
}.

(** [o_version] is the text whose [float] value the response gives. *)
Record technique_obj := {
  o_id : string;
  o_attack_id : string;
  o_name : string;
  o_platforms : list string;
  o_version : string;
  o_deprecated : bool;
  o_revoked : bool;
  o_coverage : coverage;
  o_comments_count : Z
}.

#[global] Instance level_eq_dec : EqDecision level.
Proof. solve_decision. Defined.

#[global] Instance severity_counts_eq_dec : EqDecision severity_counts.
Proof. solve_decision. Defined.

#[global] Instance coverage_eq_dec : EqDecision coverage.
Proof. solve_decision. Defined.

#[global] Instance technique_obj_eq_dec : EqDecision technique_obj.
Proof. solve_decision. Defined.

(** [if active_rules >= 5: ... elif >= 3: ... elif >= 1: ... else: ...] *)
Definition level_of (active : Z) : level :=
  if 5 <=? active then Excellent
  else if 3 <=? active then Good
  else if 1 <=? active then Basic
  else NoCoverage.

Definition py_bool (b : option bool) : bool := default false b.

(** ** Python's [float] on a [str]

    [float(s)] raises [ValueError] unless [s], without the white space
    around it, is a decimal literal ([1], [2.1], [.5], [1e-3], with single
    underscores between digits) or one of [inf], [infinity] and [nan] in
    any case, with an optional sign. *)

Definition is_digit (c : ascii) : bool :=
  ((48 <=? N_of_ascii c) && (N_of_ascii c <=? 57))%N.

Definition float_space (c : ascii) : bool :=
  let n := N_of_ascii c in
  ((9 <=? n) && (n <=? 13) || (n =? 32) || (n =? 133) || (n =? 160))%N.

Fixpoint drop_while (P : ascii -> bool) (s : string) : string :=
  match s with
  | EmptyString => EmptyString
  | String c s' => if P c then drop_while P s' else s
  end.

Fixpoint drop_end (P : ascii -> bool) (s : string) : string :=
  match s with
  | EmptyString => EmptyString
  | String c s' =>
      match drop_end P s' with
      | EmptyString => if P c then EmptyString else String c EmptyString
      | r => String c r
      end
  end.

(** An underscore stands between two digits. *)
Fixpoint underscores_ok (prev : ascii) (s : string) : bool :=
  match s with
  | EmptyString => negb (Ascii.eqb prev "_")
  | String c s' =>
      (if Ascii.eqb c "_" then is_digit prev
       else negb (Ascii.eqb prev "_") || is_digit c)
      && underscores_ok c s'
  end.

Fixpoint without (x : ascii) (s : string) : string :=
  match s with
  | EmptyString => EmptyString
  | String c s' => if Ascii.eqb c x then without x s' else String c (without x s')
  end.

Definition unsigned (s : string) : string :=
  match s with
  | String c s' => if Ascii.eqb c "+" || Ascii.eqb c "-" then s' else s
  | EmptyString => EmptyString
  end.

Definition starts_digit (s : string) : bool :=
  match s with
  | String c _ => is_digit c
  | EmptyString => false
  end.

(** What may follow the mantissa: nothing, or an exponent. *)
Definition exponent (s : string) : bool :=
  match s with
  | EmptyString => true
  | String c s' =>
      (Ascii.eqb c "e" || Ascii.eqb c "E")
      && starts_digit (unsigned s')
      && String.eqb (drop_while is_digit (unsigned s')) EmptyString
  end.

Definition decimal (s : string) : bool :=
  match s with
  | String "." s' => starts_digit s' && exponent (drop_while is_digit s')
  | _ =>
      starts_digit s
      && match drop_while is_digit s with
         | String "." r => exponent (drop_while is_digit r)
         | r => exponent r
         end
  end.

Definition downcase (a : ascii) : ascii :=
  if ((65 <=? N_of_ascii a) && (N_of_ascii a <=? 90))%N
  then ascii_of_N (N_of_ascii a + 32) else a.

Fixpoint lowered (s : string) : string :=
  match s with
  | EmptyString => EmptyString
  | String c s' => String (downcase c) (lowered s')
  end.

Definition special (s : string) : bool :=
  String.eqb (lowered s) "inf" || String.eqb (lowered s) "infinity"
  || String.eqb (lowered s) "nan".

Definition float_literal (s : string) : bool :=
  let t := drop_while float_space (drop_end float_space s) in
  underscores_ok "000" t
  && (decimal (unsigned (without "_" t)) || special (unsigned t)).

(** [float(tech.version) if tech.version else 1.0]: [None] when the
    conversion raises; the loop then builds no object (see [loop_body]). *)
Definition version_of (t : technique) : option string :=
  match t_version t with
  | Some (String c v) =>
      if float_literal (String c v) then Some (String c v) else None
  | _ => Some "1.0"
  end.

Definition technique_object (row : tech_row) : technique_obj :=
  let total := own_total_rules row + sub_total_rules row in
  let active := own_active_rules row + sub_active_rules row in
  {| o_id := t_id (row_t row);
     o_attack_id := attack_id (row_t row);
     o_name := t_name (row_t row);
     o_platforms := default [] (platforms (row_t row));
     o_version := default "1.0" (version_of (row_t row));
     o_deprecated := py_bool (deprecated (row_t row));
     o_revoked := py_bool (revoked (row_t row));
     o_coverage :=
       {| total_rules := total;
          active_rules := active;
          own_rules := own_total_rules row;
          sub_rules := sub_total_rules row;
          rules_by_severity :=
            {| critical := critical_rules_count row;
               high := high_rules_count row;
               medium := medium_rules_count row;
               low := low_rules_count row |};
          has_coverage := 0 <? active;
          coverage_level := level_of active |};
     o_comments_count := comments_count row |}.

(** The coverage filter of the loop: [continue] on a mismatch. *)
Definition skipped (req : request) (row : tech_row) : bool :=
  let active := own_active_rules row + sub_active_rules row in
  if String.eqb (coverage_filter req) "covered" && (active =? 0) then true
  else if String.eqb (coverage_filter req) "uncovered" && (0 <? active) then true
  else false.

(** Python dictionaries keyed by strings: insertion order is kept, and an
    assignment to a key already present replaces its value in place. *)
Module Dict.

Definition t (V : Type) := list (string * V).

Fixpoint get {V} (d : t V) (k : string) : option V :=
  match d with
  | [] => None
  | (k', v) :: d' => if String.eqb k' k then Some v else get d' k
  end.

Fixpoint set {V} (d : t V) (k : string) (v : V) : t V :=
  match d with
  | [] => [(k, v)]
  | (k', v') :: d' =>
      if String.eqb k' k then (k', v) :: d' else (k', v') :: set d' k v
  end.

Definition values {V} (d : t V) : list V := snd <$> d.

End Dict.

(** ["." in s] and [s.split(".")[0]]. *)
Fixpoint has_dot (s : string) : bool :=
  match s with
  | EmptyString => false
  | String c s' => Ascii.eqb c "." || has_dot s'
  end.

Fixpoint before_dot (s : string) : string :=
  match s with
  | EmptyString => EmptyString
  | String c s' => if Ascii.eqb c "." then EmptyString else String c (before_dot s')
  end.

Record loop_state := {
  parent_techniques : list technique_obj;
  subtechniques_by_parent : Dict.t (list technique_obj);
  all_techniques_dict : Dict.t technique_obj
}.

Definition loop_init : loop_state :=
  {| parent_techniques := [];
     subtechniques_by_parent := [];
     all_techniques_dict := [] |}.

(** The end of the loop body: the object is filed. *)
Definition file (st : loop_state) (row : tech_row) : loop_state :=
  let obj := technique_object row in
  let aid := attack_id (row_t row) in
  let all' := Dict.set (all_techniques_dict st) aid obj in
  if has_dot aid then
    let parent_id := before_dot aid in
    let subs := default [] (Dict.get (subtechniques_by_parent st) parent_id) in
    {| parent_techniques := parent_techniques st;
       subtechniques_by_parent :=
         Dict.set (subtechniques_by_parent st) parent_id (subs ++ [obj])%list;
       all_techniques_dict := all' |}
  else
    {| parent_techniques := (parent_techniques st ++ [obj])%list;
       subtechniques_by_parent := subtechniques_by_parent st;
       all_techniques_dict := all' |}.

(** One turn of the loop: [None] when [float(tech.version)] raises. *)
Definition loop_body (req : request) (st : loop_state) (row : tech_row)
  : option loop_state :=
  if skipped req row then Some st
  else
    match version_of (row_t row) with
    | None => None
    | Some _ => Some (file st row)
    end.

Fixpoint run_loop (req : request) (rows : list tech_row) (st : loop_state)
  : option loop_state :=
  match rows with
  | [] => Some st
  | row :: rows' =>
      match loop_body req st row with
      | None => None
      | Some st' => run_loop req rows' st'
      end
  end.

Definition process_techniques (req : request) (rows : list tech_row)
  : option loop_state :=
  run_loop req rows loop_init.

(** ** Statement 1: the tactics with their technique counts

    [FROM tactics t
     LEFT JOIN technique_tactics tt ON t.id = tt.tactic_id
     LEFT JOIN techniques tech ON tt.technique_id = tech.id
          AND tech.revoked = 0
          AND (:include_deprecated OR tech.deprecated = 0)
          AND (:platform_filter IS NULL
               OR JSON_CONTAINS(tech.platforms, :platform_json))
     LEFT JOIN correlation_rules cr ON tech.attack_id = cr.technique_id
          AND cr.active = 1 AND cr.status != 'deleted'] *)

Record tactic_join := {
  k_tt : option technique_tactic;
  k_tech : option technique;
  k_cr : option rule
}.

Definition is_null {A} (a : option A) : bool :=
  match a with None => true | Some _ => false end.

Definition tech_on (db : database) (req : request) (tt : option technique_tactic)
    (tech : technique) : Sql.tv :=
  Sql.and3
    (Sql.and3
       (Sql.and3
          (Sql.eq_str (collation db) (tt_technique_id <$> tt) (Some (t_id tech)))
          (Sql.is0 (revoked tech)))
       (Sql.or3 (Some (include_deprecated req)) (Sql.is0 (deprecated tech))))
    (Sql.or3 (Some (is_null (platform_filter req)))
             (contains db (platforms tech) (platform_json req))).

Definition cr_on (c : Sql.collation) (tech : option technique) (cr : rule)
  : Sql.tv :=
  Sql.and3
    (Sql.and3
       (Sql.eq_str c (attack_id <$> tech) (Some (r_technique_id cr)))
       (Sql.is1 (r_active cr)))
    (not_deleted c (Some cr)).

Definition tactic_joins (db : database) (req : request) (t : tactic)
  : list tactic_join :=
  let c := collation db in
  tt ← Sql.left_join
         (filter (λ tt, Sql.eqb c (tac_id t) (tt_tactic_id tt)) (technique_tactics db));
  tech ← Sql.left_join
           (filter (λ tech, Sql.holds (tech_on db req tt tech)) (techniques db));
  cr ← Sql.left_join
         (filter (λ cr, Sql.holds (cr_on c tech cr)) (correlation_rules db));
  [ {| k_tt := tt; k_tech := tech; k_cr := cr |} ].

Definition linked_id (k : tactic_join) : option string :=
  tt_technique_id <$> k_tt k.

Definition covered_id (c : Sql.collation) (k : tactic_join) : option string :=
  Sql.case_when (active_not_deleted c (k_cr k)) (t_id <$> k_tech k).

Record tactic_row := {
  row_tac : tactic;
  techniques_count : Z;
  covered_techniques_count : Z
}.

(** [CASE t.x_mitre_shortname WHEN 'initial-access' THEN 1 ... ELSE 99 END]:
    the position of a short name in the kill chain, 99 for any other. *)
Definition kill_chain_rank (c : Sql.collation) (shortname : string) : Z :=
  if Sql.eqb c shortname "initial-access" then 1
  else if Sql.eqb c shortname "execution" then 2
  else if Sql.eqb c shortname "persistence" then 3
  else if Sql.eqb c shortname "privilege-escalation" then 4
  else if Sql.eqb c shortname "defense-evasion" then 5
  else if Sql.eqb c shortname "credential-access" then 6
  else if Sql.eqb c shortname "discovery" then 7
  else if Sql.eqb c shortname "lateral-movement" then 8
  else if Sql.eqb c shortname "collection" then 9
  else if Sql.eqb c shortname "command-and-control" then 10
  else if Sql.eqb c shortname "exfiltration" then 11
  else if Sql.eqb c shortname "impact" then 12
  else 99.

Definition by_kill_chain (c : Sql.collation) (a b : tactic_row) : bool :=
  kill_chain_rank c (x_mitre_shortname (row_tac a))
  <=? kill_chain_rank c (x_mitre_shortname (row_tac b)).

Definition tactic_group (db : database) (req : request) (t : tactic) : tactic_row :=
  let c := collation db in
  let rows := tactic_joins db req t in
  {| row_tac := t;
     techniques_count := Sql.count_distinct (Sql.key c linked_id) rows;
     covered_techniques_count :=
       Sql.count_distinct (Sql.key c (covered_id c)) rows |}.

Definition tactics_query (sv : Sql.server) (db : database) (req : request)
  : list tactic_row :=
  Sql.order_by sv (by_kill_chain (collation db)) (tactic_group db req <$> tactics db).

(** ** Python numbers *)

Module Py.

(** A JSON number of the response: an [int] or a [float]. *)
Inductive num := Int (z : Z) | Float (f : float).

(** [float(z)], exact for [0 <= z < 2^53]. *)
Definition float_of_int (z : Z) : float := PrimFloat.of_uint63 (Uint63.of_Z z).

(** [a / b] on ints: the correctly rounded quotient. *)
Definition truediv (a b : Z) : float :=
  PrimFloat.div (float_of_int a) (float_of_int b).

(** The integer nearest to [n / d] for [d > 0], ties to even. *)
Definition half_even (n d : Z) : Z :=
  let q := n / d in
  match 2 * (n mod d) ?= d with
  | Lt => q
  | Gt => q + 1
  | Eq => if Z.even q then q else q + 1
  end.

(** [round(x, 1)]: the exact value of the double is rounded to the nearest
    tenth, ties to even, and the decimal result is read back as the nearest
    double; a double without fractional bits is returned as it is.  Exact
    while ten times [|x|] stays below [2^53]. *)
Definition round1 (x : float) : float :=
  match Prim2SF x with
  | S754_finite sign m e =>
      if 0 <=? e then x
      else
        let tenths := half_even (10 * Z.pos m) (2 ^ (- e)) in
        let r := PrimFloat.div (float_of_int tenths) (float_of_int 10) in
        if sign then PrimFloat.opp r else r
  | _ => x
  end.

(** [round(a / b * 100, 1)] *)
Definition percentage (a b : Z) : float :=
  round1 (PrimFloat.mul (truediv a b) (float_of_int 100)).

End Py.

(** ** Step 4: tactic objects *)

Record tactic_obj := {
  a_id : string;
  a_name : string;
  a_name_ru : string;
  a_shortname : string;
  a_techniques_count : Z;
  a_covered_techniques_count : Z;
  a_coverage_percentage : Py.num
}.

Definition tactic_object (row : tactic_row) : tactic_obj :=
  {| a_id := tac_id (row_tac row);
     a_name := tac_name (row_tac row);
     a_name_ru :=
       if truthy (tac_name_ru (row_tac row))
       then default EmptyString (tac_name_ru (row_tac row))
       else tac_name (row_tac row);
     a_shortname := x_mitre_shortname (row_tac row);
     a_techniques_count := techniques_count row;
     a_covered_techniques_count := covered_techniques_count row;
     a_coverage_percentage :=
       if 0 <? techniques_count row
       then Py.Float (Py.percentage (covered_techniques_count row)
                                    (techniques_count row))
       else Py.Int 0 |}.

(** ** Step 5: the global statistics *)

Record level_counts := {
  excellent : Z;
  good : Z;
  basic : Z;
  none : Z
}.

Record statistics := {
  total_techniques : Z;
  s_parent_techniques : Z;
  s_subtechniques : Z;
  covered_techniques : Z;
  uncovered_techniques : Z;
  s_coverage_percentage : Py.num;
  tactics_total : Z;
  tactics_with_techniques : Z;
  coverage_levels : level_counts;
  s_rules_by_severity : severity_counts
}.

(** [coverage_levels[level] += 1] *)
Definition bump (l : level) (c : level_counts) : level_counts :=
  match l with
  | Excellent => {| excellent := excellent c + 1; good := good c;
                    basic := basic c; none := none c |}
  | Good => {| excellent := excellent c; good := good c + 1;
               basic := basic c; none := none c |}
  | Basic => {| excellent := excellent c; good := good c;
                basic := basic c + 1; none := none c |}
  | NoCoverage => {| excellent := excellent c; good := good c;
                     basic := basic c; none := none c + 1 |}
  end.

(** [for severity, count in ...items(): rules_by_severity[severity] += count] *)
Definition add_severity (s acc : severity_counts) : severity_counts :=
  {| critical := critical acc + critical s;
     high := high acc + high s;
     medium := medium acc + medium s;
     low := low acc + low s |}.

Definition tally (acc : level_counts * severity_counts) (tech : technique_obj)
  : level_counts * severity_counts :=
  (bump (coverage_level (o_coverage tech)) (fst acc),
   add_severity (rules_by_severity (o_coverage tech)) (snd acc)).

Definition zero_levels : level_counts :=
  {| excellent := 0; good := 0; basic := 0; none := 0 |}.

Definition zero_severities : severity_counts :=
  {| critical := 0; high := 0; medium := 0; low := 0 |}.

Definition len {A} (l : list A) : Z := Z.of_nat (length l).

Definition compute_statistics (st : loop_state) (tacs : list tactic_obj)
  : statistics :=
  let values := Dict.values (all_techniques_dict st) in
  let total := len values in
  let covered :=
    len (filter (λ t, has_coverage (o_coverage t)) values) in
  let sums := fold_left tally values (zero_levels, zero_severities) in
  {| total_techniques := total;
     s_parent_techniques := len (parent_techniques st);
     s_subtechniques :=
       foldr Z.add 0 (len <$> Dict.values (subtechniques_by_parent st));
     covered_techniques := covered;
     uncovered_techniques := total - covered;
     s_coverage_percentage :=
       if 0 <? total then Py.Float (Py.percentage covered total) else Py.Int 0;
     tactics_total := len tacs;
     tactics_with_techniques :=
       len (filter (λ t, 0 <? a_techniques_count t) tacs);
     coverage_levels := fst sums;
     s_rules_by_severity := snd sums |}.

(** ** Step 6: the response

    The handler reads the clock once, for [generated_at], and writes three
    lines to the log, or two and the error lines when it fails.  The
    sub-technique lists that this step hangs on the parent objects are
    the matter of [Shared] below. *)

Inductive log_line :=
  | LogCalled
  | LogFilters (req : request)
  | LogGenerated (n_tactics n_techniques n_parents : Z)
  | LogFailed.

(** What the handler finds around it in one request: the clock, the log
    and the server. *)
Record world := {
  utcnow : Z;
  log : list log_line;
  server : Sql.server
}.

(** The answer of a handler: the data of a success response, or the
    error response with status 500 of its [except] branch. *)
Inductive answer (A : Type) :=
  | Ok (data : A)
  | ServerError.

Arguments Ok {A} data.
Arguments ServerError {A}.

Record matrix_info := {
  version : string;
  generated_at : Z;
  mi_response_format : string;
  mi_include_subtechniques : bool;
  mi_include_deprecated : bool;
  fix_version : string
}.

Record matrix_data := {
  m_tactics : list tactic_obj;
  m_techniques : list technique_obj;
  m_parent_techniques : list technique_obj;
  m_matrix_info : matrix_info;
  m_statistics : option statistics;
  m_subtechniques_by_parent : option (Dict.t (list technique_obj))
}.

Definition logged (w : world) (lines : list log_line) : world :=
  {| utcnow := utcnow w; log := (log w ++ lines)%list; server := server w |}.

Definition get_ultimate_matrix (db : database) (req : request) (w : world)
  : answer matrix_data * world :=
  if Sql.raises (server w)
  then (ServerError, logged w [LogCalled; LogFilters req; LogFailed])
  else
    let tactics_raw := tactics_query (server w) db req in
    let techniques_raw := techniques_query (server w) db req in
    match process_techniques req techniques_raw with
    | None => (ServerError, logged w [LogCalled; LogFilters req; LogFailed])
    | Some st =>
        let tacs := tactic_object <$> tactics_raw in
        let techniques_list := Dict.values (all_techniques_dict st) in
        (Ok {| m_tactics := tacs;
               m_techniques := techniques_list;
               m_parent_techniques := parent_techniques st;
               m_matrix_info :=
                 {| version := "14.0";
                    generated_at := utcnow w;
                    mi_response_format := response_format req;
                    mi_include_subtechniques := include_subtechniques req;
                    mi_include_deprecated := include_deprecated req;
                    fix_version := "v14.0-subtechniques-coverage-fix" |};
               m_statistics :=
                 if include_statistics req
                 then Some (compute_statistics st tacs) else None;
               m_subtechniques_by_parent :=
                 if include_subtechniques req
                 then Some (subtechniques_by_parent st) else None |},
         logged w [LogCalled; LogFilters req;
                   LogGenerated (len tacs) (len techniques_list)
                                (len (parent_techniques st))])
    end.

(** The matrix that the handler answers with. *)
Definition answers (db : database) (req : request) (w : world)
    (m : matrix_data) : Prop :=
  (get_ultimate_matrix db req w).1 = Ok m.

(** The kill-chain rank of a tactic, by which both tactic statements
    order their rows. *)
Definition tactic_rank (c : Sql.collation) (t : tactic) : Z :=
  kill_chain_rank c (x_mitre_shortname t).


(** * Vocabulary of the properties *)

(** The characters that [LIKE] does not read literally. *)
Definition wildcard (c : ascii) : bool :=
  Ascii.eqb c "%" || Ascii.eqb c "_" || Ascii.eqb c "\".

(** The string holds the character. *)
Fixpoint has_char (x : ascii) (s : string) : bool :=
  match s with
  | EmptyString => false
  | String c s' => Ascii.eqb c x || has_char x s'
  end.

Fixpoint plain (s : string) : bool :=
  match s with
  | EmptyString => true
  | String c s' => negb (wildcard c) && plain s'
  end.

(** The rule predicates in the words of the data model: a rule is of an
    identifier when the store takes its [technique_id] for equal to it
    (the sort keys are the same), and under an identifier when its
    [technique_id] starts with the identifier and a dot, character by
    character up to the classes of the characters. *)
Definition rule_of (c : Sql.collation) (id : string) (r : rule) : Prop :=
  Sql.weight c (r_technique_id r) = Sql.weight c id.

Definition rule_under (c : Sql.collation) (id : string) (r : rule) : Prop :=
  String.prefix (Sql.folded c (id ++ ".")) (Sql.folded c (r_technique_id r)) = true.

Definition rule_live (r : rule) : Prop :=
  r_active r = Some true /\ status_name (r_status r) <> "deleted".

#[global] Instance rule_of_dec c id r : Decision (rule_of c id r).
Proof. unfold rule_of. apply _. Defined.

#[global] Instance rule_under_dec c id r : Decision (rule_under c id r).
Proof. unfold rule_under. apply _. Defined.

#[global] Instance rule_live_dec r : Decision (rule_live r).
Proof. unfold rule_live. apply _. Defined.

(** The rules that a severity bucket of a technique should count: the
    active, not deleted rules of the technique and, for a parent, of its
    sub-techniques, with exactly that severity. *)
Definition live_with_severity (c : Sql.collation) (id sev : string) (r : rule)
  : Prop :=
  (rule_of c id r \/ (has_dot id = false /\ rule_under c id r))
  /\ rule_live r /\ r_severity r = Some sev.

#[global] Instance live_with_severity_dec c id sev r :
  Decision (live_with_severity c id sev r).
Proof. unfold live_with_severity. apply _. Defined.

(** The loop body without the conversion that may raise. *)
Definition loop_step (req : request) (st : loop_state) (row : tech_row)
  : loop_state :=
  if skipped req row then st else file st row.

(** The data of the success response, as the handler builds it when
    nothing raises. *)
Definition matrix_success (db : database) (req : request) (w : world)
  : matrix_data :=
  let tacs := tactic_object <$> tactics_query (server w) db req in
  let st := fold_left (loop_step req) (techniques_query (server w) db req)
                      loop_init in
  {| m_tactics := tacs;
     m_techniques := Dict.values (all_techniques_dict st);
     m_parent_techniques := parent_techniques st;
     m_matrix_info :=
       {| version := "14.0";
          generated_at := utcnow w;
          mi_response_format := response_format req;
          mi_include_subtechniques := include_subtechniques req;
          mi_include_deprecated := include_deprecated req;
          fix_version := "v14.0-subtechniques-coverage-fix" |};
     m_statistics :=
       if include_statistics req then Some (compute_statistics st tacs) else None;
     m_subtechniques_by_parent :=
       if include_subtechniques req then Some (subtechniques_by_parent st)
       else None |}.

(** No kept row has a version that [float] refuses. *)
Definition versions_ok (req : request) (rows : list tech_row) : bool :=
  forallb (λ row, skipped req row || bool_decide (is_Some (version_of (row_t row))))
          rows.

(** The rules that the roll-up join pairs with an identifier. *)
Definition rolled_up (c : Sql.collation) (id : string) (r : rule) : Prop :=
  Sql.like c (id ++ ".%") (r_technique_id r) = true
  /\ Sql.like c "%.%" id = false.

#[global] Instance rolled_up_dec c id r : Decision (rolled_up c id r).
Proof. unfold rolled_up. apply _. Defined.

Definition is_active (r : rule) : Prop := r_active r = Some true.

#[global] Instance is_active_dec r : Decision (is_active r).
Proof. unfold is_active. apply _. Defined.

(** Primary keys and unique columns tell rows apart by sort key. *)
Definition rule_ids_unique (db : database) : Prop :=
  NoDup (Sql.weight (collation db) ∘ r_id <$> correlation_rules db).

(** A joined row with another rule on one of its sides. *)
Definition with_own (j : tech_join) (own : option rule) : tech_join :=
  {| j_tt := j_tt j; j_tac := j_tac j; cr_own := own;
     cr_sub := cr_sub j; j_c := j_c j |}.

Definition with_sub (j : tech_join) (sub : option rule) : tech_join :=
  {| j_tt := j_tt j; j_tac := j_tac j; cr_own := cr_own j;
     cr_sub := sub; j_c := j_c j |}.

Definition level_sum (c : level_counts) : Z :=
  excellent c + good c + basic c + none c.

(** The store with one more technique row, put at position [pos] of the
    table, and with tactic links for it. *)
Definition with_technique (db : database) (pos : nat) (t : technique)
    (links : list technique_tactic) : database :=
  {| tactics := tactics db;
     techniques := take pos (techniques db) ++ t :: drop pos (techniques db);
     technique_tactics := links ++ technique_tactics db;
     correlation_rules := correlation_rules db;
     comments := comments db;
     collation := collation db;
     json_contains := json_contains db |}.

(** The counts of the statistics that are taken over the techniques. *)
Definition global_counts (s : statistics) :=
  (total_techniques s, s_parent_techniques s, s_subtechniques s,
   covered_techniques s, uncovered_techniques s, s_coverage_percentage s,
   coverage_levels s, s_rules_by_severity s).

(** The data of an answer, if it is a success. *)
Definition data_of {A} (a : answer A) : option A :=
  match a with Ok m => Some m | ServerError => None end.

(** ** Sample stores *)

Module Sample.

Definition execution : tactic :=
  {| tac_id := "TA0002"; tac_name := "Execution"; tac_name_ru := None;
     x_mitre_shortname := "execution" |}.

Definition persistence : tactic :=
  {| tac_id := "TA0003"; tac_name := "Persistence"; tac_name_ru := None;
     x_mitre_shortname := "persistence" |}.

(** Two tactics that the CASE of the tactic statements does not name. *)
Definition reconnaissance : tactic :=
  {| tac_id := "TA0043"; tac_name := "Reconnaissance"; tac_name_ru := None;
     x_mitre_shortname := "reconnaissance" |}.

Definition resource_development : tactic :=
  {| tac_id := "TA0042"; tac_name := "Resource Development"; tac_name_ru := None;
     x_mitre_shortname := "resource-development" |}.

Definition tech (id aid : string) (is_revoked : bool) : technique :=
  {| t_id := id; attack_id := aid; t_name := aid;
     platforms := Some ["Windows"]; t_version := Some "1.0";
     deprecated := Some false; revoked := Some is_revoked |}.

Definition with_version (t : technique) (v : string) : technique :=
  {| t_id := t_id t; attack_id := attack_id t; t_name := t_name t;
     platforms := platforms t; t_version := Some v;
     deprecated := deprecated t; revoked := revoked t |}.

(** A store that compares without regard to case. *)
Definition store (tacs : list tactic) (techs : list technique)
    (links : list technique_tactic) (rules : list rule) : database :=
  {| tactics := tacs; techniques := techs; technique_tactics := links;
     correlation_rules := rules; comments := [];
     collation := Sql.ascii_ci; json_contains := Sql.json_member |}.

Definition link (id tac : string) : technique_tactic :=
  {| tt_technique_id := id; tt_tactic_id := tac |}.

Definition mk_rule (id aid sev : string) (active : bool) (status : rule_status)
  : rule :=
  {| r_id := id; r_technique_id := aid; r_severity := Some sev;
     r_active := Some active; r_status := status |}.

Definition all_of : request :=
  {| platform_filter := None; coverage_filter := "all"; tactic_filter := None;
     include_deprecated := false; include_subtechniques := true;
     include_statistics := true; response_format := "full" |}.

Definition at_noon : world :=
  {| utcnow := 43200; log := []; server := Sql.in_table_order |}.

(** A later call, served by a server that reads the tables backwards. *)
Definition at_midnight : world :=
  {| utcnow := 86400; log := []; server := Sql.in_reverse_order |}.



(** T1505 without rules of its own, T1505.001 with two active rules of
    severity high, T1505.002 without rules. *)
Definition webshell : database :=
  store [persistence]
        [tech "u1" "T1505" false; tech "u2" "T1505.001" false;
         tech "u3" "T1505.002" false]
        [link "u1" "TA0003"; link "u2" "TA0003"; link "u3" "TA0003"]
        [mk_rule "r1" "T1505.001" "high" true Active;
         mk_rule "r2" "T1505.001" "high" true Testing].

(** A technique whose identifier holds a [LIKE] wildcard. *)
Definition wildcard_id : database :=
  store [execution]
        [tech "u1" "T%" false; tech "u2" "T1078.001" false]
        [link "u1" "TA0002"]
        [mk_rule "r1" "T1078.001" "high" true Active].

(** A parent with an active rule of its own (high) and an active rule on a
    sub-technique (critical). *)
Definition own_and_sub : database :=
  store [execution]
        [tech "u1" "T1059" false; tech "u2" "T1059.001" false]
        [link "u1" "TA0002"; link "u2" "TA0002"]
        [mk_rule "r1" "T1059" "high" true Active;
         mk_rule "r2" "T1059.001" "critical" true Active].

(** A tactic with a covered technique and a revoked one. *)
Definition one_revoked : database :=
  store [execution]
        [tech "u1" "T1059" false; tech "u2" "T1064" true]
        [link "u1" "TA0002"; link "u2" "TA0002"]
        [mk_rule "r1" "T1059" "high" true Active].

(** A tactic whose only technique is covered through a sub-technique that
    belongs to another tactic. *)
Definition covered_by_sub : database :=
  store [execution; persistence]
        [tech "u1" "T1059" false; tech "u2" "T1059.001" false]
        [link "u1" "TA0002"; link "u2" "TA0003"]
        [mk_rule "r1" "T1059.001" "high" true Active].

(** The same store under another collation. *)
Definition under (c : Sql.collation) (db : database) : database :=
  {| tactics := tactics db; techniques := techniques db;
     technique_tactics := technique_tactics db;
     correlation_rules := correlation_rules db; comments := comments db;
     collation := c; json_contains := json_contains db |}.

(** A rule whose [technique_id] is written in small letters and has a
    space at its end. *)
Definition loosely_written : database :=
  store [execution]
        [tech "u1" "T1059" false]
        [link "u1" "TA0002"]
        [mk_rule "r1" "t1059 " "high" true Active].

(** The same store with an empty rule table. *)
Definition without_rules (db : database) : database :=
  {| tactics := tactics db; techniques := techniques db;
     technique_tactics := technique_tactics db;
     correlation_rules := []; comments := comments db;
     collation := collation db; json_contains := json_contains db |}.

Definition summary (o : technique_obj) :=
  (o_attack_id o, total_rules (o_coverage o), active_rules (o_coverage o),
   rules_by_severity (o_coverage o), level_name (coverage_level (o_coverage o))).

Definition technique_summaries (db : database) :=
  (λ m, summary <$> m_techniques m)
    <$> data_of (get_ultimate_matrix db all_of at_noon).1.

Definition tactic_summaries (db : database) :=
  (λ m, (λ a, (a_id a, a_techniques_count a, a_covered_techniques_count a,
               a_coverage_percentage a)) <$> m_tactics m)
    <$> data_of (get_ultimate_matrix db all_of at_noon).1.

End Sample.

(** Closed decidable side conditions are settled by evaluation. *)
Ltac by_evaluation :=
  match goal with
  | |- ?P => apply (bool_decide_eq_true_1 P); vm_compute; reflexivity
  end.

(** * Vocabulary of the further properties *)

(** The row of [techniques_raw] as the loop files it: its key in
    [all_techniques_dict] and its object. *)
Definition row_key (row : tech_row) : string := attack_id (row_t row).

Definition row_entry (row : tech_row) : string * technique_obj :=
  (row_key row, technique_object row).

(** The rows that the coverage filter lets through. *)
Definition kept (req : request) (rows : list tech_row) : list tech_row :=
  filter (λ row, skipped req row = false) rows.

(** [sum(len(subs) for subs in d.values())] *)
Definition total_len {V} (d : Dict.t (list V)) : Z :=
  foldr Z.add 0 (len <$> Dict.values d).

Definition by_name (c : Sql.collation) (a b : string) : Prop :=
  Sql.leb c a b = true.

Definition by_rank (c : Sql.collation) (a b : tactic_obj) : Prop :=
  kill_chain_rank c (a_shortname a) <= kill_chain_rank c (a_shortname b).

Module Sample2.

Definition windows_only : request :=
  {| platform_filter := Some "Windows"; coverage_filter := "all";
     tactic_filter := None; include_deprecated := false;
     include_subtechniques := true; include_statistics := true;
     response_format := "full" |}.

Definition covered_only : request :=
  {| platform_filter := None; coverage_filter := "covered";
     tactic_filter := None; include_deprecated := false;
     include_subtechniques := true; include_statistics := true;
     response_format := "full" |}.

Definition uncovered_only : request :=
  {| platform_filter := None; coverage_filter := "uncovered";
     tactic_filter := None; include_deprecated := false;
     include_subtechniques := true; include_statistics := true;
     response_format := "full" |}.

Definition object_of (db : database) (req : request) (t : technique)
  : technique_obj :=
  technique_object (aggregate (collation db) t (group_rows db req t)).

End Sample2.

#[global] Instance tactic_eq_dec : EqDecision tactic.
Proof. solve_decision. Defined.

#[global] Instance technique_eq_dec : EqDecision technique.
Proof. solve_decision. Defined.

#[global] Instance technique_tactic_eq_dec : EqDecision technique_tactic.
Proof. solve_decision. Defined.

#[global] Instance rule_status_eq_dec : EqDecision rule_status.
Proof. solve_decision. Defined.

#[global] Instance rule_eq_dec : EqDecision rule.
Proof. solve_decision. Defined.

(** * The tactic list endpoint ([get_tactics_only]), without its log lines

    [FROM tactics t
     LEFT JOIN technique_tactics tt ON t.id = tt.tactic_id
     LEFT JOIN techniques tech ON tt.technique_id = tech.id
          AND tech.revoked = 0 AND tech.deprecated = 0] *)

Module TacticsOnly.

Record join := {
  k_tt : option technique_tactic;
  k_tech : option technique
}.

Definition tech_on (c : Sql.collation) (tt : option technique_tactic)
    (tech : technique) : Sql.tv :=
  Sql.and3
    (Sql.and3 (Sql.eq_str c (tt_technique_id <$> tt) (Some (t_id tech)))
              (Sql.is0 (revoked tech)))
    (Sql.is0 (deprecated tech)).

Definition tactic_joins (db : database) (t : tactic) : list join :=
  let c := collation db in
  tt ← Sql.left_join
         (filter (λ tt, Sql.eqb c (tac_id t) (tt_tactic_id tt)) (technique_tactics db));
  tech ← Sql.left_join
           (filter (λ tech, Sql.holds (tech_on c tt tech)) (techniques db));
  [ {| k_tt := tt; k_tech := tech |} ].

Record row := {
  row_tac : tactic;
  techniques_count : Z
}.

Definition tactic_group (db : database) (t : tactic) : row :=
  {| row_tac := t;
     techniques_count :=
       Sql.count_distinct (Sql.key (collation db) (λ k, tt_technique_id <$> k_tt k))
                          (tactic_joins db t) |}.

Definition by_kill_chain (c : Sql.collation) (a b : row) : bool :=
  kill_chain_rank c (x_mitre_shortname (row_tac a))
  <=? kill_chain_rank c (x_mitre_shortname (row_tac b)).

Definition tactics_query (sv : Sql.server) (db : database) : list row :=
  Sql.order_by sv (by_kill_chain (collation db)) (tactic_group db <$> tactics db).

Record entry := {
  e_id : string;
  e_name : string;
  e_name_ru : string;
  e_shortname : string;
  e_techniques_count : Z
}.

Definition entry_of (r : row) : entry :=
  {| e_id := tac_id (row_tac r);
     e_name := tac_name (row_tac r);
     e_name_ru :=
       if truthy (tac_name_ru (row_tac r))
       then default EmptyString (tac_name_ru (row_tac r))
       else tac_name (row_tac r);
     e_shortname := x_mitre_shortname (row_tac r);
     e_techniques_count := techniques_count r |}.

Record response := {
  r_tactics : list entry;
  r_total : Z
}.

Definition get_tactics_only (db : database) (w : world) : answer response :=
  if Sql.raises (server w) then ServerError
  else
    let tactics := entry_of <$> tactics_query (server w) db in
    Ok {| r_tactics := tactics; r_total := len tactics |}.

End TacticsOnly.

(** * The statistics endpoint ([get_matrix_statistics])

    The handler sends three statements.  The first two are embedded; the
    rows of the third, the platform breakdown, are taken as they come
    back from the store.  The log line of the handler is left out. *)

Module Statistics.

(** [stats_query]:
    [FROM techniques t
     LEFT JOIN correlation_rules cr ON t.attack_id = cr.technique_id
     WHERE t.revoked = 0], one group over all rows. *)
Record stats_join := {
  s_t : technique;
  s_cr : option rule
}.

Definition stats_joins (db : database) : list stats_join :=
  t ← techniques db;
  cr ← Sql.left_join (filter (λ r, own_on (collation db) t r) (correlation_rules db));
  [ {| s_t := t; s_cr := cr |} ].

Definition stats_rows (db : database) : list stats_join :=
  filter (λ j, Sql.holds (Sql.is0 (revoked (s_t j)))) (stats_joins db).

(** [EXISTS(SELECT 1 FROM correlation_rules cr WHERE cr.technique_id =
    t.attack_id AND cr.active = 1 AND cr.status != 'deleted')] *)
Definition has_live_rule (db : database) (t : technique) : bool :=
  existsb (λ cr, Sql.holds (cr_on (collation db) (Some t) cr)) (correlation_rules db).

Definition sub_like (c : Sql.collation) (t : technique) : Sql.tv :=
  Some (Sql.like c "%.%" (attack_id t)).

Record stats_row := {
  q_total_techniques : Z;
  q_active_techniques : Z;
  q_deprecated_techniques : Z;
  q_parent_techniques : Z;
  q_subtechniques : Z;
  q_covered_techniques : Z;
  q_total_rules : Z;
  q_active_rules : Z
}.

Definition attack_id_when (c : technique -> Sql.tv) (j : stats_join)
  : option string :=
  Sql.case_when (c (s_t j)) (Some (attack_id (s_t j))).

Definition stats_query (db : database) : stats_row :=
  let c := collation db in
  let rows := stats_rows db in
  {| q_total_techniques :=
       Sql.count_distinct (Sql.key c (λ j, Some (attack_id (s_t j)))) rows;
     q_active_techniques :=
       Sql.count_distinct
         (Sql.key c (attack_id_when (λ t, Sql.is0 (deprecated t)))) rows;
     q_deprecated_techniques :=
       Sql.count_distinct
         (Sql.key c (attack_id_when (λ t, Sql.is1 (deprecated t)))) rows;
     q_parent_techniques :=
       Sql.count_distinct
         (Sql.key c (attack_id_when (λ t, Sql.not3 (sub_like c t)))) rows;
     q_subtechniques :=
       Sql.count_distinct (Sql.key c (attack_id_when (sub_like c))) rows;
     q_covered_techniques :=
       Sql.count_distinct
         (Sql.key c (attack_id_when (λ t, Some (has_live_rule db t)))) rows;
     q_total_rules := Sql.count_distinct (Sql.key c (λ j, r_id <$> s_cr j)) rows;
     q_active_rules :=
       Sql.count_distinct
         (Sql.key c (λ j, Sql.case_when (active_not_deleted c (s_cr j))
                                        (r_id <$> s_cr j))) rows |}.

(** [tactics_stats_query]:
    [FROM tactics tac
     LEFT JOIN technique_tactics tt ON tac.id = tt.tactic_id
     LEFT JOIN techniques t ON tt.technique_id = t.id
          AND t.revoked = 0 AND t.deprecated = 0
     GROUP BY tac.id, ... ORDER BY techniques_count DESC] *)
Record tactic_stats_row := {
  ts_shortname : string;
  ts_name_ru : option string;
  ts_techniques_count : Z;
  ts_covered_count : Z
}.

Definition covered_id (db : database) (k : TacticsOnly.join) : option string :=
  Sql.case_when (has_live_rule db <$> TacticsOnly.k_tech k)
                (t_id <$> TacticsOnly.k_tech k).

Definition tactic_stats_group (db : database) (t : tactic) : tactic_stats_row :=
  let c := collation db in
  let rows := TacticsOnly.tactic_joins db t in
  {| ts_shortname := x_mitre_shortname t;
     ts_name_ru := tac_name_ru t;
     ts_techniques_count :=
       Sql.count_distinct (Sql.key c (λ k, tt_technique_id <$> TacticsOnly.k_tt k)) rows;
     ts_covered_count := Sql.count_distinct (Sql.key c (covered_id db)) rows |}.

Definition by_count_desc (a b : tactic_stats_row) : bool :=
  ts_techniques_count b <=? ts_techniques_count a.

Definition tactics_stats_query (sv : Sql.server) (db : database)
  : list tactic_stats_row :=
  Sql.order_by sv by_count_desc (tactic_stats_group db <$> tactics db).

Record overview := {
  ov_total_techniques : Z;
  ov_active_techniques : Z;
  ov_deprecated_techniques : Z;
  ov_parent_techniques : Z;
  ov_subtechniques : Z;
  ov_covered_techniques : Z;
  ov_uncovered_techniques : Z;
  ov_coverage_percentage : Py.num;
  ov_total_rules : Z;
  ov_active_rules : Z
}.

Record tactic_stats := {
  bt_tactic : string;
  bt_name_ru : option string;
  bt_techniques : Z;
  bt_covered : Z;
  bt_coverage_percentage : Py.num
}.

Record platform_stats := {
  bp_platform : option string;
  bp_techniques_count : Z
}.

Record statistics_data := {
  sd_overview : overview;
  sd_by_tactics : list tactic_stats;
  sd_by_platforms : list platform_stats;
  sd_generated_at : Z
}.

Definition tactic_stats_of (r : tactic_stats_row) : tactic_stats :=
  {| bt_tactic := ts_shortname r;
     bt_name_ru := ts_name_ru r;
     bt_techniques := ts_techniques_count r;
     bt_covered := ts_covered_count r;
     bt_coverage_percentage :=
       if negb (ts_techniques_count r =? 0) && (0 <? ts_techniques_count r)
       then Py.Float (Py.percentage (ts_covered_count r) (ts_techniques_count r))
       else Py.Int 0 |}.

(** The data of the success response. *)
Definition statistics_success (db : database)
    (platforms_stats : list platform_stats) (w : world) : statistics_data :=
  let stats := stats_query db in
  let total_techniques := q_total_techniques stats in
  let covered_techniques := q_covered_techniques stats in
  {| sd_overview :=
       {| ov_total_techniques := total_techniques;
          ov_active_techniques := q_active_techniques stats;
          ov_deprecated_techniques := q_deprecated_techniques stats;
          ov_parent_techniques := q_parent_techniques stats;
          ov_subtechniques := q_subtechniques stats;
          ov_covered_techniques := covered_techniques;
          ov_uncovered_techniques := total_techniques - covered_techniques;
          ov_coverage_percentage :=
            if 0 <? total_techniques
            then Py.Float (Py.percentage covered_techniques total_techniques)
            else Py.Int 0;
          ov_total_rules := q_total_rules stats;
          ov_active_rules := q_active_rules stats |};
     sd_by_tactics := tactic_stats_of <$> tactics_stats_query (server w) db;
     sd_by_platforms := platforms_stats;
     sd_generated_at := utcnow w |}.

(** The handler: any exception of the statements is answered with the
    error response. *)
Definition get_matrix_statistics (db : database)
    (platforms_stats : list platform_stats) (w : world) : answer statistics_data :=
  if Sql.raises (server w) then ServerError
  else Ok (statistics_success db platforms_stats w).

End Statistics.

(** What the tactic listings say about one tactic. *)
Definition matrix_tactic_line (a : tactic_obj) :=
  (a_shortname a, a_techniques_count a, a_covered_techniques_count a,
   a_coverage_percentage a).

Definition statistics_tactic_line (b : Statistics.tactic_stats) :=
  (Statistics.bt_tactic b, Statistics.bt_techniques b, Statistics.bt_covered b,
   Statistics.bt_coverage_percentage b).

(** What the tactic list and the matrix both say about a tactic. *)
Definition tactic_entry_line (e : TacticsOnly.entry) :=
  (TacticsOnly.e_id e, TacticsOnly.e_shortname e, TacticsOnly.e_techniques_count e).

Definition tactic_object_line (a : tactic_obj) :=
  (a_id a, a_shortname a, a_techniques_count a).

Definition by_line_rank (c : Sql.collation) (a b : string * string * Z) : Prop :=
  kill_chain_rank c a.1.2 <= kill_chain_rank c b.1.2.

Definition by_rank_of (c : Sql.collation) (a b : tactic) : bool :=
  kill_chain_rank c (x_mitre_shortname a) <=? kill_chain_rank c (x_mitre_shortname b).

Definition more_techniques (a b : Statistics.tactic_stats) : Prop :=
  Statistics.bt_techniques b <= Statistics.bt_techniques a.

(** The identifiers of the techniques linked to a tactic. *)
Definition linked_ids (db : database) (t : tactic) : list string :=
  tt_technique_id
    <$> filter (λ l, Sql.eqb (collation db) (tac_id t) (tt_tactic_id l))
               (technique_tactics db).

(** * Helper functions (utils/helpers.py)

    A Python [str] is a [string] whose characters are read as code points
    below 256; [dict]s keyed by strings are [Dict.t]. *)

Module Helpers.

(** The JSON-like values the helpers are applied to. *)
Inductive pyval :=
  | PNone
  | PBool (b : bool)
  | PInt (z : Z)
  | PFloat (f : float)
  | PStr (s : string)
  | PList (l : list pyval)
  | PDict (d : list (string * pyval)).

(** [s.replace(c, by)] for a one-character [c]. *)
Fixpoint replace_char (c : ascii) (by_ : string) (s : string) : string :=
  match s with
  | EmptyString => EmptyString
  | String d s' =>
      if Ascii.eqb d c then (by_ ++ replace_char c by_ s')%string
      else String d (replace_char c by_ s')
  end.

(** [string.replace("%", "\\%").replace("_", "\\_")] *)
Definition escape_like_pattern (s : string) : string :=
  replace_char "_" "\_" (replace_char "%" "\%" s).

(** [max(min_val, min(max_val, value))] *)
Definition clamp_value (value min_val max_val : Z) : Z :=
  Z.max min_val (Z.min max_val value).

Record pagination := {
  pg_page : Z;
  pg_per_page : Z;
  pg_total : Z;
  pg_pages : Z;
  pg_has_prev : bool;
  pg_has_next : bool
}.

(** [paginate_query]; the query is the list of rows it yields, [count()]
    its length, [offset(n).limit(m).all()] the [m] rows after the first
    [n].  Python's integers have no bound, the store's have: the statement
    raises when the offset is above [max_offset], the largest the store
    takes, and the function has no [except]. *)
Definition paginate_query {A} (max_offset : Z) (query : list A)
    (page per_page : Z) : option (list A * pagination) :=
  let per_page := clamp_value per_page 1 1000 in
  let page := Z.max 1 page in
  let total := len query in
  if max_offset <? (page - 1) * per_page then None
  else
    let items :=
      take (Z.to_nat per_page) (drop (Z.to_nat ((page - 1) * per_page)) query) in
    Some (items,
          {| pg_page := page;
             pg_per_page := per_page;
             pg_total := total;
             pg_pages := (total + per_page - 1) / per_page;
             pg_has_prev := 1 <? page;
             pg_has_next := page * per_page <? total |}).

(** Deleting every character of a class, as [data.replace] does with the
    NUL character and [re.sub] with the class of the five characters
    less-than, greater-than, double quote, single quote and ampersand. *)
Fixpoint delete_chars (bad : ascii -> bool) (s : string) : string :=
  match s with
  | EmptyString => EmptyString
  | String c s' =>
      if bad c then delete_chars bad s' else String c (delete_chars bad s')
  end.

Definition is_nul (c : ascii) : bool := Ascii.eqb c "000".

Definition dangerous (c : ascii) : bool :=
  Ascii.eqb c "<" || Ascii.eqb c ">" || Ascii.eqb c "034"
  || Ascii.eqb c "'" || Ascii.eqb c "&".

Fixpoint has_gt (s : string) : bool :=
  match s with
  | EmptyString => false
  | String c s' => Ascii.eqb c ">" || has_gt s'
  end.

(** [re.sub] of the pattern [<[^>]*>] by the empty string: scanning from
    the left, a less-than sign that has a greater-than sign somewhere
    after it opens a match that runs to the first such sign; the match is
    dropped and the scan goes on behind it.  A less-than sign with no
    greater-than sign after it stays. *)
Fixpoint strip_tags_from (in_tag : bool) (s : string) : string :=
  match s with
  | EmptyString => EmptyString
  | String c s' =>
      if in_tag then
        if Ascii.eqb c ">" then strip_tags_from false s'
        else strip_tags_from true s'
      else if Ascii.eqb c "<" && has_gt s' then strip_tags_from true s'
      else String c (strip_tags_from false s')
  end.

Definition strip_tags (s : string) : string := strip_tags_from false s.

(** [str.isspace] on the code points below 256. *)
Definition is_space (c : ascii) : bool :=
  let n := N_of_ascii c in
  ((9 <=? n) && (n <=? 13) || (28 <=? n) && (n <=? 32)
   || (n =? 133) || (n =? 160))%N.

Fixpoint lstrip (s : string) : string :=
  match s with
  | EmptyString => EmptyString
  | String c s' => if is_space c then lstrip s' else s
  end.

Fixpoint rstrip (s : string) : string :=
  match s with
  | EmptyString => EmptyString
  | String c s' =>
      match rstrip s' with
      | EmptyString => if is_space c then EmptyString else String c EmptyString
      | r => String c r
      end
  end.

(** [data.strip()] *)
Definition strip (s : string) : string := lstrip (rstrip s).

Definition sanitize_str (data : string) : string :=
  strip (delete_chars dangerous (strip_tags (delete_chars is_nul data))).

(** [sanitize_input]: strings are cleaned, the values of a [dict] and the
    items of a [list] recursively, anything else is returned as it is. *)
Fixpoint sanitize_input (data : pyval) : pyval :=
  match data with
  | PStr s => PStr (sanitize_str s)
  | PDict d => PDict (map (λ kv, (fst kv, sanitize_input (snd kv))) d)
  | PList l => PList (map sanitize_input l)
  | _ => data
  end.

Definition is_none (v : pyval) : bool :=
  match v with PNone => true | _ => false end.

(** [v] is the empty string. *)
Definition is_empty_str (v : pyval) : bool :=
  match v with PStr EmptyString => true | _ => false end.

(** [field not in data], or [data[field]] is [None] or the empty string. *)
Definition field_missing (data : Dict.t pyval) (field : string) : bool :=
  match Dict.get data field with
  | None => true
  | Some v => is_none v || is_empty_str v
  end.

Definition validate_required_fields (data : Dict.t pyval)
    (required_fields : list string) : bool * option string :=
  let missing_fields := filter (λ f, field_missing data f) required_fields in
  match missing_fields with
  | [] => (true, None)
  | _ => (false,
          Some ("Missing required fields: " ++ String.concat ", " missing_fields)%string)
  end.

(** [clean_dict]: only a [dict] is cleaned, and of its values only those
    that are [dict]s themselves. *)
Fixpoint clean_dict (data : pyval) (remove_none remove_empty_strings : bool)
  : pyval :=
  match data with
  | PDict d =>
      PDict
        ((fix items (d : list (string * pyval)) : list (string * pyval) :=
            match d with
            | [] => []
            | kv :: d' =>
                if remove_none && is_none (snd kv) then items d'
                else if remove_empty_strings && is_empty_str (snd kv) then items d'
                else (fst kv,
                      match snd kv with
                      | PDict _ => clean_dict (snd kv) remove_none remove_empty_strings
                      | v => v
                      end) :: items d'
            end) d)
  | _ => data
  end.

End Helpers.

(** Vocabulary for the helper functions. *)

(** What is left of [s] behind the prefix [p], if [s] starts with [p]
    as the store compares characters. *)
Fixpoint after_prefix (co : Sql.collation) (p s : string) : option string :=
  match p, s with
  | EmptyString, _ => Some s
  | String _ _, EmptyString => None
  | String c p', String d s' =>
      if Sql.similar co c d then after_prefix co p' s' else None
  end.

Fixpoint all_chars (P : ascii -> bool) (s : string) : bool :=
  match s with
  | EmptyString => true
  | String c s' => P c && all_chars P s'
  end.

Definition no_backslash (s : string) : bool :=
  all_chars (λ c, negb (Ascii.eqb c "\")) s.

Definition harmless (c : ascii) : bool :=
  negb (Helpers.dangerous c) && negb (Helpers.is_nul c).

Definition starts_with_space (s : string) : bool :=
  match s with
  | EmptyString => false
  | String c _ => Helpers.is_space c
  end.

Fixpoint ends_with_space (s : string) : bool :=
  match s with
  | EmptyString => false
  | String c EmptyString => Helpers.is_space c
  | String _ s' => ends_with_space s'
  end.

(** The items of page [p] (counted from 1), if the call returns. *)
Definition page_items {A} (max_offset : Z) (query : list A) (per_page : Z)
    (p : nat) : option (list A) :=
  fst <$> Helpers.paginate_query max_offset query (Z.of_nat p) per_page.

(** A required field that is there and filled in. *)
Definition field_given (data : Dict.t Helpers.pyval) (field : string) : Prop :=
  exists v, Dict.get data field = Some v
            /\ v <> Helpers.PNone /\ v <> Helpers.PStr EmptyString.

Definition filled (v : Helpers.pyval) : Prop :=
  v <> Helpers.PNone /\ v <> Helpers.PStr EmptyString.

#[global] Instance filled_dec v : Decision (filled v).
Proof.
  unfold filled. destruct v as [| | | |[|c s]| |];
    solve [right; intros [? ?]; congruence | left; split; discriminate].
Defined.

#[global] Instance field_given_dec data field : Decision (field_given data field).
Proof.
  unfold field_given. destruct (Dict.get data field) as [v|].
  - destruct (decide (filled v)) as [Hv|Hv].
    + left. exists v. split; [reflexivity|exact Hv].
    + right. intros (v' & Heq & Hf). injection Heq as <-. exact (Hv Hf).
  - right. intros (v & Heq & _). discriminate Heq.
Defined.

(** The entries [clean_dict] keeps of a dictionary. *)
Definition clean_value (remove_none remove_empty_strings : bool)
    (v : Helpers.pyval) : Helpers.pyval :=
  match v with
  | Helpers.PDict _ => Helpers.clean_dict v remove_none remove_empty_strings
  | _ => v
  end.

Definition dropped (remove_none remove_empty_strings : bool)
    (v : Helpers.pyval) : bool :=
  remove_none && Helpers.is_none v
  || remove_empty_strings && Helpers.is_empty_str v.

Definition clean_items (remove_none remove_empty_strings : bool)
    (d : list (string * Helpers.pyval)) : list (string * Helpers.pyval) :=
  (λ kv, (kv.1, clean_value remove_none remove_empty_strings kv.2))
    <$> filter (λ kv, dropped remove_none remove_empty_strings kv.2 = false) d.

(** * The technique objects shared between the lists of the response

    The loop of [get_ultimate_matrix] builds one Python dict per technique
    and files that same dict under [all_techniques_dict] and in
    [parent_techniques] or in a list of [subtechniques_by_parent].  The
    last step of the handler writes the keys [subtechniques] and
    [subtechniques_count] into the dicts of [parent_techniques], so the
    entries of the [techniques] list change with them.  Here the dicts
    live in a store, in the order they are built, and the lists hold
    references into it. *)

Module Shared.

Abbreviation ref := nat (only parsing).

Record object := {
  fields : technique_obj;
  subtechniques : option (list ref);
  subtechniques_count : option Z
}.

(** The dict as the loop builds it: the two keys are not set. *)
Definition new_object (row : tech_row) : object :=
  {| fields := technique_object row;
     subtechniques := None;
     subtechniques_count := None |}.

Record loop_state := {
  store : list object;
  parent_techniques : list ref;
  subtechniques_by_parent : Dict.t (list ref);
  all_techniques_dict : Dict.t ref
}.

Definition loop_init : loop_state :=
  {| store := [];
     parent_techniques := [];
     subtechniques_by_parent := [];
     all_techniques_dict := [] |}.

Definition file (st : loop_state) (row : tech_row) : loop_state :=
  let technique_obj := length (store st) in
  let store' := (store st ++ [new_object row])%list in
  let aid := attack_id (row_t row) in
  let all' := Dict.set (all_techniques_dict st) aid technique_obj in
  if has_dot aid then
    let parent_id := before_dot aid in
    let subs := default [] (Dict.get (subtechniques_by_parent st) parent_id) in
    {| store := store';
       parent_techniques := parent_techniques st;
       subtechniques_by_parent :=
         Dict.set (subtechniques_by_parent st) parent_id
                  (subs ++ [technique_obj])%list;
       all_techniques_dict := all' |}
  else
    {| store := store';
       parent_techniques := (parent_techniques st ++ [technique_obj])%list;
       subtechniques_by_parent := subtechniques_by_parent st;
       all_techniques_dict := all' |}.

Definition loop_body (req : request) (st : loop_state) (row : tech_row)
  : option loop_state :=
  if skipped req row then Some st
  else
    match version_of (row_t row) with
    | None => None
    | Some _ => Some (file st row)
    end.

Fixpoint run_loop (req : request) (rows : list tech_row) (st : loop_state)
  : option loop_state :=
  match rows with
  | [] => Some st
  | row :: rows' =>
      match loop_body req st row with
      | None => None
      | Some st' => run_loop req rows' st'
      end
  end.

Definition process_techniques (req : request) (rows : list tech_row)
  : option loop_state :=
  run_loop req rows loop_init.

(** The loop body without the conversion that may raise. *)
Definition loop_step (req : request) (st : loop_state) (row : tech_row)
  : loop_state :=
  if skipped req row then st else file st row.

(** [parent_tech[subtechniques] = l] and
    [parent_tech[subtechniques_count] = len(l)] *)
Definition set_subtechniques (o : object) (l : list ref) : object :=
  {| fields := fields o;
     subtechniques := Some l;
     subtechniques_count := Some (len l) |}.

(** One turn of [for parent_tech in parent_techniques]; [technique_id]
    is the key that holds the [attack_id]. *)
Definition attach (subs : Dict.t (list ref)) (store : list object)
    (parent_tech : ref) : list object :=
  match store !! parent_tech with
  | None => store
  | Some o =>
      let parent_id := o_attack_id (fields o) in
      match Dict.get subs parent_id with
      | Some l => <[parent_tech := set_subtechniques o l]> store
      | None => <[parent_tech := set_subtechniques o []]> store
      end
  end.

Record matrix_data := {
  m_store : list object;
  m_techniques : list ref;
  m_parent_techniques : list ref;
  m_subtechniques_by_parent : option (Dict.t (list ref))
}.

(** The technique part of the response: the three collections and the
    store they point into, as it is when the response is written out. *)
Definition get_ultimate_matrix (db : database) (req : request) (w : world)
  : answer matrix_data :=
  if Sql.raises (server w) then ServerError
  else
    let techniques_raw := techniques_query (server w) db req in
    match process_techniques req techniques_raw with
    | None => ServerError
    | Some st =>
        let techniques_list := Dict.values (all_techniques_dict st) in
        let store' :=
          if include_subtechniques req
          then fold_left (attach (subtechniques_by_parent st))
                         (parent_techniques st) (store st)
          else store st in
        Ok {| m_store := store';
              m_techniques := techniques_list;
              m_parent_techniques := parent_techniques st;
              m_subtechniques_by_parent :=
                if include_subtechniques req
                then Some (subtechniques_by_parent st) else None |}
    end.

End Shared.

(** ** Vocabulary for the shared objects *)

(** The loop of the shared model when no conversion raises, and the
    data of its success response. *)
Definition shared_loop (req : request) (rows : list tech_row)
  : Shared.loop_state :=
  fold_left (Shared.loop_step req) rows Shared.loop_init.

Definition shared_success (db : database) (req : request) (w : world)
  : Shared.matrix_data :=
  let st := shared_loop req (techniques_query (server w) db req) in
  {| Shared.m_store :=
       if include_subtechniques req
       then fold_left (Shared.attach (Shared.subtechniques_by_parent st))
                      (Shared.parent_techniques st) (Shared.store st)
       else Shared.store st;
     Shared.m_techniques := Dict.values (Shared.all_techniques_dict st);
     Shared.m_parent_techniques := Shared.parent_techniques st;
     Shared.m_subtechniques_by_parent :=
       if include_subtechniques req
       then Some (Shared.subtechniques_by_parent st) else None |}.

(** The reference [r] leads to an object whose fields are [o]. *)
Definition points_to (store : list Shared.object) (r : Shared.ref)
    (o : technique_obj) : Prop :=
  Shared.fields <$> store !! r = Some o.

(** Two dictionaries with the same keys in the same order and related
    values. *)
Definition same_dict {A B} (R : A -> B -> Prop) (d : Dict.t A) (d' : Dict.t B)
  : Prop :=
  Forall2 (λ x y, x.1 = y.1 /\ R x.2 y.2) d d'.

(** The value model of the loop is what the references of the shared
    model lead to. *)
Definition flattens (s : Shared.loop_state) (st : loop_state) : Prop :=
  Forall2 (points_to (Shared.store s))
          (Shared.parent_techniques s) (parent_techniques st)
  /\ same_dict (Forall2 (points_to (Shared.store s)))
               (Shared.subtechniques_by_parent s) (subtechniques_by_parent st)
  /\ same_dict (points_to (Shared.store s))
               (Shared.all_techniques_dict s) (all_techniques_dict st).

(** The object carries neither of the two keys. *)
Definition bare (o : Shared.object) : Prop :=
  Shared.subtechniques o = None /\ Shared.subtechniques_count o = None.

(** The object carries the list filed under its identifier, the empty
    list if there is none, and the length of that list. *)
Definition carries (subs : Dict.t (list Shared.ref)) (o : Shared.object) : Prop :=
  let l := default [] (Dict.get subs (o_attack_id (Shared.fields o))) in
  Shared.subtechniques o = Some l /\ Shared.subtechniques_count o = Some (len l).

(** The reference leads to an object without a dot in its identifier. *)
Definition is_parent (store : list Shared.object) (r : Shared.ref) : bool :=
  match store !! r with
  | Some o => negb (has_dot (o_attack_id (Shared.fields o)))
  | None => false
  end.

(** What [attach] makes of an object. *)
Definition attached (subs : Dict.t (list Shared.ref)) (o : Shared.object)
  : Shared.object :=
  Shared.set_subtechniques o
    (default [] (Dict.get subs (o_attack_id (Shared.fields o)))).

(** Every reference of the loop state leads somewhere: the parents to
    objects without a dot, the entries of [subtechniques_by_parent] to
    objects with a dot, filed under the part before it; no object
    carries the two keys yet. *)
Definition well_filed (s : Shared.loop_state) : Prop :=
  (forall r, r ∈ Shared.parent_techniques s ->
     exists o, Shared.store s !! r = Some o
               /\ has_dot (o_attack_id (Shared.fields o)) = false)
  /\ (forall k l r, (k, l) ∈ Shared.subtechniques_by_parent s -> r ∈ l ->
        exists o, Shared.store s !! r = Some o
                  /\ has_dot (o_attack_id (Shared.fields o)) = true
                  /\ before_dot (o_attack_id (Shared.fields o)) = k)
  /\ (forall r, r ∈ Dict.values (Shared.all_techniques_dict s) ->
        (r < length (Shared.store s))%nat)
  /\ Forall bare (Shared.store s).

(** * Properties *)

(** ** Lists, sorting and DISTINCT counts *)

Section sql_facts.
Context {R V : Type} `{EqDecision V}.
Implicit Types (e : R -> option V) (rows : list R).

Lemma count_distinct_nonneg e rows : 0 <= Sql.count_distinct e rows.
Proof. unfold Sql.count_distinct. lia. Qed.

(** When the non-NULL values of [e] over the group are exactly the
    members of a duplicate-free list, the count is that list's length. *)
Lemma count_distinct_exact e rows (ids : list V) :
  NoDup ids ->
  (forall x, x ∈ omap e rows <-> x ∈ ids) ->
  Sql.count_distinct e rows = len ids.
Proof.
  intros Hnd Hiff. unfold Sql.count_distinct, len. f_equal.
  apply Permutation_length, NoDup_Permutation; auto using NoDup_remove_dups.
  intros x. rewrite elem_of_remove_dups. apply Hiff.
Qed.

Lemma count_distinct_mono e1 e2 rows :
  (forall x, x ∈ omap e1 rows -> x ∈ omap e2 rows) ->
  Sql.count_distinct e1 rows <= Sql.count_distinct e2 rows.
Proof.
  intros Hsub. unfold Sql.count_distinct.
  apply inj_le, submseteq_length, NoDup_submseteq.
  - apply NoDup_remove_dups.
  - intros x. rewrite !elem_of_remove_dups. apply Hsub.
Qed.

Lemma count_distinct_null e rows :
  (forall r, r ∈ rows -> e r = None) -> Sql.count_distinct e rows = 0.
Proof.
  intros Hnull. rewrite (count_distinct_exact e rows []).
  - reflexivity.
  - constructor.
  - intros x. rewrite list_elem_of_omap. split.
    + intros (r & Hr & He). rewrite (Hnull r Hr) in He. discriminate.
    + inversion 1.
Qed.
End sql_facts.

Lemma insert_by_perm {A} (le : A -> A -> bool) x l :
  Sql.insert_by le x l ≡ₚ x :: l.
Proof.
  induction l as [|y l IH]; simpl; [done|].
  destruct (le x y); [done|]. rewrite IH. apply Permutation_swap.
Qed.

Lemma order_by_perm {A} sv (le : A -> A -> bool) l : Sql.order_by sv le l ≡ₚ l.
Proof.
  unfold Sql.order_by. rewrite <- (Sql.enumerate_perm sv A l) at 2.
  induction (Sql.enumerate sv A l) as [|x l' IH]; simpl; [done|].
  rewrite insert_by_perm. by constructor.
Qed.

Lemma elem_of_order_by {A} sv (le : A -> A -> bool) l x :
  x ∈ Sql.order_by sv le l <-> x ∈ l.
Proof. by rewrite order_by_perm. Qed.

Lemma elem_of_left_join {A} (l : list A) (o : option A) :
  o ∈ Sql.left_join l <-> (o = None /\ l = []) \/ (exists x, o = Some x /\ x ∈ l).
Proof.
  unfold Sql.left_join. destruct l as [|y l].
  - rewrite list_elem_of_singleton. split.
    + intros ->. by left.
    + intros [[-> _]|(x & _ & Hx)]; [done|inversion Hx].
  - rewrite list_elem_of_fmap. split.
    + intros (x & -> & Hx). right. eauto.
    + intros [[_ ?]|(x & -> & Hx)]; [done|eauto].
Qed.

Lemma left_join_inhabited {A} (l : list A) : exists o, o ∈ Sql.left_join l.
Proof.
  destruct l as [|y l]; simpl.
  - exists None. by left.
  - exists (Some y). by left.
Qed.

Lemma NoDup_fmap_filter {A B} (f : A -> B) (P : A -> Prop)
    `{!forall x, Decision (P x)} (l : list A) :
  NoDup (f <$> l) -> NoDup (f <$> filter P l).
Proof.
  intros Hnd. apply (sublist_NoDup _ _ Hnd), fmap_sublist, sublist_filter.
Qed.

(** ** Collations *)

Lemma eqb_weight c a b : Sql.eqb c a b = true <-> Sql.weight c a = Sql.weight c b.
Proof. unfold Sql.eqb. apply String.eqb_eq. Qed.

Lemma eqb_refl c a : Sql.eqb c a a = true.
Proof. by apply eqb_weight. Qed.

Lemma eqb_sym c a b : Sql.eqb c a b = Sql.eqb c b a.
Proof. unfold Sql.eqb. apply String.eqb_sym. Qed.

Lemma folded_binary s : Sql.folded Sql.binary s = s.
Proof. induction s as [|a s IH]; [done|]. cbn. f_equal. exact IH. Qed.

Lemma folded_cons c x s :
  Sql.folded c (String x s) = String (Sql.fold c x) (Sql.folded c s).
Proof. reflexivity. Qed.

Lemma folded_app c a b :
  Sql.folded c (a ++ b) = (Sql.folded c a ++ Sql.folded c b)%string.
Proof.
  induction a as [|x a IH]; [done|].
  change (String x a ++ b)%string with (String x (a ++ b)).
  rewrite !folded_cons, IH. reflexivity.
Qed.

Lemma similar_fold c a b : Sql.similar c a b = Ascii.eqb (Sql.fold c a) (Sql.fold c b).
Proof. reflexivity. Qed.

(** No status of the ENUM is taken for [deleted]. *)
Lemma status_not_deleted c s : Sql.eqb c (status_name s) "deleted" = false.
Proof.
  apply not_true_is_false. rewrite eqb_weight. intros H.
  apply Sql.weight_words in H; [by destruct s|by destruct s|reflexivity].
Qed.

(** ** LIKE patterns *)

Lemma like_star c p s :
  Sql.like c (String "%" p) s
  = Sql.like c p s
    || match s with
       | EmptyString => false
       | String _ s' => Sql.like c (String "%" p) s'
       end.
Proof. destruct s; reflexivity. Qed.

Lemma like_literal c x p s :
  wildcard x = false ->
  Sql.like c (String x p) s
  = match s with
    | EmptyString => false
    | String d s' => Sql.similar c x d && Sql.like c p s'
    end.
Proof.
  unfold wildcard. intros Hc.
  apply orb_false_elim in Hc as [Hc H3]. apply orb_false_elim in Hc as [H1 H2].
  cbn [Sql.like]. rewrite H1, H2, H3. reflexivity.
Qed.

Lemma like_any c s : Sql.like c "%" s = true.
Proof.
  induction s as [|x s IH]; [reflexivity|].
  rewrite like_star, IH. apply orb_true_r.
Qed.

(** [LIKE '%.%']: some character is of the class of the dot. *)
Lemma like_has_dot c s :
  Sql.like c "%.%" s = has_char (Sql.fold c ".") (Sql.folded c s).
Proof.
  induction s as [|x s IH]; [reflexivity|].
  rewrite like_star, IH, like_literal by reflexivity.
  rewrite like_any, andb_true_r. cbn. unfold Sql.similar.
  by rewrite Ascii.eqb_sym.
Qed.

Lemma has_dot_like c s : has_dot s = true -> Sql.like c "%.%" s = true.
Proof.
  rewrite like_has_dot. induction s as [|x s IH]; [done|].
  rewrite folded_cons. cbn -[Sql.folded].
  destruct (Ascii.eqb_spec x ".") as [->|_]; cbn -[Sql.folded].
  - by rewrite Ascii.eqb_refl.
  - intros H. rewrite (IH H). apply orb_true_r.
Qed.

Lemma prefix_nil s : String.prefix EmptyString s = true.
Proof. by destruct s. Qed.

Lemma prefix_cons c p d s :
  String.prefix (String c p) (String d s) = Ascii.eqb c d && String.prefix p s.
Proof.
  simpl. destruct (Ascii.ascii_dec c d) as [->|Hne].
  - by rewrite Ascii.eqb_refl.
  - apply Ascii.eqb_neq in Hne. by rewrite Hne.
Qed.

(** For an identifier without wildcard characters the roll-up pattern
    is a prefix test on the classes of the characters. *)
Lemma like_plain_prefix c id s :
  plain id = true ->
  Sql.like c (id ++ ".%") s
  = String.prefix (Sql.folded c (id ++ ".")) (Sql.folded c s).
Proof.
  revert s. induction id as [|x id IH]; intros s Hp.
  - change (EmptyString ++ ".%")%string with ".%".
    change (EmptyString ++ ".")%string with ".".
    rewrite like_literal by reflexivity. destruct s as [|d s]; [reflexivity|].
    rewrite !folded_cons. by rewrite prefix_cons, like_any, prefix_nil.
  - simpl in Hp. apply andb_prop in Hp as [Hc Hp].
    apply negb_true_iff in Hc.
    change (String x id ++ ".%")%string with (String x (id ++ ".%")).
    change (String x id ++ ".")%string with (String x (id ++ ".")).
    rewrite like_literal by done. destruct s as [|d s]; [reflexivity|].
    rewrite !folded_cons. by rewrite prefix_cons, IH.
Qed.

(** ** The joined rows of a technique *)

Lemma own_on_spec c t r : own_on c t r <-> rule_of c (attack_id t) r.
Proof.
  unfold own_on, rule_of. rewrite Is_true_true, eqb_weight. split; congruence.
Qed.

Lemma not_deleted_some c r : not_deleted c (Some r) = Some true.
Proof.
  unfold not_deleted, Sql.ne_str, Sql.eq_str. cbn.
  by rewrite status_not_deleted.
Qed.

Lemma active_not_deleted_spec c r :
  Sql.holds (active_not_deleted c (Some r)) = true <-> rule_live r.
Proof.
  unfold active_not_deleted, rule_live. rewrite not_deleted_some.
  unfold Sql.is1. cbn. split.
  - destruct (r_active r) as [[]|]; try done. intros _. split; [done|].
    by destruct (r_status r).
  - intros [-> _]. done.
Qed.

Lemma elem_of_technique_joins db t j :
  j ∈ technique_joins db t <->
  j_tt j ∈ filter (λ tt, Sql.eqb (collation db) (t_id t) (tt_technique_id tt))
                  (technique_tactics db)
  /\ j_tac j ∈ filter (λ tac, Sql.eqb (collation db) (tt_tactic_id (j_tt j)) (tac_id tac))
                      (tactics db)
  /\ cr_own j ∈ Sql.left_join (filter (λ r, own_on (collation db) t r)
                                      (correlation_rules db))
  /\ cr_sub j ∈ Sql.left_join (filter (λ r, sub_on (collation db) t r)
                                      (correlation_rules db))
  /\ j_c j ∈ Sql.left_join (filter (λ cm, comment_on (collation db) t cm)
                                   (comments db)).
Proof.
  unfold technique_joins. split.
  - intros H.
    apply list_elem_of_bind in H as (tt & H & Htt).
    apply list_elem_of_bind in H as (tac & H & Htac).
    apply list_elem_of_bind in H as (own & H & Hown).
    apply list_elem_of_bind in H as (sub & H & Hsub).
    apply list_elem_of_bind in H as (cm & H & Hc).
    apply list_elem_of_singleton in H. by subst j.
  - destruct j as [tt tac own sub cm]. simpl. intros (Htt & Htac & Hown & Hsub & Hc).
    apply list_elem_of_bind. exists tt. split; [|done].
    apply list_elem_of_bind. exists tac. split; [|done].
    apply list_elem_of_bind. exists own. split; [|done].
    apply list_elem_of_bind. exists sub. split; [|done].
    apply list_elem_of_bind. exists cm. split; [|done].
    by apply list_elem_of_singleton.
Qed.

Lemma elem_of_group_rows db req t j :
  j ∈ group_rows db req t <->
  j ∈ technique_joins db t /\ Sql.holds (where_clause db req t j) = true.
Proof.
  unfold group_rows. rewrite list_elem_of_filter, Is_true_true. tauto.
Qed.

(** The WHERE clause reads no rule column, so a group holds every rule
    that the join condition pairs with its technique. *)
Lemma group_rows_with_own db req t j own :
  j ∈ group_rows db req t ->
  own ∈ Sql.left_join (filter (λ r, own_on (collation db) t r) (correlation_rules db)) ->
  with_own j own ∈ group_rows db req t.
Proof.
  rewrite !elem_of_group_rows, !elem_of_technique_joins. simpl. tauto.
Qed.

Lemma group_rows_with_sub db req t j sub :
  j ∈ group_rows db req t ->
  sub ∈ Sql.left_join (filter (λ r, sub_on (collation db) t r) (correlation_rules db)) ->
  with_sub j sub ∈ group_rows db req t.
Proof.
  rewrite !elem_of_group_rows, !elem_of_technique_joins. simpl. tauto.
Qed.

Lemma nonempty_elem {A} (l : list A) : l <> [] -> exists x, x ∈ l.
Proof. destruct l as [|x l]; [done|]. exists x. by left. Qed.

(** The values of an expression over [cr_own] within a group. *)
Lemma group_own_values db req t (g : option rule -> option string) x :
  g None = None ->
  group_rows db req t <> [] ->
  x ∈ omap (λ j, g (cr_own j)) (group_rows db req t) <->
  exists r, r ∈ correlation_rules db /\ own_on (collation db) t r /\ g (Some r) = Some x.
Proof.
  intros Hnull Hne. rewrite list_elem_of_omap. split.
  - intros (j & Hj & Hg).
    apply elem_of_group_rows in Hj as [Hj _].
    apply elem_of_technique_joins in Hj as (_ & _ & Hown & _).
    apply elem_of_left_join in Hown as [[Hnone _]|(r & Hsome & Hr)].
    + rewrite Hnone, Hnull in Hg. discriminate.
    + apply list_elem_of_filter in Hr as [? ?]. exists r. by rewrite <- Hsome.
  - intros (r & Hr & Hon & Hg).
    destruct (nonempty_elem _ Hne) as [j0 Hj0].
    exists (with_own j0 (Some r)). split; [|done].
    apply group_rows_with_own; [done|].
    apply elem_of_left_join. right. exists r. split; [done|].
    by apply list_elem_of_filter.
Qed.

Lemma group_sub_values db req t (g : option rule -> option string) x :
  g None = None ->
  group_rows db req t <> [] ->
  x ∈ omap (λ j, g (cr_sub j)) (group_rows db req t) <->
  exists r, r ∈ correlation_rules db /\ sub_on (collation db) t r /\ g (Some r) = Some x.
Proof.
  intros Hnull Hne. rewrite list_elem_of_omap. split.
  - intros (j & Hj & Hg).
    apply elem_of_group_rows in Hj as [Hj _].
    apply elem_of_technique_joins in Hj as (_ & _ & _ & Hsub & _).
    apply elem_of_left_join in Hsub as [[Hnone _]|(r & Hsome & Hr)].
    + rewrite Hnone, Hnull in Hg. discriminate.
    + apply list_elem_of_filter in Hr as [? ?]. exists r. by rewrite <- Hsome.
  - intros (r & Hr & Hon & Hg).
    destruct (nonempty_elem _ Hne) as [j0 Hj0].
    exists (with_sub j0 (Some r)). split; [|done].
    apply group_rows_with_sub; [done|].
    apply elem_of_left_join. right. exists r. split; [done|].
    by apply list_elem_of_filter.
Qed.

(** ** Rule counts of a group *)

Lemma elem_of_omap_key {R} c (e : R -> option string) (rows : list R) x :
  x ∈ omap (Sql.key c e) rows <-> exists y, y ∈ omap e rows /\ x = Sql.weight c y.
Proof.
  rewrite list_elem_of_omap. setoid_rewrite list_elem_of_omap.
  unfold Sql.key. split.
  - intros (r & Hr & He). destruct (e r) as [y|] eqn:Hy; [|done].
    injection He as <-. eauto.
  - intros (y & (r & Hr & He) & ->). exists r. by rewrite He.
Qed.

Lemma count_rules_by {R} c (e : R -> option string) (rows : list R)
    (rules : list rule) (Q : rule -> Prop) `{!forall r, Decision (Q r)} :
  NoDup (Sql.weight c ∘ r_id <$> rules) ->
  (forall x, x ∈ omap e rows <-> exists r, r ∈ rules /\ Q r /\ x = r_id r) ->
  Sql.count_distinct (Sql.key c e) rows = len (filter Q rules).
Proof.
  intros Hpk Hiff.
  rewrite (count_distinct_exact _ rows (Sql.weight c ∘ r_id <$> filter Q rules)).
  - unfold len. by rewrite length_fmap.
  - by apply NoDup_fmap_filter.
  - intros x. rewrite elem_of_omap_key, list_elem_of_fmap.
    setoid_rewrite Hiff. setoid_rewrite list_elem_of_filter. naive_solver.
Qed.

Section group_counts.
Variables (db : database) (req : request) (t : technique).
Hypothesis rules_pk : rule_ids_unique db.
Hypothesis has_group : group_rows db req t <> [].

Local Abbreviation c := (collation db).
Let rows := group_rows db req t.
Let rules := correlation_rules db.

Lemma own_total_count :
  Sql.count_distinct (Sql.key c own_id) rows
  = len (filter (rule_of c (attack_id t)) rules).
Proof.
  apply count_rules_by; [done|]. intros x.
  unfold rows, own_id. rewrite (group_own_values db req t (fmap r_id)) by done.
  setoid_rewrite own_on_spec. simpl. naive_solver.
Qed.

Lemma own_active_count :
  Sql.count_distinct (Sql.key c (own_active_id c)) rows
  = len (filter (λ r, rule_of c (attack_id t) r /\ rule_live r) rules).
Proof.
  apply count_rules_by; [done|]. intros x. unfold rows, own_active_id, own_id.
  rewrite (group_own_values db req t
             (λ o, Sql.case_when (active_not_deleted c o) (r_id <$> o))) by done.
  setoid_rewrite own_on_spec. unfold Sql.case_when. split.
  - intros (r & Hr & Hof & Hg). exists r.
    destruct (Sql.holds _) eqn:Hlive; [|done].
    apply active_not_deleted_spec in Hlive. simpl in Hg. naive_solver.
  - intros (r & Hr & [Hof Hlive] & ->). exists r.
    apply (proj2 (active_not_deleted_spec c r)) in Hlive. by rewrite Hlive.
Qed.

(** A sub-technique has no roll-up: its [cr_sub] side is all NULL. *)
Lemma sub_side_null j :
  Sql.like c "%.%" (attack_id t) = true -> j ∈ rows -> cr_sub j = None.
Proof.
  intros Hdot Hj.
  apply elem_of_group_rows in Hj as [Hj _].
  apply elem_of_technique_joins in Hj as (_ & _ & _ & Hsub & _).
  apply elem_of_left_join in Hsub as [[? _]|(r & _ & Hr)]; [done|].
  apply list_elem_of_filter in Hr as [Hon _]. unfold sub_on in Hon.
  rewrite Hdot, andb_false_r in Hon. done.
Qed.

Lemma sub_total_child :
  Sql.like c "%.%" (attack_id t) = true ->
  Sql.count_distinct (Sql.key c sub_id) rows = 0.
Proof.
  intros Hdot. apply count_distinct_null. intros j Hj.
  unfold Sql.key, sub_id. by rewrite (sub_side_null j).
Qed.

Lemma sub_active_child :
  Sql.like c "%.%" (attack_id t) = true ->
  Sql.count_distinct (Sql.key c (sub_active_id c)) rows = 0.
Proof.
  intros Hdot. apply count_distinct_null. intros j Hj.
  unfold Sql.key, sub_active_id, sub_id. rewrite (sub_side_null j) by done.
  reflexivity.
Qed.

Lemma sub_on_parent r :
  Sql.like c "%.%" (attack_id t) = false -> plain (attack_id t) = true ->
  sub_on c t r <-> rule_under c (attack_id t) r.
Proof.
  intros Hdot Hplain. unfold sub_on, rule_under.
  rewrite Hdot, andb_true_r, like_plain_prefix by done.
  apply Is_true_true.
Qed.

Lemma sub_total_parent :
  Sql.like c "%.%" (attack_id t) = false -> plain (attack_id t) = true ->
  Sql.count_distinct (Sql.key c sub_id) rows
  = len (filter (rule_under c (attack_id t)) rules).
Proof.
  intros Hdot Hplain. apply count_rules_by; [done|]. intros x.
  unfold rows, sub_id. rewrite (group_sub_values db req t (fmap r_id)) by done.
  setoid_rewrite sub_on_parent; [|done..]. simpl. naive_solver.
Qed.

Lemma sub_active_parent :
  Sql.like c "%.%" (attack_id t) = false -> plain (attack_id t) = true ->
  Sql.count_distinct (Sql.key c (sub_active_id c)) rows
  = len (filter (λ r, rule_under c (attack_id t) r /\ rule_live r) rules).
Proof.
  intros Hdot Hplain. apply count_rules_by; [done|]. intros x.
  unfold rows, sub_active_id, sub_id.
  rewrite (group_sub_values db req t
             (λ o, Sql.case_when (active_not_deleted c o) (r_id <$> o))) by done.
  setoid_rewrite sub_on_parent; [|done..]. unfold Sql.case_when. split.
  - intros (r & Hr & Hof & Hg). exists r.
    destruct (Sql.holds _) eqn:Hlive; [|done].
    apply active_not_deleted_spec in Hlive. simpl in Hg. naive_solver.
  - intros (r & Hr & [Hof Hlive] & ->). exists r.
    apply (proj2 (active_not_deleted_spec c r)) in Hlive. by rewrite Hlive.
Qed.
End group_counts.

(** ** The handler and its error branch *)

Lemma run_loop_step req rows st st' :
  run_loop req rows st = Some st' -> st' = fold_left (loop_step req) rows st.
Proof.
  revert st. induction rows as [|row rows IH]; intros st; cbn [run_loop fold_left].
  - by intros [= <-].
  - unfold loop_body, loop_step. destruct (skipped req row); [apply IH|].
    destruct (version_of (row_t row)); [apply IH|done].
Qed.

Lemma run_loop_versions req rows st :
  is_Some (run_loop req rows st) <-> versions_ok req rows = true.
Proof.
  revert st. induction rows as [|row rows IH]; intros st.
  - cbn. split; [done|by eexists].
  - cbn [run_loop]. unfold versions_ok. cbn [forallb].
    change (forallb _ rows) with (versions_ok req rows).
    unfold loop_body. destruct (skipped req row); cbn [orb andb]; [apply IH|].
    destruct (version_of (row_t row)) as [v|].
    + rewrite bool_decide_eq_true_2 by by eexists. apply IH.
    + rewrite bool_decide_eq_false_2 by by intros [? ?].
      cbn. split; [by intros [? ?]|done].
Qed.

(** When the handler answers with a matrix, it is the matrix of the
    success path. *)
Lemma answers_success db req w m :
  answers db req w m -> m = matrix_success db req w.
Proof.
  unfold answers, get_ultimate_matrix, process_techniques.
  destruct (Sql.raises (server w)); [done|].
  destruct (run_loop _ _ _) as [st|] eqn:Hrun; [|done].
  apply run_loop_step in Hrun as ->. by intros [= <-].
Qed.

(** The handler answers unless the server raises or a version of a kept
    row is no number. *)
Lemma answers_iff db req w :
  answers db req w (matrix_success db req w) <->
  Sql.raises (server w) = false
  /\ versions_ok req (techniques_query (server w) db req) = true.
Proof.
  unfold answers, get_ultimate_matrix, process_techniques.
  rewrite <- (run_loop_versions req _ loop_init).
  destruct (Sql.raises (server w)).
  - split; [done|]. by intros [? _].
  - destruct (run_loop _ _ _) as [st|] eqn:Hrun; cbn.
    + apply run_loop_step in Hrun as ->. split; [|done]. split; [done|by eexists].
    + split; [done|]. by intros [_ [? ?]].
Qed.

(** ** From the response back to the result rows *)

Lemma elem_of_techniques_query sv db req row :
  row ∈ techniques_query sv db req <->
  exists t, t ∈ techniques db /\ group_rows db req t <> []
            /\ row = aggregate (collation db) t (group_rows db req t).
Proof.
  unfold techniques_query. rewrite elem_of_order_by, list_elem_of_bind.
  unfold technique_group. split.
  - intros (t & Hrow & Ht). exists t. destruct (group_rows db req t) eqn:E.
    + inversion Hrow.
    + apply list_elem_of_singleton in Hrow. done.
  - intros (t & Ht & Hne & ->). exists t. split; [|done].
    destruct (group_rows db req t); [done|]. by apply list_elem_of_singleton.
Qed.

Lemma dict_set_values {V} (d : Dict.t V) k v x :
  x ∈ Dict.values (Dict.set d k v) -> x = v \/ x ∈ Dict.values d.
Proof.
  unfold Dict.values. induction d as [|[k' v'] d IH]; simpl.
  - rewrite list_elem_of_singleton. tauto.
  - destruct (String.eqb k' k); simpl; rewrite !elem_of_cons; naive_solver.
Qed.

Lemma loop_values req rows st obj :
  obj ∈ Dict.values (all_techniques_dict (fold_left (loop_step req) rows st)) ->
  obj ∈ Dict.values (all_techniques_dict st)
  \/ exists row, row ∈ rows /\ skipped req row = false /\ obj = technique_object row.
Proof.
  revert st. induction rows as [|row rows IH]; intros st; simpl; [tauto|].
  intros H. apply IH in H as [H|(row' & ? & ? & ?)].
  - unfold loop_step, file in H. destruct (skipped req row) eqn:Hskip; [tauto|].
    assert (obj ∈ Dict.values
              (Dict.set (all_techniques_dict st) (attack_id (row_t row))
                        (technique_object row))) as Hset
      by (by destruct (has_dot _)).
    apply dict_set_values in Hset as [->|?]; [|tauto].
    right. exists row. split; [by left|done].
  - right. exists row'. split; [by right|done].
Qed.

(** Every technique object of the response is built from the group of one
    technique row. *)
Lemma output_technique db req w obj :
  obj ∈ m_techniques (matrix_success db req w) ->
  exists t, t ∈ techniques db /\ group_rows db req t <> []
            /\ obj = technique_object
                       (aggregate (collation db) t (group_rows db req t)).
Proof.
  simpl. intros H.
  apply loop_values in H as [H|(row & Hrow & _ & ->)]; [inversion H|].
  apply elem_of_techniques_query in Hrow as (t & ? & ? & ->). eauto.
Qed.

(** The scenario of the T1505 roll-up. *)
Example webshell_rollup :
  Sample.technique_summaries Sample.webshell
  = Some
    [("T1505", 2, 2, {| critical := 0; high := 2; medium := 0; low := 0 |}, "basic");
     ("T1505.001", 2, 2, {| critical := 0; high := 2; medium := 0; low := 0 |}, "basic");
     ("T1505.002", 0, 0, {| critical := 0; high := 0; medium := 0; low := 0 |}, "none")].
Proof. vm_compute. reflexivity. Qed.

(** ** Per-technique coverage *)

(** Where the roll-up is right: for every technique object of the
    response whose identifier holds no character of the weight of the dot
    and no [LIKE] wildcard, and with the rule identifiers being a key of
    their table, [total_rules] is the number of rules attached to the
    identifier itself plus the number of rules whose [technique_id] starts
    with the identifier followed by ".", and [active_rules] is the like sum
    over the rules that are active. *)
Theorem parent_rollup_counts db req w m obj :
  answers db req w m ->
  rule_ids_unique db ->
  obj ∈ m_techniques m ->
  Sql.like (collation db) "%.%" (o_attack_id obj) = false ->
  plain (o_attack_id obj) = true ->
  total_rules (o_coverage obj)
  = len (filter (rule_of (collation db) (o_attack_id obj)) (correlation_rules db))
    + len (filter (rule_under (collation db) (o_attack_id obj)) (correlation_rules db))
  /\ active_rules (o_coverage obj)
     = len (filter (λ r, rule_of (collation db) (o_attack_id obj) r /\ rule_live r)
                   (correlation_rules db))
       + len (filter (λ r, rule_under (collation db) (o_attack_id obj) r /\ rule_live r)
                     (correlation_rules db)).
Proof.
  intros Ha Hpk Hobj Hdot Hplain. apply answers_success in Ha as ->.
  apply output_technique in Hobj as (t & _ & Hne & ->). simpl in *.
  rewrite own_total_count, own_active_count by done.
  rewrite sub_total_parent, sub_active_parent by done.
  done.
Qed.

Lemma parent_rollup_counts_witness :
  let obj := Sample2.object_of Sample.webshell Sample.all_of
               (Sample.tech "u1" "T1505" false) in
  total_rules (o_coverage obj)
  = len (filter (rule_of Sql.ascii_ci "T1505") (correlation_rules Sample.webshell))
    + len (filter (rule_under Sql.ascii_ci "T1505") (correlation_rules Sample.webshell))
  /\ active_rules (o_coverage obj)
     = len (filter (λ r, rule_of Sql.ascii_ci "T1505" r /\ rule_live r)
                   (correlation_rules Sample.webshell))
       + len (filter (λ r, rule_under Sql.ascii_ci "T1505" r /\ rule_live r)
                     (correlation_rules Sample.webshell)).
Proof.
  apply (parent_rollup_counts Sample.webshell Sample.all_of Sample.at_noon
           (matrix_success Sample.webshell Sample.all_of Sample.at_noon)).
  - vm_compute. reflexivity.
  - by_evaluation.
  - by_evaluation.
  - reflexivity.
  - reflexivity.
Defined.

(** C1 fails on an identifier that holds a wildcard: the technique T%
    has no dot in its identifier, no rule is attached to T% and none to
    an identifier starting with T% and a dot, yet the pattern that the
    statement builds from the identifier matches the rule of T1078.001 and
    the response reports one rule.  The join is the one that the statement
    itself marks as the join for the rules of the sub-techniques; the
    identifier goes into the pattern as it is, without
    [escape_like_pattern]. *)
Theorem parent_rollup_wildcard :
  exists m obj,
    answers Sample.wildcard_id Sample.all_of Sample.at_noon m
    /\ rule_ids_unique Sample.wildcard_id
    /\ obj ∈ m_techniques m
    /\ o_attack_id obj = "T%"
    /\ has_dot (o_attack_id obj) = false
    /\ total_rules (o_coverage obj) = 1
    /\ len (filter (rule_of Sql.ascii_ci (o_attack_id obj))
                   (correlation_rules Sample.wildcard_id))
       + len (filter (rule_under Sql.ascii_ci (o_attack_id obj))
                     (correlation_rules Sample.wildcard_id))
       = 0.
Proof.
  eexists _, _. split; [vm_compute; reflexivity|].
  split; [by_evaluation|]. split.
  - apply list_elem_of_here.
  - vm_compute. done.
Qed.

(** C6: for every technique object of the response whose identifier holds
    a ".", with the rule identifiers being a key of their table,
    [total_rules] is the number of rules whose [technique_id] is the
    object's own identifier, as the store compares identifiers, and
    nothing is rolled up into it. *)
Theorem subtechnique_counts_own_rules_only db req w m obj :
  answers db req w m ->
  rule_ids_unique db ->
  obj ∈ m_techniques m ->
  has_dot (o_attack_id obj) = true ->
  total_rules (o_coverage obj)
  = len (filter (rule_of (collation db) (o_attack_id obj)) (correlation_rules db))
  /\ sub_rules (o_coverage obj) = 0.
Proof.
  intros Ha Hpk Hobj Hdot. apply answers_success in Ha as ->.
  apply output_technique in Hobj as (t & _ & Hne & ->). simpl in *.
  rewrite own_total_count, sub_total_child by (try apply has_dot_like; done).
  split; [lia|done].
Qed.

Lemma subtechnique_counts_own_rules_only_witness :
  let obj := Sample2.object_of Sample.own_and_sub Sample.all_of
               (Sample.tech "u2" "T1059.001" false) in
  total_rules (o_coverage obj)
  = len (filter (rule_of Sql.ascii_ci "T1059.001")
                (correlation_rules Sample.own_and_sub))
  /\ sub_rules (o_coverage obj) = 0.
Proof.
  apply (subtechnique_counts_own_rules_only
           Sample.own_and_sub Sample.all_of Sample.at_noon
           (matrix_success Sample.own_and_sub Sample.all_of Sample.at_noon)).
  - vm_compute. reflexivity.
  - by_evaluation.
  - by_evaluation.
  - reflexivity.
Defined.

(** Which rules are joined to a technique is the collation's: the rule
    written t1059 with a space at its end is a rule of T1059 where the
    store compares without regard to case and leaves out the spaces at
    the end, and is not where it compares the bytes. *)
Example rules_joined_under_collation :
  (λ db, Sample.technique_summaries db)
    <$> [Sample.under Sql.ascii_ci_pad Sample.loosely_written;
         Sample.under Sql.ascii_ci Sample.loosely_written;
         Sample.under Sql.binary Sample.loosely_written]
  = [Some [("T1059", 1, 1,
            {| critical := 0; high := 1; medium := 0; low := 0 |}, "basic")];
     Some [("T1059", 0, 0,
            {| critical := 0; high := 0; medium := 0; low := 0 |}, "none")];
     Some [("T1059", 0, 0,
            {| critical := 0; high := 0; medium := 0; low := 0 |}, "none")]].
Proof. vm_compute. reflexivity. Qed.

Lemma aggregate_counts_nonneg c t rows :
  0 <= own_active_rules (aggregate c t rows)
  /\ 0 <= sub_active_rules (aggregate c t rows).
Proof. split; apply count_distinct_nonneg. Qed.

Lemma level_of_cases a :
  0 <= a ->
  (level_name (level_of a) = "excellent" <-> 5 <= a)
  /\ (level_name (level_of a) = "good" <-> a = 3 \/ a = 4)
  /\ (level_name (level_of a) = "basic" <-> a = 1 \/ a = 2)
  /\ (level_name (level_of a) = "none" <-> a = 0).
Proof.
  intros Ha. unfold level_of.
  destruct (Z.leb_spec 5 a); [simpl; repeat split; (lia || discriminate)|].
  destruct (Z.leb_spec 3 a); [simpl; repeat split; (lia || discriminate)|].
  destruct (Z.leb_spec 1 a); simpl; repeat split; (lia || discriminate).
Qed.

(** C5: for every technique object of the response, [coverage_level] is
    "excellent" exactly when [active_rules >= 5], "good" exactly when it is
    3 or 4, "basic" exactly when it is 1 or 2, and "none" exactly when it
    is 0. *)
Theorem coverage_level_thresholds db req w m obj :
  answers db req w m ->
  obj ∈ m_techniques m ->
  let a := active_rules (o_coverage obj) in
  let l := level_name (coverage_level (o_coverage obj)) in
  (l = "excellent" <-> 5 <= a)
  /\ (l = "good" <-> a = 3 \/ a = 4)
  /\ (l = "basic" <-> a = 1 \/ a = 2)
  /\ (l = "none" <-> a = 0).
Proof.
  intros Ha Hobj. apply answers_success in Ha as ->.
  apply output_technique in Hobj as (t & _ & _ & ->).
  cbn [technique_object o_coverage active_rules coverage_level].
  apply level_of_cases.
  pose proof (aggregate_counts_nonneg (collation db) t (group_rows db req t)). lia.
Qed.

Lemma coverage_level_thresholds_witness :
  let obj := Sample2.object_of Sample.webshell Sample.all_of
               (Sample.tech "u1" "T1505" false) in
  let a := active_rules (o_coverage obj) in
  let l := level_name (coverage_level (o_coverage obj)) in
  (l = "excellent" <-> 5 <= a)
  /\ (l = "good" <-> a = 3 \/ a = 4)
  /\ (l = "basic" <-> a = 1 \/ a = 2)
  /\ (l = "none" <-> a = 0).
Proof.
  apply (coverage_level_thresholds Sample.webshell Sample.all_of Sample.at_noon
           (matrix_success Sample.webshell Sample.all_of Sample.at_noon)).
  - vm_compute. reflexivity.
  - by_evaluation.
Defined.

(** The boundary values: 5, 4, 2 and 0 active rules. *)
Example level_boundaries :
  level_name <$> (level_of <$> [5; 4; 3; 2; 1; 0])
  = ["excellent"; "good"; "good"; "basic"; "basic"; "none"].
Proof. reflexivity. Qed.

Lemma case_when_values {R V} (c : R -> Sql.tv) (e : R -> option V)
    (rows : list R) x :
  x ∈ omap (λ j, Sql.case_when (c j) (e j)) rows -> x ∈ omap e rows.
Proof.
  rewrite !list_elem_of_omap. intros (j & Hj & Hx). exists j. split; [done|].
  unfold Sql.case_when in Hx. by destruct (Sql.holds (c j)).
Qed.

Lemma key_mono {R} c (e1 e2 : R -> option string) (rows : list R) :
  (forall x, x ∈ omap e1 rows -> x ∈ omap e2 rows) ->
  forall x, x ∈ omap (Sql.key c e1) rows -> x ∈ omap (Sql.key c e2) rows.
Proof.
  intros H x. rewrite !elem_of_omap_key. intros (y & Hy & ->). eauto.
Qed.

(** C10: in every row of the technique query the active count of the
    own side is at most the total of the own side, and likewise on the
    sub-technique side; hence in every technique object of the response
    [active_rules <= total_rules]. *)
Theorem active_counts_bounded db req :
  (forall sv row, row ∈ techniques_query sv db req ->
     own_active_rules row <= own_total_rules row
     /\ sub_active_rules row <= sub_total_rules row)
  /\ (forall w m obj, answers db req w m -> obj ∈ m_techniques m ->
        active_rules (o_coverage obj) <= total_rules (o_coverage obj)).
Proof.
  assert (forall c t rows,
            own_active_rules (aggregate c t rows) <= own_total_rules (aggregate c t rows)
            /\ sub_active_rules (aggregate c t rows)
               <= sub_total_rules (aggregate c t rows))
    as Hagg.
  { intros c t rows. simpl. split; apply count_distinct_mono, key_mono; intros x;
      apply case_when_values. }
  split.
  - intros sv row Hrow.
    apply elem_of_techniques_query in Hrow as (t & _ & _ & ->). apply Hagg.
  - intros w m obj Ha Hobj. apply answers_success in Ha as ->.
    apply output_technique in Hobj as (t & _ & _ & ->).
    cbn [technique_object o_coverage active_rules total_rules].
    specialize (Hagg (collation db) t (group_rows db req t)). lia.
Qed.

(** ** Global statistics *)

Lemma tally_level_sum values acc :
  level_sum (fold_left tally values acc).1 = level_sum acc.1 + len values.
Proof.
  revert acc. induction values as [|v values IH]; intros acc; simpl.
  - unfold len. simpl. lia.
  - rewrite IH. unfold len. simpl length. rewrite Nat2Z.inj_succ.
    unfold tally, level_sum. simpl.
    destruct (coverage_level (o_coverage v)); simpl; lia.
Qed.

(** C8: whenever the response carries statistics, the four counts of
    [coverage_levels] add up to [total_techniques], which is the number of
    technique objects the statistics were taken over. *)
Theorem coverage_levels_sum db req w m s :
  answers db req w m ->
  m_statistics m = Some s ->
  excellent (coverage_levels s) + good (coverage_levels s)
  + basic (coverage_levels s) + none (coverage_levels s)
  = total_techniques s
  /\ total_techniques s = len (m_techniques m).
Proof.
  intros Ha. apply answers_success in Ha as ->.
  simpl. destruct (include_statistics req); [|done]. intros [= <-].
  unfold compute_statistics. simpl.
  pose proof (tally_level_sum
                (Dict.values (all_techniques_dict
                   (fold_left (loop_step req)
                      (techniques_query (server w) db req) loop_init)))
                (zero_levels, zero_severities)) as H.
  unfold level_sum in H. simpl in H. split; [lia|done].
Qed.

Lemma coverage_levels_sum_witness :
  let m := matrix_success Sample.webshell Sample.all_of Sample.at_noon in
  let s := default (compute_statistics loop_init []) (m_statistics m) in
  excellent (coverage_levels s) + good (coverage_levels s)
  + basic (coverage_levels s) + none (coverage_levels s)
  = total_techniques s
  /\ total_techniques s = len (m_techniques m).
Proof.
  apply (coverage_levels_sum Sample.webshell Sample.all_of Sample.at_noon).
  - vm_compute. reflexivity.
  - reflexivity.
Defined.

(** *** Revoked techniques *)

Lemma filter_none {A} (P : A -> Prop) `{!forall x, Decision (P x)} (l : list A) :
  Forall (λ x, ¬ P x) l -> filter P l = [].
Proof.
  induction 1 as [|x l Hx _ IH]; [done|]. by rewrite filter_cons_False.
Qed.

Lemma bind_ext_in {A B} (f g : A -> list B) (l : list A) :
  Forall (λ x, f x = g x) l -> l ≫= f = l ≫= g.
Proof.
  induction 1 as [|x l Hx _ IH]; [done|]. by rewrite !bind_cons, Hx, IH.
Qed.

Lemma revoked_has_no_group db req t :
  revoked t = Some true -> technique_group db req t = [].
Proof.
  intros Hrev. unfold technique_group, group_rows.
  rewrite filter_none; [done|].
  apply Forall_forall. intros j _.
  unfold where_clause, where_conditions. simpl. rewrite Hrev. simpl. tauto.
Qed.

Lemma joins_ignore_foreign_links db pos t links t' :
  Forall (λ l, tt_technique_id l = t_id t) links ->
  Sql.weight (collation db) (t_id t') <> Sql.weight (collation db) (t_id t) ->
  technique_joins (with_technique db pos t links) t' = technique_joins db t'.
Proof.
  intros Hlinks Hid. unfold technique_joins. simpl.
  rewrite filter_app, (filter_none _ links); [done|].
  eapply Forall_impl; [exact Hlinks|]. intros l -> Heq.
  apply Is_true_true, eqb_weight in Heq. done.
Qed.

Lemma techniques_query_with_revoked sv db req pos t links :
  revoked t = Some true ->
  Forall (λ l, tt_technique_id l = t_id t) links ->
  Forall (λ t', Sql.weight (collation db) (t_id t')
                <> Sql.weight (collation db) (t_id t)) (techniques db) ->
  techniques_query sv (with_technique db pos t links) req
  = techniques_query sv db req.
Proof.
  intros Hrev Hlinks Hfresh. unfold techniques_query.
  change (collation (with_technique db pos t links)) with (collation db). f_equal.
  assert (forall ts, Forall (λ t', Sql.weight (collation db) (t_id t')
                                   <> Sql.weight (collation db) (t_id t)) ts ->
            (t' ← ts; technique_group (with_technique db pos t links) req t')
            = (t' ← ts; technique_group db req t')) as Hsame.
  { intros ts Hts. apply bind_ext_in.
    eapply Forall_impl; [exact Hts|]. intros t' Hid.
    unfold technique_group, group_rows.
    by rewrite joins_ignore_foreign_links. }
  rewrite <- (take_drop pos (techniques db)) in Hfresh.
  apply Forall_app in Hfresh as [Htake Hdrop].
  change (techniques (with_technique db pos t links))
    with (take pos (techniques db) ++ t :: drop pos (techniques db))%list.
  rewrite bind_app, bind_cons, revoked_has_no_group by done.
  rewrite (Hsame _ Htake), (Hsame _ Hdrop). simpl.
  by rewrite <- bind_app, take_drop.
Qed.

(** C7: a revoked technique, wherever its row stands in the table,
    whatever tactic links it has and whatever rules reference it, changes
    neither whether the handler answers, nor the technique objects of the
    response, nor any of the counts of the global statistics (total,
    parent, sub-technique, covered, uncovered, percentage, coverage
    levels, rules by severity).  Its [id] is that of no other technique,
    as the primary key has it. *)
Theorem revoked_technique_not_counted db req w pos t links :
  revoked t = Some true ->
  Forall (λ l, tt_technique_id l = t_id t) links ->
  Forall (λ t', Sql.weight (collation db) (t_id t')
                <> Sql.weight (collation db) (t_id t)) (techniques db) ->
  let without := data_of (get_ultimate_matrix db req w).1 in
  let with_it :=
    data_of (get_ultimate_matrix (with_technique db pos t links) req w).1 in
  m_techniques <$> with_it = m_techniques <$> without
  /\ (λ m, global_counts <$> m_statistics m) <$> with_it
     = (λ m, global_counts <$> m_statistics m) <$> without.
Proof.
  intros Hrev Hlinks Hfresh. unfold get_ultimate_matrix.
  rewrite techniques_query_with_revoked by done.
  destruct (Sql.raises (server w)); [done|].
  destruct (process_techniques _ _); [|done]. cbn.
  split; [done|]. by destruct (include_statistics req).
Qed.

Lemma revoked_technique_not_counted_witness :
  let t := {| t_id := "u9"; attack_id := "T1505.003"; t_name := "IIS";
              platforms := Some ["Windows"]; t_version := Some "1.0";
              deprecated := Some false; revoked := Some true |} in
  let links := [Sample.link "u9" "TA0003"] in
  let db := Sample.store (tactics Sample.webshell) (techniques Sample.webshell)
              (technique_tactics Sample.webshell)
              (Sample.mk_rule "r9" "T1505.003" "critical" true Active
               :: correlation_rules Sample.webshell) in
  let without := data_of (get_ultimate_matrix db Sample.all_of Sample.at_noon).1 in
  let with_it :=
    data_of (get_ultimate_matrix (with_technique db 1 t links) Sample.all_of
               Sample.at_noon).1 in
  m_techniques <$> with_it = m_techniques <$> without
  /\ (λ m, global_counts <$> m_statistics m) <$> with_it
     = (λ m, global_counts <$> m_statistics m) <$> without.
Proof.
  intros t links db.
  apply (revoked_technique_not_counted db Sample.all_of Sample.at_noon 1 t links).
  - reflexivity.
  - by_evaluation.
  - by_evaluation.
Defined.

(** ** Deleted and inactive rules *)

Section joined_counts.
Variables (db : database) (req : request) (t : technique).
Hypothesis rules_pk : rule_ids_unique db.
Hypothesis has_group : group_rows db req t <> [].

Local Abbreviation c := (collation db).
Let rows := group_rows db req t.
Let rules := correlation_rules db.






End joined_counts.



(** ** Where the code departs from its specification *)

(** C3 on the store [Sample.own_and_sub]: T1059 has an active rule of
    severity high and its sub-technique T1059.001 an active rule of
    severity critical.  [COALESCE(cr_own.id, cr_sub.id)] names the own
    rule in every joined row, so the critical bucket of T1059 stays at 0
    although one active rule under T1059 is critical. *)
Theorem severity_buckets_miss_sub_rules :
  Sample.technique_summaries Sample.own_and_sub
  = Some
    [("T1059", 2, 2,
      {| critical := 0; high := 1; medium := 0; low := 0 |}, "basic");
     ("T1059.001", 1, 1,
      {| critical := 1; high := 0; medium := 0; low := 0 |}, "basic")]
  /\ len (filter (live_with_severity Sql.ascii_ci "T1059" "critical")
                 (correlation_rules Sample.own_and_sub)) = 1.
Proof. split; vm_compute; reflexivity. Qed.

(** C4 on two stores.  In [Sample.one_revoked] the tactic has a covered
    technique and a revoked one: [COUNT(DISTINCT tt.technique_id)] counts
    both links and the percentage is 50.0, not 100.0.  In
    [Sample.covered_by_sub] the only technique of TA0002 is covered through
    a sub-technique's rule, as its technique object says, but the tactic
    query joins rules on the technique's own identifier only and reports
    0.0. *)
Theorem tactic_percentage_counts :
  Sample.tactic_summaries Sample.one_revoked
  = Some [("TA0002", 2, 1, Py.Float 50)]
  /\ Sample.tactic_summaries Sample.covered_by_sub
     = Some [("TA0002", 1, 0, Py.Float 0); ("TA0003", 1, 1, Py.Float 100)]
  /\ (λ m, (λ o, (o_attack_id o, has_coverage (o_coverage o)))
             <$> m_parent_techniques m)
       <$> data_of (get_ultimate_matrix Sample.covered_by_sub Sample.all_of
                      Sample.at_noon).1
     = Some [("T1059", true)].
Proof. repeat split; vm_compute; reflexivity. Qed.

(** A tactic without linked techniques reports the integer 0, and no
    division takes place. *)
Lemma tactic_without_techniques row :
  techniques_count row = 0 ->
  a_coverage_percentage (tactic_object row) = Py.Int 0.
Proof. intros H. unfold tactic_object. simpl. by rewrite H. Qed.

(** In general [techniques_count] is the number of distinct technique
    identifiers among the links of the tactic: the techniques table, and so
    the revoked and deprecated flags, have no part in it. *)
Lemma techniques_count_counts_links db req t :
  techniques_count (tactic_group db req t)
  = len (remove_dups (Sql.weight (collation db) <$> linked_ids db t)).
Proof.
  unfold tactic_group, linked_ids. cbn [techniques_count].
  apply count_distinct_exact; [apply NoDup_remove_dups|].
  intros x. rewrite elem_of_remove_dups, elem_of_omap_key, list_elem_of_fmap.
  setoid_rewrite list_elem_of_omap. setoid_rewrite list_elem_of_fmap.
  unfold tactic_joins, linked_id. split.
  - intros (y & (k & Hk & Hx) & ->).
    apply list_elem_of_bind in Hk as (tt & Hk & Htt).
    apply list_elem_of_bind in Hk as (tech & Hk & _).
    apply list_elem_of_bind in Hk as (cr & Hk & _).
    apply list_elem_of_singleton in Hk. subst k. simpl in Hx.
    apply elem_of_left_join in Htt as [[-> _]|(l & -> & Hl)]; [done|].
    simpl in Hx. injection Hx as <-. eauto.
  - intros (y & -> & l & -> & Hl). eexists. split; [|done].
    set (tt := Some l).
    destruct (left_join_inhabited
                (filter (λ tech, Sql.holds (tech_on db req tt tech)) (techniques db)))
      as [tech Htech].
    destruct (left_join_inhabited
                (filter (λ cr, Sql.holds (cr_on (collation db) tech cr))
                        (correlation_rules db)))
      as [cr Hcr].
    exists {| k_tt := tt; k_tech := tech; k_cr := cr |}. split; [|done].
    apply list_elem_of_bind. exists tt. split.
    + apply list_elem_of_bind. exists tech. split; [|done].
      apply list_elem_of_bind. exists cr. split; [|done].
      by apply list_elem_of_singleton.
    + apply elem_of_left_join. right. by exists l.
Qed.

(** * Further properties of the matrix endpoint *)

(** ** What the WHERE clause lets through *)

Lemma holds_and3 a b :
  Sql.holds (Sql.and3 a b) = true <-> Sql.holds a = true /\ Sql.holds b = true.
Proof. destruct a as [[]|], b as [[]|]; simpl; intuition discriminate. Qed.

Lemma holds_foldr_and3 (conds : list Sql.tv) :
  Sql.holds (foldr Sql.and3 (Some true) conds) = true
  <-> Forall (λ c, Sql.holds c = true) conds.
Proof.
  induction conds as [|c conds IH]; simpl.
  - split; [constructor|done].
  - rewrite holds_and3, IH, Forall_cons. tauto.
Qed.

Lemma truthy_spec s : truthy s = true <-> exists p, s = Some p /\ p <> EmptyString.
Proof.
  destruct s as [[|c p]|]; simpl; split; try done.
  - intros (p & [= <-] & Hp). done.
  - intros _. eexists. split; [reflexivity|done].
  - intros (p & [=] & _).
Qed.

(** The WHERE clause, condition by condition. *)
Lemma where_clause_spec db req t j :
  Sql.holds (where_clause db req t j) = true <->
  revoked t = Some false
  /\ (include_deprecated req = false -> deprecated t = Some false)
  /\ (forall p, platform_filter req = Some p -> p <> EmptyString ->
        json_contains db (platforms t) (quoted p) = Some true)
  /\ (forall f, tactic_filter req = Some f -> f <> EmptyString ->
        Sql.weight (collation db) (x_mitre_shortname (j_tac j))
        = Sql.weight (collation db) f).
Proof.
  unfold where_clause, where_conditions.
  rewrite holds_foldr_and3, !Forall_app, Forall_singleton.
  assert (Sql.holds (Sql.is0 (revoked t)) = true <-> revoked t = Some false) as ->.
  { destruct (revoked t) as [[]|]; simpl; intuition congruence. }
  assert (Forall (λ c, Sql.holds c = true)
            (if include_deprecated req then [] else [Sql.is0 (deprecated t)])
          <-> (include_deprecated req = false -> deprecated t = Some false)) as ->.
  { destruct (include_deprecated req).
    - split; [done|constructor].
    - rewrite Forall_singleton.
      destruct (deprecated t) as [[]|]; simpl; intuition congruence. }
  assert (Forall (λ c, Sql.holds c = true)
            (if truthy (platform_filter req)
             then [contains db (platforms t) (quoted <$> platform_filter req)]
             else [])
          <-> (forall p, platform_filter req = Some p -> p <> EmptyString ->
                 json_contains db (platforms t) (quoted p) = Some true)) as ->.
  { destruct (truthy (platform_filter req)) eqn:Htr.
    - apply truthy_spec in Htr as (p & -> & Hp). rewrite Forall_singleton. cbn.
      split.
      + intros H p' [= <-] _.
        by destruct (json_contains db (platforms t) (quoted p)) as [[]|].
      + intros Hall. by rewrite (Hall p eq_refl Hp).
    - split; [|constructor]. intros _ p Hsome Hp.
      assert (truthy (platform_filter req) = true) as Hyes
        by (apply truthy_spec; eauto).
      congruence. }
  assert (Forall (λ c, Sql.holds c = true)
            (if truthy (tactic_filter req)
             then [Sql.eq_str (collation db) (Some (x_mitre_shortname (j_tac j)))
                              (tactic_filter req)]
             else [])
          <-> (forall f, tactic_filter req = Some f -> f <> EmptyString ->
                 Sql.weight (collation db) (x_mitre_shortname (j_tac j))
                 = Sql.weight (collation db) f)) as ->.
  { destruct (truthy (tactic_filter req)) eqn:Htr.
    - apply truthy_spec in Htr as (f & -> & Hf). rewrite Forall_singleton. simpl.
      destruct (Sql.eqb (collation db) (x_mitre_shortname (j_tac j)) f) eqn:E; split.
      * intros _ f' [= <-] _. by apply eqb_weight.
      * done.
      * done.
      * intros Hall. specialize (Hall f eq_refl Hf).
        apply eqb_weight in Hall. congruence.
    - split; [|constructor]. intros _ f Hsome Hf.
      assert (truthy (tactic_filter req) = true) as Hyes
        by (apply truthy_spec; eauto).
      congruence. }
  tauto.
Qed.

(** A technique object of the response, with a joined row of its group. *)
Lemma output_technique_row db req w obj :
  obj ∈ m_techniques (matrix_success db req w) ->
  exists t j, t ∈ techniques db
              /\ j ∈ technique_joins db t
              /\ Sql.holds (where_clause db req t j) = true
              /\ obj = technique_object
                         (aggregate (collation db) t (group_rows db req t)).
Proof.
  intros Hobj. apply output_technique in Hobj as (t & Ht & Hne & ->).
  destruct (nonempty_elem _ Hne) as [j Hj].
  apply elem_of_group_rows in Hj as [Hj Hw]. by exists t, j.
Qed.

(** The response holds no revoked technique, and no deprecated one unless
    the request asks for them. *)
Theorem response_excludes_revoked db req w m obj :
  answers db req w m ->
  obj ∈ m_techniques m ->
  o_revoked obj = false
  /\ (include_deprecated req = false -> o_deprecated obj = false).
Proof.
  intros Ha Hobj. apply answers_success in Ha as ->.
  apply output_technique_row in Hobj as (t & j & _ & _ & Hw & ->).
  apply where_clause_spec in Hw as (Hrev & Hdep & _). simpl.
  rewrite Hrev. split; [done|]. intros Hno. by rewrite (Hdep Hno).
Qed.

Lemma response_excludes_revoked_witness :
  let obj := Sample2.object_of Sample.one_revoked Sample.all_of
               (Sample.tech "u1" "T1059" false) in
  o_revoked obj = false
  /\ (include_deprecated Sample.all_of = false -> o_deprecated obj = false).
Proof.
  apply (response_excludes_revoked Sample.one_revoked Sample.all_of Sample.at_noon
           (matrix_success Sample.one_revoked Sample.all_of Sample.at_noon)).
  - vm_compute. reflexivity.
  - by_evaluation.
Defined.

(** With a platform filter every technique of the response is a row
    whose [platforms] document contains the quoted filter, as the store's
    [JSON_CONTAINS] reads the two. *)
Theorem platform_filter_sound db req w m obj p :
  answers db req w m ->
  obj ∈ m_techniques m ->
  platform_filter req = Some p -> p <> EmptyString ->
  exists t, t ∈ techniques db /\ o_id obj = t_id t
            /\ o_platforms obj = default [] (platforms t)
            /\ json_contains db (platforms t) (quoted p) = Some true.
Proof.
  intros Ha Hobj Hp Hne. apply answers_success in Ha as ->.
  apply output_technique_row in Hobj as (t & j & Ht & _ & Hw & ->).
  apply where_clause_spec in Hw as (_ & _ & Hplat & _).
  exists t. repeat split; [done|]. by apply Hplat.
Qed.

Lemma platform_filter_sound_witness :
  exists t, t ∈ techniques Sample.webshell
            /\ o_id (Sample2.object_of Sample.webshell Sample2.windows_only
                       (Sample.tech "u1" "T1505" false)) = t_id t
            /\ o_platforms (Sample2.object_of Sample.webshell Sample2.windows_only
                              (Sample.tech "u1" "T1505" false))
               = default [] (platforms t)
            /\ json_contains Sample.webshell (platforms t) (quoted "Windows")
               = Some true.
Proof.
  apply (platform_filter_sound Sample.webshell Sample2.windows_only Sample.at_noon
           (matrix_success Sample.webshell Sample2.windows_only Sample.at_noon)).
  - vm_compute. reflexivity.
  - by_evaluation.
  - reflexivity.
  - discriminate.
Defined.

(** Every technique of the response is a row of the techniques table that
    is linked to a tactic of the tactics table; with a tactic filter, to a
    tactic of that short name.  Identifiers and names are equal as the
    store compares them. *)
Theorem response_technique_has_tactic db req w m obj :
  answers db req w m ->
  obj ∈ m_techniques m ->
  let c := collation db in
  exists t tt tac,
    t ∈ techniques db /\ o_id obj = t_id t /\ o_attack_id obj = attack_id t
    /\ tt ∈ technique_tactics db
    /\ Sql.weight c (tt_technique_id tt) = Sql.weight c (t_id t)
    /\ tac ∈ tactics db
    /\ Sql.weight c (tac_id tac) = Sql.weight c (tt_tactic_id tt)
    /\ (forall f, tactic_filter req = Some f -> f <> EmptyString ->
          Sql.weight c (x_mitre_shortname tac) = Sql.weight c f).
Proof.
  intros Ha Hobj c. apply answers_success in Ha as ->.
  apply output_technique_row in Hobj as (t & j & Ht & Hj & Hw & ->).
  apply where_clause_spec in Hw as (_ & _ & _ & Htac).
  apply elem_of_technique_joins in Hj as (Htt & Hjt & _).
  apply list_elem_of_filter in Htt as [Heq1 Htt].
  apply list_elem_of_filter in Hjt as [Heq2 Hjt].
  apply Is_true_true, eqb_weight in Heq1, Heq2.
  exists t, (j_tt j), (j_tac j). repeat split; try done.
Qed.

Lemma response_technique_has_tactic_witness :
  let c := Sql.ascii_ci in
  exists t tt tac,
    t ∈ techniques Sample.webshell
    /\ o_id (Sample2.object_of Sample.webshell Sample.all_of
               (Sample.tech "u1" "T1505" false)) = t_id t
    /\ o_attack_id (Sample2.object_of Sample.webshell Sample.all_of
                      (Sample.tech "u1" "T1505" false)) = attack_id t
    /\ tt ∈ technique_tactics Sample.webshell
    /\ Sql.weight c (tt_technique_id tt) = Sql.weight c (t_id t)
    /\ tac ∈ tactics Sample.webshell
    /\ Sql.weight c (tac_id tac) = Sql.weight c (tt_tactic_id tt)
    /\ (forall f, tactic_filter Sample.all_of = Some f -> f <> EmptyString ->
          Sql.weight c (x_mitre_shortname tac) = Sql.weight c f).
Proof.
  apply (response_technique_has_tactic Sample.webshell Sample.all_of Sample.at_noon
           (matrix_success Sample.webshell Sample.all_of Sample.at_noon)).
  - vm_compute. reflexivity.
  - by_evaluation.
Defined.

(** ** The coverage filter *)

Lemma output_technique_kept db req w obj :
  obj ∈ m_techniques (matrix_success db req w) ->
  exists row, row ∈ techniques_query (server w) db req /\ skipped req row = false
              /\ obj = technique_object row.
Proof.
  simpl. intros H.
  apply loop_values in H as [H|?]; [inversion H|done].
Qed.

(** With [coverage=covered] every technique of the response has an active
    rule, with [coverage=uncovered] none has. *)
Theorem coverage_filter_sound db req w m obj :
  answers db req w m ->
  obj ∈ m_techniques m ->
  (coverage_filter req = "covered" ->
     has_coverage (o_coverage obj) = true /\ 0 < active_rules (o_coverage obj))
  /\ (coverage_filter req = "uncovered" ->
        has_coverage (o_coverage obj) = false /\ active_rules (o_coverage obj) = 0).
Proof.
  intros Hans Hobj. apply answers_success in Hans as ->.
  pose proof Hobj as Hrow.
  apply output_technique_kept in Hrow as (row & Hrow & Hskip & ->).
  apply elem_of_techniques_query in Hrow as (t & _ & _ & ->).
  pose proof (aggregate_counts_nonneg (collation db) t (group_rows db req t))
    as [Ho Hs].
  unfold skipped in Hskip. cbn [technique_object o_coverage has_coverage active_rules].
  set (a := own_active_rules (aggregate (collation db) t (group_rows db req t))
            + sub_active_rules (aggregate (collation db) t (group_rows db req t)))
    in *.
  assert (0 <= a) as Ha by (unfold a; lia). clearbody a.
  split; intros Hf; rewrite Hf in Hskip; simpl in Hskip.
  - destruct (Z.eqb_spec a 0); [done|]. split; [apply Z.ltb_lt|]; lia.
  - destruct (Z.ltb_spec 0 a); [done|]. split; [done|lia].
Qed.

Lemma coverage_filter_sound_witness :
  let obj := Sample2.object_of Sample.webshell Sample2.covered_only
               (Sample.tech "u1" "T1505" false) in
  (coverage_filter Sample2.covered_only = "covered" ->
     has_coverage (o_coverage obj) = true /\ 0 < active_rules (o_coverage obj))
  /\ (coverage_filter Sample2.covered_only = "uncovered" ->
        has_coverage (o_coverage obj) = false /\ active_rules (o_coverage obj) = 0).
Proof.
  apply (coverage_filter_sound Sample.webshell Sample2.covered_only Sample.at_noon
           (matrix_success Sample.webshell Sample2.covered_only Sample.at_noon)).
  - vm_compute. reflexivity.
  - by_evaluation.
Defined.

(** ** Balance of the statistics *)

Lemma object_coverage_consistent db req w obj :
  obj ∈ m_techniques (matrix_success db req w) ->
  has_coverage (o_coverage obj) = true
  <-> coverage_level (o_coverage obj) <> NoCoverage.
Proof.
  intros Hobj. apply output_technique in Hobj as (t & _ & _ & ->).
  pose proof (aggregate_counts_nonneg (collation db) t (group_rows db req t)) as [Ho Hs].
  cbn [technique_object o_coverage has_coverage coverage_level].
  set (a := own_active_rules _ + sub_active_rules _) in *.
  rewrite Z.ltb_lt. unfold level_of.
  destruct (Z.leb_spec 5 a); [split; [done|lia]|].
  destruct (Z.leb_spec 3 a); [split; [done|lia]|].
  destruct (Z.leb_spec 1 a); [split; [done|lia]|].
  split; [lia|done].
Qed.

Lemma tally_none values acc :
  none (fold_left tally values acc).1
  = none acc.1
    + len (filter (λ o, coverage_level (o_coverage o) = NoCoverage) values).
Proof.
  revert acc. induction values as [|v values IH]; intros acc; simpl.
  - unfold len. simpl. lia.
  - rewrite IH. unfold tally. cbn [fst].
    rewrite filter_cons. destruct (decide _) as [Heq|Hne].
    + rewrite Heq. unfold len. simpl length. rewrite Nat2Z.inj_succ. simpl. lia.
    + destruct (coverage_level (o_coverage v)); simpl; (done || lia).
Qed.

Lemma covered_or_none (values : list technique_obj) :
  Forall (λ o, has_coverage (o_coverage o) = true
               <-> coverage_level (o_coverage o) <> NoCoverage) values ->
  len values
  = len (filter (λ o, has_coverage (o_coverage o)) values)
    + len (filter (λ o, coverage_level (o_coverage o) = NoCoverage) values).
Proof.
  unfold len. induction 1 as [|v values Hv _ IH]; [done|].
  rewrite !filter_cons. simpl length. rewrite Nat2Z.inj_succ.
  destruct (decide (coverage_level (o_coverage v) = NoCoverage)) as [Hnone|Hsome].
  - destruct (decide (has_coverage (o_coverage v))) as [Hc|Hc].
    + apply Is_true_true in Hc. tauto.
    + simpl length. lia.
  - destruct (decide (has_coverage (o_coverage v))) as [Hc|Hc].
    + simpl length. lia.
    + rewrite Is_true_true in Hc. tauto.
Qed.

(** In the statistics the uncovered techniques are exactly those of level
    "none" and the covered ones those of the three other levels; both
    counts lie between 0 and [total_techniques]. *)
Theorem statistics_balance db req w m s :
  answers db req w m ->
  m_statistics m = Some s ->
  uncovered_techniques s = none (coverage_levels s)
  /\ covered_techniques s
     = excellent (coverage_levels s) + good (coverage_levels s)
       + basic (coverage_levels s)
  /\ 0 <= covered_techniques s <= total_techniques s
  /\ 0 <= uncovered_techniques s <= total_techniques s.
Proof.
  intros Ha. apply answers_success in Ha as ->.
  simpl. destruct (include_statistics req); [|done].
  intros [= <-]. unfold compute_statistics. cbn.
  set (values := Dict.values (all_techniques_dict
                   (fold_left (loop_step req) (techniques_query (server w) db req) loop_init))).
  pose proof (tally_none values (zero_levels, zero_severities)) as Hnone.
  pose proof (tally_level_sum values (zero_levels, zero_severities)) as Hsum.
  unfold level_sum in Hsum. cbn in Hnone, Hsum.
  pose proof (covered_or_none values) as Hsplit.
  assert (Forall (λ o, has_coverage (o_coverage o) = true
                       <-> coverage_level (o_coverage o) <> NoCoverage) values)
    as Hall.
  { apply Forall_forall. intros o Ho.
    by apply (object_coverage_consistent db req w). }
  specialize (Hsplit Hall).
  unfold len in *. lia.
Qed.

Lemma statistics_balance_witness :
  let m := matrix_success Sample.webshell Sample.all_of Sample.at_noon in
  let s := default (compute_statistics loop_init []) (m_statistics m) in
  uncovered_techniques s = none (coverage_levels s)
  /\ covered_techniques s
     = excellent (coverage_levels s) + good (coverage_levels s)
       + basic (coverage_levels s)
  /\ 0 <= covered_techniques s <= total_techniques s
  /\ 0 <= uncovered_techniques s <= total_techniques s.
Proof.
  apply (statistics_balance Sample.webshell Sample.all_of Sample.at_noon
           (matrix_success Sample.webshell Sample.all_of Sample.at_noon)).
  - vm_compute. reflexivity.
  - reflexivity.
Defined.

(** ** The three collections of the loop *)

Lemma dict_set_fresh {V} (d : Dict.t V) k v :
  k ∉ d.*1 -> Dict.set d k v = (d ++ [(k, v)])%list.
Proof.
  induction d as [|[k' v'] d IH]; simpl; [done|].
  rewrite not_elem_of_cons. intros [Hne Hnotin].
  destruct (String.eqb_spec k' k) as [->|_]; [done|]. by rewrite IH.
Qed.

Lemma loop_body_dict req st row :
  all_techniques_dict (loop_step req st row)
  = if skipped req row then all_techniques_dict st
    else Dict.set (all_techniques_dict st) (row_key row) (technique_object row).
Proof.
  unfold loop_step, file. destruct (skipped req row); [done|].
  by destruct (has_dot _).
Qed.

Lemma kept_cons req row rows :
  kept req (row :: rows)
  = if skipped req row then kept req rows else row :: kept req rows.
Proof.
  unfold kept. rewrite filter_cons.
  destruct (skipped req row); by destruct (decide _).
Qed.

(** With pairwise different keys no assignment overwrites an entry: the
    dictionary grows by one entry per row that passes the coverage filter,
    in the order of the rows. *)
Lemma loop_dict req rows st :
  NoDup ((all_techniques_dict st).*1 ++ (row_key <$> kept req rows)) ->
  all_techniques_dict (fold_left (loop_step req) rows st)
  = (all_techniques_dict st ++ (row_entry <$> kept req rows))%list.
Proof.
  revert st. induction rows as [|row rows IH]; intros st Hnd; simpl.
  - by rewrite app_nil_r.
  - rewrite kept_cons in Hnd |- *.
    rewrite IH; rewrite loop_body_dict; destruct (skipped req row); try done.
    + rewrite fmap_cons in *. apply NoDup_app in Hnd as (_ & Hdisj & _).
      rewrite dict_set_fresh, <- app_assoc; [done|].
      intros Hin. apply (Hdisj _ Hin). by left.
    + rewrite fmap_cons in Hnd.
      assert (row_key row ∉ (all_techniques_dict st).*1) as Hfresh.
      { apply NoDup_app in Hnd as (_ & Hdisj & _).
        intros Hin. apply (Hdisj _ Hin). by left. }
      rewrite dict_set_fresh by done.
      rewrite fmap_app, <- app_assoc. done.
Qed.

Lemma loop_parents req rows st :
  parent_techniques (fold_left (loop_step req) rows st)
  = (parent_techniques st
     ++ (technique_object
           <$> filter (λ row, has_dot (row_key row) = false) (kept req rows)))%list.
Proof.
  revert st. induction rows as [|row rows IH]; intros st; simpl.
  - by rewrite app_nil_r.
  - rewrite IH, kept_cons. unfold loop_step, file.
    destruct (skipped req row); [done|].
    rewrite filter_cons. fold (row_key row).
    destruct (has_dot (row_key row)) eqn:Hdot; case_decide; try congruence;
      cbn [parent_techniques].
    + done.
    + by rewrite fmap_cons, <- app_assoc.
Qed.

Lemma total_len_append {V} (d : Dict.t (list V)) k v :
  total_len (Dict.set d k (default [] (Dict.get d k) ++ [v])%list) = total_len d + 1.
Proof.
  assert (forall k' (l : list V) d', total_len ((k', l) :: d') = len l + total_len d')
    as Hcons by done.
  induction d as [|[k' l] d IH]; [done|].
  cbn [Dict.get Dict.set]. destruct (String.eqb k' k).
  - rewrite !Hcons. unfold len. simpl. rewrite length_app. simpl. lia.
  - rewrite !Hcons, IH. lia.
Qed.

Lemma loop_subtechniques req rows st :
  total_len (subtechniques_by_parent (fold_left (loop_step req) rows st))
  = total_len (subtechniques_by_parent st)
    + len (filter (λ row, has_dot (row_key row) = true) (kept req rows)).
Proof.
  revert st. induction rows as [|row rows IH]; intros st; simpl.
  - unfold len. simpl. lia.
  - rewrite IH, kept_cons. unfold loop_step, file.
    destruct (skipped req row); [done|].
    rewrite filter_cons. fold (row_key row).
    destruct (has_dot (row_key row)) eqn:Hdot; case_decide; try congruence;
      cbn [subtechniques_by_parent].
    + rewrite total_len_append. unfold len. simpl length. lia.
    + done.
Qed.

Lemma len_split {A} (P : A -> bool) (l : list A) :
  len l = len (filter (λ x, P x = false) l) + len (filter (λ x, P x = true) l).
Proof.
  unfold len. induction l as [|x l IH]; [done|].
  rewrite !filter_cons. simpl length.
  destruct (P x); repeat (destruct (decide _); try done); simpl length; lia.
Qed.

(** The rows of the technique query carry pairwise different
    [attack_id]s when the table does (the column is declared unique). *)
Lemma query_keys_sublist db req (ts : list technique) :
  (row_key <$> (t ← ts; technique_group db req t)) `sublist_of` (attack_id <$> ts).
Proof.
  induction ts as [|t ts IH]; [constructor|].
  rewrite bind_cons, fmap_app, fmap_cons. unfold technique_group at 1.
  destruct (group_rows db req t).
  - by apply sublist_cons.
  - by apply sublist_skip.
Qed.

Lemma query_keys_nodup sv db req :
  NoDup (attack_id <$> techniques db) ->
  NoDup (row_key <$> techniques_query sv db req).
Proof.
  intros Hnd. unfold techniques_query. rewrite order_by_perm.
  eapply sublist_NoDup; [exact Hnd|apply query_keys_sublist].
Qed.

Lemma kept_keys_nodup sv db req :
  NoDup (attack_id <$> techniques db) ->
  NoDup (row_key <$> kept req (techniques_query sv db req)).
Proof.
  intros Hnd. apply NoDup_fmap_filter. by apply query_keys_nodup.
Qed.

(** With unique [attack_id]s the technique list of the response is the
    objects of the rows that pass the coverage filter, in query order. *)
Lemma response_techniques db req w :
  NoDup (attack_id <$> techniques db) ->
  m_techniques (matrix_success db req w)
  = technique_object <$> kept req (techniques_query (server w) db req).
Proof.
  intros Hnd. simpl. unfold Dict.values.
  rewrite loop_dict by (simpl; by apply kept_keys_nodup).
  simpl. rewrite <- list_fmap_compose. done.
Qed.

(** With unique [attack_id]s every technique of the response is either a
    parent or a sub-technique: the two counts of the statistics add up to
    [total_techniques]. *)
Theorem parents_and_subtechniques_partition db req w m s :
  answers db req w m ->
  NoDup (attack_id <$> techniques db) ->
  m_statistics m = Some s ->
  s_parent_techniques s + s_subtechniques s = total_techniques s.
Proof.
  intros Ha Hnd Hs. apply answers_success in Ha as ->.
  assert (Dict.values (all_techniques_dict
            (fold_left (loop_step req) (techniques_query (server w) db req) loop_init))
          = technique_object <$> kept req (techniques_query (server w) db req))
    as Htech
    by apply (response_techniques db req w Hnd).
  revert Hs. simpl. destruct (include_statistics req); [|done].
  intros [= <-]. unfold compute_statistics.
  cbn [s_parent_techniques s_subtechniques total_techniques].
  rewrite Htech.
  change (foldr Z.add 0 (len <$> Dict.values ?d)) with (total_len d).
  rewrite loop_parents, loop_subtechniques.
  pose proof (len_split (λ row, has_dot (row_key row))
                        (kept req (techniques_query (server w) db req))) as Hsplit.
  unfold len in *. cbn [loop_init parent_techniques subtechniques_by_parent].
  rewrite app_nil_l, !length_fmap.
  change (total_len []) with 0. lia.
Qed.

Lemma parents_and_subtechniques_partition_witness :
  let m := matrix_success Sample.webshell Sample.all_of Sample.at_noon in
  let s := default (compute_statistics loop_init []) (m_statistics m) in
  s_parent_techniques s + s_subtechniques s = total_techniques s.
Proof.
  apply (parents_and_subtechniques_partition
           Sample.webshell Sample.all_of Sample.at_noon
           (matrix_success Sample.webshell Sample.all_of Sample.at_noon)).
  - vm_compute. reflexivity.
  - by_evaluation.
  - reflexivity.
Defined.

(** ** Order of the listings *)

Section insertion_sort.
Context {A : Type} (le : A -> A -> bool).
Hypothesis le_total : forall a b, le a b = false -> le b a = true.

Let R (a b : A) : Prop := le a b = true.

Lemma insert_by_hd x y l :
  R y x -> HdRel R y l -> HdRel R y (Sql.insert_by le x l).
Proof.
  intros Hyx Hhd. destruct l as [|z l]; simpl.
  - by constructor.
  - destruct (le x z); constructor; [done|]. by inversion Hhd.
Qed.

Lemma insert_by_sorted x l : Sorted R l -> Sorted R (Sql.insert_by le x l).
Proof.
  induction 1 as [|y l Hs IH Hhd]; simpl.
  - by repeat constructor.
  - destruct (le x y) eqn:Hxy.
    + constructor; [by constructor|]. by constructor.
    + constructor; [done|]. apply insert_by_hd; [|done]. by apply le_total.
Qed.

Lemma order_by_sorted sv l : Sorted R (Sql.order_by sv le l).
Proof.
  unfold Sql.order_by. induction (Sql.enumerate sv A l) as [|x l' IH]; simpl.
  - constructor.
  - by apply insert_by_sorted.
Qed.
End insertion_sort.

Lemma ascii_compare_lt_trans a b c :
  Ascii.compare a b = Lt -> Ascii.compare b c = Lt -> Ascii.compare a c = Lt.
Proof.
  unfold Ascii.compare. rewrite !N.compare_lt_iff. lia.
Qed.

Lemma string_compare_lt_trans a b c :
  String.compare a b = Lt -> String.compare b c = Lt -> String.compare a c = Lt.
Proof.
  revert b c. induction a as [|x a IH]; intros [|y b] [|z c]; simpl; try done.
  destruct (Ascii.compare x y) eqn:Hxy; [| |done].
  - apply Ascii.compare_eq_iff in Hxy as ->.
    destruct (Ascii.compare y z); [apply IH|done|done].
  - destruct (Ascii.compare y z) eqn:Hyz; [| |done].
    + apply Ascii.compare_eq_iff in Hyz as <-. by rewrite Hxy.
    + by rewrite (ascii_compare_lt_trans x y z).
Qed.

Lemma string_leb_trans a b c :
  String.leb a b = true -> String.leb b c = true -> String.leb a c = true.
Proof.
  unfold String.leb. intros Hab Hbc.
  destruct (String.compare a b) eqn:Eab; [|clear Hab|done].
  - apply String.compare_eq_iff in Eab as ->. done.
  - destruct (String.compare b c) eqn:Ebc; [| |done].
    + apply String.compare_eq_iff in Ebc as <-. by rewrite Eab.
    + by rewrite (string_compare_lt_trans a b c).
Qed.


#[global] Instance by_name_transitive c : Transitive (by_name c).
Proof. unfold by_name, Sql.leb. intros x y z. apply string_leb_trans. Qed.

Lemma by_name_total c a b : Sql.leb c a b = false -> Sql.leb c b a = true.
Proof.
  unfold Sql.leb.
  destruct (String.leb_total (Sql.weight c a) (Sql.weight c b)) as [H|H];
    congruence.
Qed.

#[global] Instance by_rank_transitive c : Transitive (by_rank c).
Proof. unfold by_rank. intros x y z. lia. Qed.

Lemma StronglySorted_filter {A} (R : relation A) (P : A -> Prop)
    `{!forall x, Decision (P x)} (l : list A) :
  StronglySorted R l -> StronglySorted R (filter P l).
Proof.
  induction 1 as [|x l Hs IH Hall]; [constructor|].
  rewrite filter_cons. destruct (decide (P x)); [|done].
  constructor; [done|]. apply Forall_forall. intros y Hy.
  apply list_elem_of_filter in Hy as [_ Hy].
  rewrite Forall_forall in Hall. auto.
Qed.

(** With unique [attack_id]s the technique list of the response is in
    the order that the store gives the [attack_id]s, as the query's
    ORDER BY leaves it. *)
Theorem response_techniques_sorted db req w m :
  answers db req w m ->
  NoDup (attack_id <$> techniques db) ->
  StronglySorted (by_name (collation db)) (o_attack_id <$> m_techniques m).
Proof.
  intros Ha Hnd. apply answers_success in Ha as ->.
  rewrite response_techniques by done.
  rewrite <- list_fmap_compose.
  apply (StronglySorted_fmap _ (λ a b, by_name (collation db) (row_key a) (row_key b))
                             (by_name (collation db))).
  { by intros a b. }
  apply StronglySorted_filter.
  apply Sorted_StronglySorted.
  { intros a b c. apply by_name_transitive. }
  unfold techniques_query.
  apply (order_by_sorted (by_attack_id (collation db))).
  intros a b. apply by_name_total.
Qed.

Lemma response_techniques_sorted_witness :
  StronglySorted (by_name Sql.ascii_ci)
    (o_attack_id
       <$> m_techniques (matrix_success Sample.webshell Sample.all_of Sample.at_noon)).
Proof.
  apply (response_techniques_sorted Sample.webshell Sample.all_of Sample.at_noon).
  - vm_compute. reflexivity.
  - by_evaluation.
Defined.

(** The order of the store is not the order of the bytes: a store that
    compares without regard to case lists "Ta" before "TB". *)
Example order_follows_collation :
  Sql.order_by Sql.in_table_order (Sql.leb Sql.ascii_ci) ["TB"; "Ta"] = ["Ta"; "TB"]
  /\ Sql.order_by Sql.in_table_order (Sql.leb Sql.binary) ["TB"; "Ta"] = ["TB"; "Ta"].
Proof. split; reflexivity. Qed.

(** ** The joined rows of a tactic *)

Lemma elem_of_tactic_joins db req t k :
  k ∈ tactic_joins db req t <->
  k_tt k ∈ Sql.left_join
             (filter (λ tt, Sql.eqb (collation db) (tac_id t) (tt_tactic_id tt))
                     (technique_tactics db))
  /\ k_tech k ∈ Sql.left_join
                  (filter (λ tech, Sql.holds (tech_on db req (k_tt k) tech))
                          (techniques db))
  /\ k_cr k ∈ Sql.left_join
                (filter (λ cr, Sql.holds (cr_on (collation db) (k_tech k) cr))
                        (correlation_rules db)).
Proof.
  unfold tactic_joins. split.
  - intros H.
    apply list_elem_of_bind in H as (tt & H & Htt).
    apply list_elem_of_bind in H as (tech & H & Htech).
    apply list_elem_of_bind in H as (cr & H & Hcr).
    apply list_elem_of_singleton in H. by subst k.
  - destruct k as [tt tech cr]. simpl. intros (Htt & Htech & Hcr).
    apply list_elem_of_bind. exists tt. split; [|done].
    apply list_elem_of_bind. exists tech. split; [|done].
    apply list_elem_of_bind. exists cr. split; [|done].
    by apply list_elem_of_singleton.
Qed.

Lemma holds_eq_str c a b :
  Sql.holds (Sql.eq_str c a b) = true <->
  exists x y, a = Some x /\ b = Some y /\ Sql.weight c x = Sql.weight c y.
Proof.
  destruct a as [x|], b as [y|]; cbn; try (split; [done|naive_solver]).
  split.
  - intros H. exists x, y. repeat split.
    apply eqb_weight. by destruct (Sql.eqb c x y).
  - intros (? & ? & [= <-] & [= <-] & H). apply eqb_weight in H. by rewrite H.
Qed.

(** A technique joined to a link carries the identifier of the link, as
    the store compares identifiers. *)
Lemma joined_technique_is_linked db req t k tech :
  k ∈ tactic_joins db req t -> k_tech k = Some tech ->
  Sql.key (collation db) linked_id k = Some (Sql.weight (collation db) (t_id tech)).
Proof.
  intros Hk Htech. apply elem_of_tactic_joins in Hk as (_ & Hk & _).
  rewrite Htech in Hk.
  apply elem_of_left_join in Hk as [[? _]|(x & [= <-] & Hx)]; [done|].
  apply list_elem_of_filter in Hx as [Hon _]. apply Is_true_true in Hon.
  unfold tech_on in Hon. rewrite !holds_and3 in Hon.
  destruct Hon as [[[Heq _] _] _].
  apply holds_eq_str in Heq as (x & y & Hx & [= <-] & Hw).
  unfold Sql.key, linked_id.
  destruct (k_tt k) as [l|]; simpl in *; [|done].
  injection Hx as <-. by rewrite Hw.
Qed.

(** For every tactic of the response the covered count is at most the
    technique count, and neither is negative. *)
Theorem tactic_counts_bounded db req w m a :
  answers db req w m ->
  a ∈ m_tactics m ->
  0 <= a_covered_techniques_count a <= a_techniques_count a.
Proof.
  intros Ha. apply answers_success in Ha as ->.
  simpl. rewrite list_elem_of_fmap. intros (row & -> & Hrow).
  unfold tactics_query in Hrow. rewrite elem_of_order_by in Hrow.
  apply list_elem_of_fmap in Hrow as (t & -> & _).
  cbn [tactic_object tactic_group a_covered_techniques_count a_techniques_count
       covered_techniques_count techniques_count].
  split; [apply count_distinct_nonneg|].
  apply count_distinct_mono. intros x.
  rewrite !list_elem_of_omap. intros (k & Hk & Hx). exists k. split; [done|].
  unfold Sql.key, covered_id, Sql.case_when in Hx.
  destruct (Sql.holds _); [|done].
  destruct (k_tech k) as [tech|] eqn:Htech; [|done].
  simpl in Hx. injection Hx as <-.
  by apply (joined_technique_is_linked db req t).
Qed.

Lemma tactic_counts_bounded_witness :
  let a := tactic_object
             (tactic_group Sample.one_revoked Sample.all_of Sample.execution) in
  0 <= a_covered_techniques_count a <= a_techniques_count a.
Proof.
  apply (tactic_counts_bounded Sample.one_revoked Sample.all_of Sample.at_noon
           (matrix_success Sample.one_revoked Sample.all_of Sample.at_noon)).
  - vm_compute. reflexivity.
  - vm_compute. apply list_elem_of_here.
Defined.

(** ** Empty rule table *)

(** Without rules every technique of the response has all-zero coverage:
    no rules, no active rules, empty severity buckets, level "none". *)
Theorem no_rules_no_coverage db req w m obj :
  answers db req w m ->
  correlation_rules db = [] ->
  obj ∈ m_techniques m ->
  o_coverage obj
  = {| total_rules := 0; active_rules := 0; own_rules := 0; sub_rules := 0;
       rules_by_severity := zero_severities;
       has_coverage := false; coverage_level := NoCoverage |}.
Proof.
  intros Ha Hempty Hobj. apply answers_success in Ha as ->.
  apply output_technique in Hobj as (t & _ & _ & ->).
  assert (forall j, j ∈ group_rows db req t -> cr_own j = None /\ cr_sub j = None)
    as Hnull.
  { intros j Hj. apply elem_of_group_rows in Hj as [Hj _].
    apply elem_of_technique_joins in Hj as (_ & _ & Hown & Hsub & _).
    rewrite Hempty in Hown, Hsub. simpl in Hown, Hsub.
    apply list_elem_of_singleton in Hown, Hsub. done. }
  assert (forall e : tech_join -> option string,
            (forall j, cr_own j = None -> cr_sub j = None -> e j = None) ->
            Sql.count_distinct (Sql.key (collation db) e) (group_rows db req t) = 0)
    as Hzero.
  { intros e He. apply count_distinct_null. intros j Hj.
    destruct (Hnull j Hj). unfold Sql.key. rewrite He; done. }
  unfold technique_object, aggregate. cbn -[Sql.count_distinct].
  rewrite !Hzero; [done|..]; intros j Ho Hs;
    unfold severity_id, own_id, sub_id, own_active_id, sub_active_id;
    rewrite ?Ho, ?Hs; reflexivity.
Qed.

Lemma no_rules_no_coverage_witness :
  let db := Sample.without_rules Sample.webshell in
  o_coverage (Sample2.object_of db Sample.all_of (Sample.tech "u1" "T1505" false))
  = {| total_rules := 0; active_rules := 0; own_rules := 0; sub_rules := 0;
       rules_by_severity := zero_severities;
       has_coverage := false; coverage_level := NoCoverage |}.
Proof.
  intros db.
  apply (no_rules_no_coverage db Sample.all_of Sample.at_noon
           (matrix_success db Sample.all_of Sample.at_noon)).
  - vm_compute. reflexivity.
  - reflexivity.
  - by_evaluation.
Defined.

(** ** Parents and their sub-techniques *)

Lemma len_filter_mono {A} (P Q : A -> Prop) `{!forall x, Decision (P x)}
    `{!forall x, Decision (Q x)} (l : list A) :
  (forall x, P x -> Q x) -> len (filter P l) <= len (filter Q l).
Proof.
  intros Himp. unfold len. induction l as [|x l IH]; [done|].
  rewrite !filter_cons.
  destruct (decide (P x)), (decide (Q x)); simpl length; try lia.
  exfalso. auto.
Qed.

Lemma prefix_has_char x p s :
  String.prefix (p ++ String x EmptyString) s = true -> has_char x s = true.
Proof.
  revert s. induction p as [|c p IH]; intros [|d s]; try done.
  - change (EmptyString ++ String x EmptyString)%string with (String x EmptyString).
    rewrite prefix_cons.
    intros [Hd _]%andb_prop. simpl. rewrite Ascii.eqb_sym, Hd. done.
  - change (String c p ++ String x EmptyString)%string
      with (String c (p ++ String x EmptyString)).
    rewrite prefix_cons. intros [_ Hp]%andb_prop. simpl.
    rewrite (IH _ Hp). apply orb_true_r.
Qed.

(** What extends an identifier by a dot holds a dot, as the store
    compares characters. *)
Lemma under_has_dot c id s :
  String.prefix (Sql.folded c (id ++ ".")) (Sql.folded c s) = true ->
  Sql.like c "%.%" s = true.
Proof.
  rewrite folded_app, like_has_dot. apply prefix_has_char.
Qed.

(** [LIKE] reads the text through the classes of its characters only. *)
Lemma like_folded_step c x p :
  (forall a b, Sql.folded c a = Sql.folded c b -> Sql.like c p a = Sql.like c p b) ->
  match p with
  | EmptyString => True
  | String _ q =>
      forall a b, Sql.folded c a = Sql.folded c b -> Sql.like c q a = Sql.like c q b
  end ->
  forall a b, Sql.folded c a = Sql.folded c b ->
              Sql.like c (String x p) a = Sql.like c (String x p) b.
Proof.
  intros IH IHtail a b Hab.
  assert (forall y q,
            (forall a b, Sql.folded c a = Sql.folded c b ->
                         Sql.like c q a = Sql.like c q b) ->
            match a with
            | EmptyString => false
            | String d s' => Sql.similar c y d && Sql.like c q s'
            end
            = match b with
              | EmptyString => false
              | String d s' => Sql.similar c y d && Sql.like c q s'
              end) as Hlit.
  { intros y q Hq.
    destruct a as [|d a], b as [|e b]; [done|discriminate Hab|discriminate Hab|].
    rewrite !folded_cons in Hab. injection Hab as Hde Hab.
    unfold Sql.similar. by rewrite Hde, (Hq a b Hab). }
  destruct (Ascii.eqb_spec x "%") as [->|Hp].
  { clear Hlit. revert b Hab.
    induction a as [|d a IHa]; intros [|e b] Hab;
      [done|discriminate Hab|discriminate Hab|].
    rewrite (like_star c p (String d a)), (like_star c p (String e b)).
    rewrite (IH _ _ Hab). rewrite !folded_cons in Hab. injection Hab as _ Hab.
    f_equal. by apply IHa. }
  apply Ascii.eqb_neq in Hp. cbn [Sql.like]. rewrite Hp.
  destruct (Ascii.eqb x "_").
  { destruct a as [|d a], b as [|e b]; [done|discriminate Hab|discriminate Hab|].
    rewrite !folded_cons in Hab. injection Hab as _ Hab. by apply IH. }
  destruct (Ascii.eqb x "\"); [|by apply Hlit].
  destruct p as [|y q]; by apply Hlit.
Qed.

Lemma like_folded c p a b :
  Sql.folded c a = Sql.folded c b -> Sql.like c p a = Sql.like c p b.
Proof.
  revert a b.
  assert ((forall a b, Sql.folded c a = Sql.folded c b ->
                       Sql.like c p a = Sql.like c p b)
          /\ match p with
             | EmptyString => True
             | String _ q =>
                 forall a b, Sql.folded c a = Sql.folded c b ->
                             Sql.like c q a = Sql.like c q b
             end) as [H _]; [|exact H].
  induction p as [|x p [IH IHtail]].
  - split; [|done]. intros [|d a] [|e b] Hab; [done|discriminate Hab..|done].
  - split; [|done]. by apply like_folded_step.
Qed.

(** Where the sort key is the classes of the characters [LIKE] does not
    tell apart what [=] takes for equal. *)
Lemma like_respects_folded c p :
  (forall s, Sql.weight c s = Sql.folded c s) -> Sql.like_respects c p.
Proof.
  intros Hw a b Hab. apply like_folded. by rewrite <- !Hw.
Qed.

(** The dot test does not either where the sort key leaves out the
    spaces at the end. *)
Lemma unpad_has_dot s :
  has_char "." (Sql.map_chars Sql.upcase (Sql.unpad s))
  = has_char "." (Sql.map_chars Sql.upcase s).
Proof.
  induction s as [|x s IH]; [done|]. cbn [Sql.unpad].
  destruct (Sql.unpad s) as [|y r] eqn:Hs.
  - cbn [Sql.map_chars has_char] in *. rewrite <- IH.
    destruct (Ascii.eqb_spec x " ") as [->|_]; [done|].
    cbn [Sql.map_chars has_char]. done.
  - cbn [Sql.map_chars has_char] in *. by rewrite IH.
Qed.

Lemma like_respects_pad_dot : Sql.like_respects Sql.ascii_ci_pad "%.%".
Proof.
  intros a b Hab. rewrite !like_has_dot.
  change (has_char "." (Sql.map_chars Sql.upcase a)
          = has_char "." (Sql.map_chars Sql.upcase b)).
  rewrite <- (unpad_has_dot a), <- (unpad_has_dot b).
  change (has_char "." (Sql.weight Sql.ascii_ci_pad a)
          = has_char "." (Sql.weight Sql.ascii_ci_pad b)).
  by rewrite Hab.
Qed.


(** A parent technique is credited with at least the rules of each of
    its sub-techniques: both its [total_rules] and its [active_rules] are
    at least those of any technique whose identifier extends the parent's
    by a dot, where the pattern of the roll-up does not tell apart what
    the store takes for equal (as it is under the binary collation, and
    under every collation whose sort key is the classes of the
    characters). *)
Theorem parent_covers_subtechnique db req w m parent sub :
  answers db req w m ->
  rule_ids_unique db ->
  parent ∈ m_techniques m ->
  sub ∈ m_techniques m ->
  Sql.like (collation db) "%.%" (o_attack_id parent) = false ->
  plain (o_attack_id parent) = true ->
  String.prefix (Sql.folded (collation db) (o_attack_id parent ++ "."))
                (Sql.folded (collation db) (o_attack_id sub)) = true ->
  Sql.like_respects (collation db) (o_attack_id parent ++ ".%") ->
  total_rules (o_coverage sub) <= total_rules (o_coverage parent)
  /\ active_rules (o_coverage sub) <= active_rules (o_coverage parent).
Proof.
  intros Ha Hpk Hp Hs Hdot Hplain Hpre Hresp. apply answers_success in Ha as ->.
  apply output_technique in Hp as (tp & _ & Hgp & ->).
  apply output_technique in Hs as (ts & _ & Hgs & ->).
  cbn [technique_object o_attack_id o_coverage total_rules active_rules] in *.
  cbn [aggregate row_t own_total_rules sub_total_rules own_active_rules
       sub_active_rules] in *.
  pose proof (under_has_dot _ _ _ Hpre) as Hsdot.
  rewrite (own_total_count db req ts), (own_active_count db req ts) by done.
  rewrite (sub_total_child db req ts), (sub_active_child db req ts) by done.
  rewrite (own_total_count db req tp), (own_active_count db req tp) by done.
  rewrite (sub_total_parent db req tp), (sub_active_parent db req tp) by done.
  set (c := collation db) in *.
  pose proof (len_filter_mono (rule_of c (attack_id ts)) (rule_under c (attack_id tp))
                (correlation_rules db)) as H1.
  pose proof (len_filter_mono
                (λ r, rule_of c (attack_id ts) r /\ rule_live r)
                (λ r, rule_under c (attack_id tp) r /\ rule_live r)
                (correlation_rules db)) as H2.
  assert (forall r, rule_of c (attack_id ts) r -> rule_under c (attack_id tp) r)
    as Himp.
  { unfold rule_of, rule_under. intros r Hr.
    rewrite <- like_plain_prefix by done. rewrite (Hresp _ _ Hr).
    by rewrite like_plain_prefix. }
  specialize (H1 Himp). specialize (H2 ltac:(naive_solver)).
  unfold len in *. lia.
Qed.

Lemma parent_covers_subtechnique_witness :
  let parent := Sample2.object_of Sample.webshell Sample.all_of
                  (Sample.tech "u1" "T1505" false) in
  let sub := Sample2.object_of Sample.webshell Sample.all_of
               (Sample.tech "u2" "T1505.001" false) in
  total_rules (o_coverage sub) <= total_rules (o_coverage parent)
  /\ active_rules (o_coverage sub) <= active_rules (o_coverage parent).
Proof.
  apply (parent_covers_subtechnique Sample.webshell Sample.all_of Sample.at_noon
           (matrix_success Sample.webshell Sample.all_of Sample.at_noon)).
  - vm_compute. reflexivity.
  - by_evaluation.
  - by_evaluation.
  - by_evaluation.
  - reflexivity.
  - reflexivity.
  - reflexivity.
  - apply like_respects_folded. reflexivity.
Defined.

(** ** Which techniques are listed *)

(** When the handler answers, a technique that is not revoked, passes
    the deprecation, platform and tactic conditions of the request through
    one of its tactic links, and is not set aside by a coverage filter, is
    in the response (the [attack_id]s being unique).  The links are
    followed as the store compares identifiers, and the platform
    condition is the store's [JSON_CONTAINS] on the quoted filter. *)
Theorem eligible_technique_listed db req w m t tt tac :
  answers db req w m ->
  NoDup (attack_id <$> techniques db) ->
  t ∈ techniques db ->
  tt ∈ technique_tactics db ->
  Sql.weight (collation db) (tt_technique_id tt) = Sql.weight (collation db) (t_id t) ->
  tac ∈ tactics db ->
  Sql.weight (collation db) (tac_id tac) = Sql.weight (collation db) (tt_tactic_id tt) ->
  revoked t = Some false ->
  (include_deprecated req = false -> deprecated t = Some false) ->
  (forall p, platform_filter req = Some p -> p <> EmptyString ->
     json_contains db (platforms t) (quoted p) = Some true) ->
  (forall f, tactic_filter req = Some f -> f <> EmptyString ->
     Sql.weight (collation db) (x_mitre_shortname tac) = Sql.weight (collation db) f) ->
  coverage_filter req <> "covered" -> coverage_filter req <> "uncovered" ->
  exists obj, obj ∈ m_techniques m
              /\ o_id obj = t_id t /\ o_attack_id obj = attack_id t.
Proof.
  intros Ha Hnd Ht Htt Hid Htac Htid Hrev Hdep Hplat Hf Hc1 Hc2.
  apply answers_success in Ha as ->.
  destruct (left_join_inhabited
              (filter (λ r, own_on (collation db) t r) (correlation_rules db)))
    as [own Hown].
  destruct (left_join_inhabited
              (filter (λ r, sub_on (collation db) t r) (correlation_rules db)))
    as [sub Hsub].
  destruct (left_join_inhabited
              (filter (λ cm, comment_on (collation db) t cm) (comments db)))
    as [cm Hcm].
  set (j := {| j_tt := tt; j_tac := tac; cr_own := own; cr_sub := sub; j_c := cm |}).
  assert (j ∈ group_rows db req t) as Hj.
  { apply elem_of_group_rows. split.
    - apply elem_of_technique_joins. simpl. repeat split; try done.
      + apply list_elem_of_filter. split; [|done].
        apply Is_true_true, eqb_weight. done.
      + apply list_elem_of_filter. split; [|done].
        apply Is_true_true, eqb_weight. done.
    - apply where_clause_spec. done. }
  exists (technique_object (aggregate (collation db) t (group_rows db req t))).
  split; [|done]. rewrite response_techniques by done.
  apply list_elem_of_fmap. eexists. split; [reflexivity|].
  unfold kept. apply list_elem_of_filter. split.
  - unfold skipped.
    destruct (String.eqb_spec (coverage_filter req) "covered"); [done|].
    destruct (String.eqb_spec (coverage_filter req) "uncovered"); done.
  - apply elem_of_techniques_query. exists t. split; [done|]. split; [|done].
    intros Hnil. rewrite Hnil in Hj. inversion Hj.
Qed.

Lemma eligible_technique_listed_witness :
  exists obj,
    obj ∈ m_techniques (matrix_success Sample.webshell Sample.all_of Sample.at_noon)
    /\ o_id obj = "u2" /\ o_attack_id obj = "T1505.001".
Proof.
  apply (eligible_technique_listed Sample.webshell Sample.all_of Sample.at_noon
           (matrix_success Sample.webshell Sample.all_of Sample.at_noon)
           (Sample.tech "u2" "T1505.001" false) (Sample.link "u2" "TA0003")
           Sample.persistence).
  - vm_compute. reflexivity.
  - by_evaluation.
  - by_evaluation.
  - by_evaluation.
  - reflexivity.
  - by_evaluation.
  - reflexivity.
  - reflexivity.
  - reflexivity.
  - intros p Hp. discriminate Hp.
  - intros f Hf. discriminate Hf.
  - discriminate.
  - discriminate.
Defined.

(** A version that [float] refuses turns the whole answer into the
    error response: the technique is listed by no success response. *)
Example version_refused :
  let db := Sample.store [Sample.persistence]
              [Sample.with_version (Sample.tech "u1" "T1505" false) "1.0a"]
              [Sample.link "u1" "TA0003"] [] in
  (get_ultimate_matrix db Sample.all_of Sample.at_noon).1 = ServerError.
Proof. vm_compute. reflexivity. Qed.

(** ** Ties of an ORDER BY *)

Lemma NoDup_fmap_elem_inj {A B} (f : A -> B) (l : list A) x y :
  NoDup (f <$> l) -> x ∈ l -> y ∈ l -> f x = f y -> x = y.
Proof.
  induction l as [|z l IH]; [by intros _ ?%elem_of_nil|].
  rewrite fmap_cons, NoDup_cons, !elem_of_cons, list_elem_of_fmap.
  intros [Hz Hnd] [->|Hx] [->|Hy] Heq; [done| | |by apply IH].
  - destruct Hz. by exists y.
  - destruct Hz. by exists x.
Qed.

(** Where the sort key tells all rows apart the result of an ORDER BY
    is the same list however the server enumerates the rows. *)
Section order_unique.
Context {A K : Type} (key : A -> K) (leK : K -> K -> bool).
Hypothesis leK_total : forall a b, leK a b = false -> leK b a = true.
Hypothesis leK_trans : forall a b c, leK a b = true -> leK b c = true -> leK a c = true.
Hypothesis leK_antisym : forall a b, leK a b = true -> leK b a = true -> a = b.

End order_unique.








(** ** Determinism *)




(** The rest of the response does read the clock. *)
Example generated_at_reads_clock db req w m :
  answers db req w m -> generated_at (m_matrix_info m) = utcnow w.
Proof. intros Ha. by apply answers_success in Ha as ->. Qed.

(** * The tactic list and statistics endpoints *)

Lemma count_distinct_same_values {R1 R2 V} `{EqDecision V}
    (e1 : R1 -> option V) (e2 : R2 -> option V) rows1 rows2 :
  (forall x, x ∈ omap e1 rows1 <-> x ∈ omap e2 rows2) ->
  Sql.count_distinct e1 rows1 = Sql.count_distinct e2 rows2.
Proof.
  intros Hiff. unfold Sql.count_distinct at 2.
  apply count_distinct_exact; [apply NoDup_remove_dups|].
  intros x. by rewrite elem_of_remove_dups.
Qed.

Lemma elem_of_only_joins db t k :
  k ∈ TacticsOnly.tactic_joins db t <->
  TacticsOnly.k_tt k
    ∈ Sql.left_join
        (filter (λ tt, Sql.eqb (collation db) (tac_id t) (tt_tactic_id tt))
                (technique_tactics db))
  /\ TacticsOnly.k_tech k
       ∈ Sql.left_join
           (filter (λ tech, Sql.holds (TacticsOnly.tech_on (collation db)
                                         (TacticsOnly.k_tt k) tech))
                   (techniques db)).
Proof.
  unfold TacticsOnly.tactic_joins. split.
  - intros H.
    apply list_elem_of_bind in H as (tt & H & Htt).
    apply list_elem_of_bind in H as (tech & H & Htech).
    apply list_elem_of_singleton in H. by subst k.
  - destruct k as [tt tech]. simpl. intros (Htt & Htech).
    apply list_elem_of_bind. exists tt. split; [|done].
    apply list_elem_of_bind. exists tech. split; [|done].
    by apply list_elem_of_singleton.
Qed.

(** The links seen by the joins of either tactic statement. *)
Lemma only_joins_links db t x :
  x ∈ omap (λ k, tt_technique_id <$> TacticsOnly.k_tt k)
           (TacticsOnly.tactic_joins db t)
  <-> x ∈ linked_ids db t.
Proof.
  unfold linked_ids. rewrite list_elem_of_omap, list_elem_of_fmap. split.
  - intros (k & Hk & Hx). apply elem_of_only_joins in Hk as (Htt & _).
    apply elem_of_left_join in Htt as [[Hn _]|(l & Hl & Hin)].
    + rewrite Hn in Hx. done.
    + rewrite Hl in Hx. exists l. split; [by injection Hx|done].
  - intros (l & -> & Hl).
    destruct (left_join_inhabited
                (filter (λ tech, Sql.holds (TacticsOnly.tech_on (collation db)
                                              (Some l) tech))
                        (techniques db))) as [tech Htech].
    exists {| TacticsOnly.k_tt := Some l; TacticsOnly.k_tech := tech |}.
    split; [|done]. apply elem_of_only_joins. simpl. split; [|done].
    apply elem_of_left_join. right. by exists l.
Qed.

Lemma only_count_links db t :
  Sql.count_distinct
    (Sql.key (collation db) (λ k, tt_technique_id <$> TacticsOnly.k_tt k))
    (TacticsOnly.tactic_joins db t)
  = len (remove_dups (Sql.weight (collation db) <$> linked_ids db t)).
Proof.
  apply count_distinct_exact; [apply NoDup_remove_dups|].
  intros x. rewrite elem_of_remove_dups, elem_of_omap_key, list_elem_of_fmap.
  setoid_rewrite only_joins_links. naive_solver.
Qed.

Lemma tactic_lines_of_list sv db :
  tactic_entry_line <$> (TacticsOnly.entry_of <$> TacticsOnly.tactics_query sv db)
  ≡ₚ (λ t, (tac_id t, x_mitre_shortname t,
            len (remove_dups (Sql.weight (collation db) <$> linked_ids db t))))
       <$> tactics db.
Proof.
  unfold TacticsOnly.tactics_query.
  rewrite <- list_fmap_compose, order_by_perm, <- list_fmap_compose.
  erewrite list_fmap_ext; [reflexivity|]. intros _ t _.
  unfold tactic_entry_line, TacticsOnly.entry_of, TacticsOnly.tactic_group. cbn.
  by rewrite only_count_links.
Qed.

Lemma tactic_lines_of_matrix sv db req :
  tactic_object_line <$> (tactic_object <$> tactics_query sv db req)
  ≡ₚ (λ t, (tac_id t, x_mitre_shortname t,
            len (remove_dups (Sql.weight (collation db) <$> linked_ids db t))))
       <$> tactics db.
Proof.
  unfold tactics_query.
  rewrite <- list_fmap_compose, order_by_perm, <- list_fmap_compose.
  erewrite list_fmap_ext; [reflexivity|]. intros _ t _.
  unfold tactic_object_line, tactic_object.
  cbn [a_id a_shortname a_techniques_count compose].
  by rewrite techniques_count_counts_links.
Qed.

#[global] Instance by_line_rank_transitive c : Transitive (by_line_rank c).
Proof. unfold by_line_rank. intros x y z. lia. Qed.

(** When both handlers answer, the tactic list and the matrix give the
    same tactics with the same technique counts, both in the order of the
    kill chain.  Tactics of the same rank come in the order the server
    leaves them in, which may differ between the two statements; where
    the ranks tell all tactics apart the two lists are equal. *)
Theorem tactic_list_agrees_with_matrix db req w w' m r :
  answers db req w m ->
  TacticsOnly.get_tactics_only db w' = Ok r ->
  tactic_entry_line <$> TacticsOnly.r_tactics r
  ≡ₚ tactic_object_line <$> m_tactics m
  /\ StronglySorted (by_line_rank (collation db))
       (tactic_entry_line <$> TacticsOnly.r_tactics r)
  /\ StronglySorted (by_line_rank (collation db))
       (tactic_object_line <$> m_tactics m)
  /\ (NoDup (tactic_rank (collation db) <$> tactics db) ->
      tactic_entry_line <$> TacticsOnly.r_tactics r
      = tactic_object_line <$> m_tactics m)
  /\ TacticsOnly.r_total r = len (tactics db).
Proof.
  intros Ha Hr. apply answers_success in Ha as ->.
  unfold TacticsOnly.get_tactics_only in Hr.
  destruct (Sql.raises (server w')); [done|]. injection Hr as <-.
  cbn [TacticsOnly.r_tactics TacticsOnly.r_total m_tactics matrix_success].
  set (c := collation db).
  pose proof (tactic_lines_of_list (server w') db) as Hlist.
  pose proof (tactic_lines_of_matrix (server w) db req) as Hmatrix.
  assert (StronglySorted (by_line_rank c)
            (tactic_entry_line
               <$> (TacticsOnly.entry_of
                      <$> TacticsOnly.tactics_query (server w') db))) as Hs1.
  { rewrite <- list_fmap_compose. apply Sorted_StronglySorted; [apply _|].
    apply (Sorted_fmap _ (λ a b, TacticsOnly.by_kill_chain c a b = true)
                       (by_line_rank c)).
    { intros a b. unfold TacticsOnly.by_kill_chain, by_line_rank. cbn.
      apply Z.leb_le. }
    apply (order_by_sorted (TacticsOnly.by_kill_chain c)).
    unfold TacticsOnly.by_kill_chain. intros a b. lia. }
  assert (StronglySorted (by_line_rank c)
            (tactic_object_line
               <$> (tactic_object <$> tactics_query (server w) db req))) as Hs2.
  { rewrite <- list_fmap_compose. apply Sorted_StronglySorted; [apply _|].
    apply (Sorted_fmap _ (λ a b, by_kill_chain c a b = true) (by_line_rank c)).
    { intros a b. unfold by_kill_chain, by_line_rank. cbn. apply Z.leb_le. }
    apply (order_by_sorted (by_kill_chain c)).
    unfold by_kill_chain. intros a b. lia. }
  split; [by rewrite Hlist, Hmatrix|]. split; [done|]. split; [done|]. split.
  - intros Hnd.
    apply (StronglySorted_unique_strong (by_line_rank c)); [|done|done|].
    + intros x y Hx Hy Hxy Hyx. rewrite Hlist in Hx. rewrite Hmatrix in Hy.
      apply list_elem_of_fmap in Hx as (t1 & -> & Ht1).
      apply list_elem_of_fmap in Hy as (t2 & -> & Ht2).
      unfold by_line_rank in Hxy, Hyx. cbn in Hxy, Hyx.
      assert (t1 = t2) as ->; [|done].
      apply (NoDup_fmap_elem_inj (tactic_rank c) (tactics db)); try done.
      unfold tactic_rank. lia.
    + by rewrite Hlist, Hmatrix.
  - unfold len, TacticsOnly.tactics_query.
    by rewrite length_fmap, order_by_perm, length_fmap.
Qed.

Lemma tactic_list_agrees_with_matrix_witness :
  let m := matrix_success Sample.covered_by_sub Sample.all_of Sample.at_noon in
  let r := default {| TacticsOnly.r_tactics := []; TacticsOnly.r_total := 0 |}
             (data_of (TacticsOnly.get_tactics_only Sample.covered_by_sub
                         Sample.at_noon)) in
  tactic_entry_line <$> TacticsOnly.r_tactics r
  ≡ₚ tactic_object_line <$> m_tactics m
  /\ StronglySorted (by_line_rank Sql.ascii_ci)
       (tactic_entry_line <$> TacticsOnly.r_tactics r)
  /\ StronglySorted (by_line_rank Sql.ascii_ci)
       (tactic_object_line <$> m_tactics m)
  /\ (NoDup (tactic_rank Sql.ascii_ci <$> tactics Sample.covered_by_sub) ->
      tactic_entry_line <$> TacticsOnly.r_tactics r
      = tactic_object_line <$> m_tactics m)
  /\ TacticsOnly.r_total r = len (tactics Sample.covered_by_sub).
Proof.
  apply (tactic_list_agrees_with_matrix Sample.covered_by_sub Sample.all_of
           Sample.at_noon Sample.at_noon).
  - vm_compute. reflexivity.
  - vm_compute. reflexivity.
Defined.

(** Two tactics outside the kill chain of the statement have the same
    rank, and the two endpoints may list them in different orders. *)
Example tie_order_differs :
  let db := Sample.store [Sample.reconnaissance; Sample.resource_development]
              [] [] [] in
  (λ m, a_shortname <$> m_tactics m)
    <$> data_of (get_ultimate_matrix db Sample.all_of Sample.at_noon).1
  = Some ["reconnaissance"; "resource-development"]
  /\ (λ r, TacticsOnly.e_shortname <$> TacticsOnly.r_tactics r)
       <$> data_of (TacticsOnly.get_tactics_only db Sample.at_midnight)
     = Some ["resource-development"; "reconnaissance"].
Proof. split; vm_compute; reflexivity. Qed.

Lemma count_distinct_ext {R V} `{EqDecision V} (e1 e2 : R -> option V) rows :
  (forall j, e1 j = e2 j) ->
  Sql.count_distinct e1 rows = Sql.count_distinct e2 rows.
Proof.
  intros Hext. unfold Sql.count_distinct.
  assert (omap e1 rows = omap e2 rows) as ->; [|done].
  induction rows as [|j rows IH]; [done|]. csimpl. by rewrite Hext, IH.
Qed.

(** A DISTINCT count splits along any test on the counted value. *)
Lemma count_distinct_split {R V} `{EqDecision V} (key : R -> V) (p : V -> bool)
    (rows : list R) :
  Sql.count_distinct (λ j, Some (key j)) rows
  = Sql.count_distinct (λ j, if p (key j) then None else Some (key j)) rows
    + Sql.count_distinct (λ j, if p (key j) then Some (key j) else None) rows.
Proof.
  set (D := remove_dups (key <$> rows)).
  assert (NoDup D) as HD by apply NoDup_remove_dups.
  assert (forall x, x ∈ D <-> exists j, j ∈ rows /\ key j = x) as HDin.
  { intros x. unfold D. rewrite elem_of_remove_dups, list_elem_of_fmap.
    naive_solver. }
  rewrite (count_distinct_exact _ rows D); [|done|].
  2:{ intros x. rewrite HDin, list_elem_of_omap. naive_solver. }
  rewrite (count_distinct_exact _ rows (filter (λ x, p x = false) D)).
  2:{ by apply NoDup_filter. }
  2:{ intros x. rewrite list_elem_of_filter, HDin, list_elem_of_omap. split.
      - intros (j & Hj & Hx). destruct (p (key j)) eqn:Hp; [done|].
        injection Hx as <-. eauto.
      - intros (Hp & j & Hj & <-). exists j. by rewrite Hp. }
  rewrite (count_distinct_exact _ rows (filter (λ x, p x = true) D)).
  2:{ by apply NoDup_filter. }
  2:{ intros x. rewrite list_elem_of_filter, HDin, list_elem_of_omap. split.
      - intros (j & Hj & Hx). destruct (p (key j)) eqn:Hp; [|done].
        injection Hx as <-. eauto.
      - intros (Hp & j & Hj & <-). exists j. by rewrite Hp. }
  apply len_split.
Qed.

Lemma attack_id_when_values c (rows : list Statistics.stats_join) (x : string) :
  x ∈ omap (Statistics.attack_id_when c) rows ->
  x ∈ omap (λ j, Some (attack_id (Statistics.s_t j))) rows.
Proof. apply case_when_values. Qed.

Lemma count_distinct_ext_in {R V} `{EqDecision V} (e1 e2 : R -> option V) rows :
  (forall j, j ∈ rows -> e1 j = e2 j) ->
  Sql.count_distinct e1 rows = Sql.count_distinct e2 rows.
Proof.
  intros Hext. unfold Sql.count_distinct.
  assert (omap e1 rows = omap e2 rows) as ->; [|done].
  induction rows as [|j rows IH]; [done|]. csimpl.
  rewrite Hext by apply list_elem_of_here.
  rewrite IH; [done|]. intros j' Hj'. apply Hext. by right.
Qed.

(** A DISTINCT count splits along a test on the rows that gives the same
    on rows of the same counted value. *)
Lemma count_distinct_split_by {R V} `{EqDecision V} (key : R -> V) (t : R -> bool)
    (rows : list R) :
  (forall j j', j ∈ rows -> j' ∈ rows -> key j = key j' -> t j = t j') ->
  Sql.count_distinct (λ j, Some (key j)) rows
  = Sql.count_distinct (λ j, if t j then None else Some (key j)) rows
    + Sql.count_distinct (λ j, if t j then Some (key j) else None) rows.
Proof.
  intros Hinv.
  set (p := λ x, existsb (λ j, bool_decide (key j = x) && t j) rows).
  assert (forall j, j ∈ rows -> p (key j) = t j) as Hp.
  { intros j Hj. unfold p. destruct (t j) eqn:Htj.
    - apply existsb_exists. exists j. split; [by apply list_elem_of_In|].
      by rewrite bool_decide_eq_true_2, Htj.
    - apply not_true_is_false. intros (j' & Hj' & Hand)%existsb_exists.
      apply list_elem_of_In in Hj'. apply andb_prop in Hand as [Hk Ht].
      apply bool_decide_eq_true_1 in Hk.
      rewrite (Hinv j' j Hj' Hj Hk) in Ht. congruence. }
  rewrite (count_distinct_split key p rows).
  f_equal; apply count_distinct_ext_in; intros j Hj; by rewrite (Hp j Hj).
Qed.

(** In the overview of the statistics endpoint the active, deprecated
    and covered counts are parts of the total, and the active rules part
    of the rules; every technique counted is either a parent or a
    sub-technique where the dot test does not tell apart identifiers that
    the store takes for equal (as it is under the binary collation, and
    under every collation whose sort key is the classes of the
    characters). *)
Theorem statistics_overview_balance db platforms_stats w d :
  Statistics.get_matrix_statistics db platforms_stats w = Ok d ->
  let o := Statistics.sd_overview d in
  (Sql.like_respects (collation db) "%.%" ->
   Statistics.ov_parent_techniques o + Statistics.ov_subtechniques o
   = Statistics.ov_total_techniques o)
  /\ 0 <= Statistics.ov_covered_techniques o <= Statistics.ov_total_techniques o
  /\ 0 <= Statistics.ov_uncovered_techniques o <= Statistics.ov_total_techniques o
  /\ 0 <= Statistics.ov_active_techniques o <= Statistics.ov_total_techniques o
  /\ 0 <= Statistics.ov_deprecated_techniques o <= Statistics.ov_total_techniques o
  /\ 0 <= Statistics.ov_active_rules o <= Statistics.ov_total_rules o.
Proof.
  unfold Statistics.get_matrix_statistics.
  destruct (Sql.raises (server w)); [done|]. intros [= <-].
  unfold Statistics.statistics_success.
  cbn -[Sql.count_distinct Sql.like Sql.key].
  set (c := collation db).
  set (rows := Statistics.stats_rows db).
  set (total := Sql.count_distinct
                  (Sql.key c (λ j, Some (attack_id (Statistics.s_t j)))) rows).
  assert (forall cond,
            0 <= Sql.count_distinct (Sql.key c (Statistics.attack_id_when cond)) rows
            <= total)
    as Hpart.
  { intros cond. split; [apply count_distinct_nonneg|].
    apply count_distinct_mono, key_mono. intros x. apply attack_id_when_values. }
  pose proof (Hpart (λ t, Some (Statistics.has_live_rule db t))) as Hcov.
  split; [|split; [|split; [|split; [|split]]]].
  - intros Hresp. unfold total.
    rewrite (count_distinct_ext
               (Sql.key c (λ j, Some (attack_id (Statistics.s_t j))))
               (λ j, Some (Sql.weight c (attack_id (Statistics.s_t j)))) rows)
      by (intros j; reflexivity).
    rewrite (count_distinct_split_by
               (λ j, Sql.weight c (attack_id (Statistics.s_t j)))
               (λ j, Sql.like c "%.%" (attack_id (Statistics.s_t j))) rows)
      by (intros j j' _ _ Hk; by apply Hresp).
    f_equal; apply count_distinct_ext; intros j;
      unfold Sql.key, Statistics.attack_id_when, Statistics.sub_like, Sql.case_when;
      by destruct (Sql.like c "%.%" (attack_id (Statistics.s_t j))).
  - exact Hcov.
  - lia.
  - apply Hpart.
  - apply Hpart.
  - split; [apply count_distinct_nonneg|].
    apply count_distinct_mono, key_mono. intros x. apply case_when_values.
Qed.

Lemma statistics_overview_balance_witness :
  let o := Statistics.sd_overview
             (Statistics.statistics_success Sample.webshell [] Sample.at_noon) in
  (Sql.like_respects Sql.ascii_ci "%.%" ->
   Statistics.ov_parent_techniques o + Statistics.ov_subtechniques o
   = Statistics.ov_total_techniques o)
  /\ 0 <= Statistics.ov_covered_techniques o <= Statistics.ov_total_techniques o
  /\ 0 <= Statistics.ov_uncovered_techniques o <= Statistics.ov_total_techniques o
  /\ 0 <= Statistics.ov_active_techniques o <= Statistics.ov_total_techniques o
  /\ 0 <= Statistics.ov_deprecated_techniques o <= Statistics.ov_total_techniques o
  /\ 0 <= Statistics.ov_active_rules o <= Statistics.ov_total_rules o.
Proof.
  apply (statistics_overview_balance Sample.webshell [] Sample.at_noon).
  vm_compute. reflexivity.
Defined.

Lemma has_live_rule_spec db tech :
  Statistics.has_live_rule db tech = true
  <-> exists cr, cr ∈ correlation_rules db
                 /\ Sql.holds (cr_on (collation db) (Some tech) cr) = true.
Proof.
  unfold Statistics.has_live_rule. rewrite existsb_exists.
  setoid_rewrite <- list_elem_of_In. naive_solver.
Qed.

Lemma cr_on_live c tech cr :
  Sql.holds (cr_on c tech cr) = true ->
  Sql.holds (active_not_deleted c (Some cr)) = true.
Proof.
  unfold cr_on, active_not_deleted. rewrite !holds_and3. simpl. tauto.
Qed.

Lemma holds_eq_link c (tt : option technique_tactic) tech :
  Sql.holds (Sql.eq_str c (tt_technique_id <$> tt) (Some (t_id tech))) = true ->
  exists l, tt = Some l.
Proof. destruct tt as [l|]; simpl; [eauto|done]. Qed.

(** The techniques a tactic is credited with by the matrix statement. *)
Lemma matrix_covered_values db req t x :
  x ∈ omap (covered_id (collation db)) (tactic_joins db req t) <->
  exists l tech,
    l ∈ technique_tactics db
    /\ Sql.eqb (collation db) (tac_id t) (tt_tactic_id l) = true
    /\ tech ∈ techniques db /\ Sql.holds (tech_on db req (Some l) tech) = true
    /\ Statistics.has_live_rule db tech = true /\ x = t_id tech.
Proof.
  rewrite list_elem_of_omap. split.
  - intros (k & Hk & Hx). apply elem_of_tactic_joins in Hk as (Htt & Htech & Hcr).
    unfold covered_id, Sql.case_when in Hx.
    destruct (Sql.holds (active_not_deleted _ (k_cr k))) eqn:Hlive; [|done].
    destruct (k_tech k) as [tech|] eqn:Hk_tech; [|done]. injection Hx as <-.
    apply elem_of_left_join in Htech as [[? _]|(tech' & [= <-] & Htech)]; [done|].
    apply list_elem_of_filter in Htech as [Hon Htech]. apply Is_true_true in Hon.
    pose proof Hon as Hon'. unfold tech_on in Hon'. rewrite !holds_and3 in Hon'.
    destruct Hon' as [[[Heq _] _] _].
    apply holds_eq_link in Heq as (l & Hl). rewrite Hl in *.
    apply elem_of_left_join in Htt as [[? _]|(l' & [= <-] & Hl')]; [done|].
    apply list_elem_of_filter in Hl' as [Htac Hl'].
    apply Is_true_true in Htac.
    destruct (k_cr k) as [cr|]; [|done].
    apply elem_of_left_join in Hcr as [[? _]|(cr' & [= <-] & Hcr)]; [done|].
    apply list_elem_of_filter in Hcr as [Hcron Hcr]. apply Is_true_true in Hcron.
    exists l, tech. repeat split; try done.
    apply has_live_rule_spec. eauto.
  - intros (l & tech & Hl & Htac & Htech & Hon & Hlive & ->).
    apply has_live_rule_spec in Hlive as (cr & Hcr & Hcron).
    exists {| k_tt := Some l; k_tech := Some tech; k_cr := Some cr |}. split.
    + apply elem_of_tactic_joins. simpl. repeat split.
      * apply elem_of_left_join. right. exists l. split; [done|].
        apply list_elem_of_filter. split; [|done]. by apply Is_true_true.
      * apply elem_of_left_join. right. exists tech. split; [done|].
        apply list_elem_of_filter. split; [|done]. by apply Is_true_true.
      * apply elem_of_left_join. right. exists cr. split; [done|].
        apply list_elem_of_filter. split; [|done]. by apply Is_true_true.
    + unfold covered_id, Sql.case_when. cbn [k_cr k_tech].
      by rewrite (cr_on_live _ _ _ Hcron).
Qed.

(** The same for the statistics statement. *)
Lemma statistics_covered_values db t x :
  x ∈ omap (Statistics.covered_id db) (TacticsOnly.tactic_joins db t) <->
  exists l tech,
    l ∈ technique_tactics db
    /\ Sql.eqb (collation db) (tac_id t) (tt_tactic_id l) = true
    /\ tech ∈ techniques db
    /\ Sql.holds (TacticsOnly.tech_on (collation db) (Some l) tech) = true
    /\ Statistics.has_live_rule db tech = true /\ x = t_id tech.
Proof.
  rewrite list_elem_of_omap. split.
  - intros (k & Hk & Hx). apply elem_of_only_joins in Hk as (Htt & Htech).
    unfold Statistics.covered_id, Sql.case_when in Hx.
    destruct (TacticsOnly.k_tech k) as [tech|] eqn:Hk_tech; [|done].
    simpl in Hx. destruct (Statistics.has_live_rule db tech) eqn:Hlive; [|done].
    injection Hx as <-.
    apply elem_of_left_join in Htech as [[? _]|(tech' & [= <-] & Htech)]; [done|].
    apply list_elem_of_filter in Htech as [Hon Htech]. apply Is_true_true in Hon.
    pose proof Hon as Hon'. unfold TacticsOnly.tech_on in Hon'.
    rewrite !holds_and3 in Hon'. destruct Hon' as [[Heq _] _].
    apply holds_eq_link in Heq as (l & Hl). rewrite Hl in *.
    apply elem_of_left_join in Htt as [[? _]|(l' & [= <-] & Hl')]; [done|].
    apply list_elem_of_filter in Hl' as [Htac Hl'].
    apply Is_true_true in Htac.
    exists l, tech. repeat split; done.
  - intros (l & tech & Hl & Htac & Htech & Hon & Hlive & ->).
    exists {| TacticsOnly.k_tt := Some l; TacticsOnly.k_tech := Some tech |}. split.
    + apply elem_of_only_joins. simpl. split.
      * apply elem_of_left_join. right. exists l. split; [done|].
        apply list_elem_of_filter. split; [|done]. by apply Is_true_true.
      * apply elem_of_left_join. right. exists tech. split; [done|].
        apply list_elem_of_filter. split; [|done]. by apply Is_true_true.
    + unfold Statistics.covered_id, Sql.case_when. simpl. by rewrite Hlive.
Qed.

(** Without a platform filter and without deprecated techniques the two
    statements join the same techniques to a link. *)
Lemma tech_on_default db req tt tech :
  include_deprecated req = false -> platform_filter req = None ->
  Sql.holds (tech_on db req tt tech)
  = Sql.holds (TacticsOnly.tech_on (collation db) tt tech).
Proof.
  intros Hdep Hplat. unfold tech_on, TacticsOnly.tech_on.
  rewrite Hdep, Hplat. simpl.
  destruct (Sql.eq_str _ _ _) as [[]|], (revoked tech) as [[]|],
    (deprecated tech) as [[]|]; reflexivity.
Qed.

Lemma tactic_lines_agree db req t :
  include_deprecated req = false -> platform_filter req = None ->
  statistics_tactic_line (Statistics.tactic_stats_of (Statistics.tactic_stats_group db t))
  = matrix_tactic_line (tactic_object (tactic_group db req t)).
Proof.
  intros Hdep Hplat.
  assert (Statistics.ts_techniques_count (Statistics.tactic_stats_group db t)
          = techniques_count (tactic_group db req t)) as Hcount.
  { rewrite techniques_count_counts_links. apply only_count_links. }
  assert (Statistics.ts_covered_count (Statistics.tactic_stats_group db t)
          = covered_techniques_count (tactic_group db req t)) as Hcov.
  { apply count_distinct_same_values. intros x. rewrite !elem_of_omap_key.
    setoid_rewrite matrix_covered_values.
    setoid_rewrite statistics_covered_values.
    by setoid_rewrite (tech_on_default db req). }
  unfold statistics_tactic_line, matrix_tactic_line, Statistics.tactic_stats_of,
    tactic_object.
  cbn [Statistics.bt_tactic Statistics.bt_techniques Statistics.bt_covered
       Statistics.bt_coverage_percentage a_shortname a_techniques_count
       a_covered_techniques_count a_coverage_percentage].
  rewrite Hcount, Hcov.
  cbn [Statistics.tactic_stats_group Statistics.ts_shortname tactic_group row_tac].
  set (n := techniques_count _).
  replace (negb (n =? 0) && (0 <? n)) with (0 <? n); [done|].
  destruct (Z.ltb_spec 0 n), (Z.eqb_spec n 0); simpl; (done || lia).
Qed.

(** For a request without platform filter and without deprecated
    techniques, the tactic breakdown of the statistics endpoint gives, for
    each tactic, the technique count, covered count and percentage that
    the matrix gives; it lists the tactics by descending technique count. *)
Theorem statistics_tactics_agree_with_matrix db req w m platforms_stats w' d :
  answers db req w m ->
  Statistics.get_matrix_statistics db platforms_stats w' = Ok d ->
  include_deprecated req = false -> platform_filter req = None ->
  statistics_tactic_line <$> Statistics.sd_by_tactics d
    ≡ₚ matrix_tactic_line <$> m_tactics m
  /\ StronglySorted more_techniques (Statistics.sd_by_tactics d).
Proof.
  intros Ha Hd Hdep Hplat. apply answers_success in Ha as ->.
  unfold Statistics.get_matrix_statistics in Hd.
  destruct (Sql.raises (server w')); [done|]. injection Hd as <-. split.
  - simpl. unfold Statistics.tactics_stats_query, tactics_query.
    rewrite <- !list_fmap_compose, !order_by_perm, <- !list_fmap_compose.
    erewrite list_fmap_ext; [reflexivity|].
    intros _ t _. by apply tactic_lines_agree.
  - simpl. apply Sorted_StronglySorted.
    { unfold more_techniques. intros a b c. lia. }
    apply (Sorted_fmap _ (λ a b, Statistics.by_count_desc a b = true) more_techniques).
    { intros a b. unfold more_techniques, Statistics.by_count_desc. simpl.
      apply Z.leb_le. }
    apply (order_by_sorted Statistics.by_count_desc).
    unfold Statistics.by_count_desc. intros a b. rewrite Z.leb_gt, Z.leb_le. lia.
Qed.

Lemma statistics_tactics_agree_with_matrix_witness :
  let d := Statistics.statistics_success Sample.one_revoked [] Sample.at_noon in
  let m := matrix_success Sample.one_revoked Sample.all_of Sample.at_noon in
  statistics_tactic_line <$> Statistics.sd_by_tactics d
    ≡ₚ matrix_tactic_line <$> m_tactics m
  /\ StronglySorted more_techniques (Statistics.sd_by_tactics d).
Proof.
  apply (statistics_tactics_agree_with_matrix
           Sample.one_revoked Sample.all_of Sample.at_noon
           (matrix_success Sample.one_revoked Sample.all_of Sample.at_noon)
           [] Sample.at_noon).
  - vm_compute. reflexivity.
  - vm_compute. reflexivity.
  - reflexivity.
  - reflexivity.
Defined.

(** * The helper functions *)

(** ** LIKE patterns built with [escape_like_pattern] *)

Lemma str_app_cons x (a b : string) :
  (String x a ++ b)%string = String x (a ++ b).
Proof. reflexivity. Qed.

Lemma str_app_assoc (a b c : string) :
  ((a ++ b) ++ c = a ++ (b ++ c))%string.
Proof. induction a as [|x a IH]; [done|]. by rewrite !str_app_cons, IH. Qed.

Lemma str_app_nil (a : string) : (a ++ EmptyString)%string = a.
Proof. induction a as [|x a IH]; [done|]. by rewrite str_app_cons, IH. Qed.

Lemma replace_char_app c by_ a b :
  Helpers.replace_char c by_ (a ++ b)%string
  = (Helpers.replace_char c by_ a ++ Helpers.replace_char c by_ b)%string.
Proof.
  induction a as [|d a IH]; [done|].
  rewrite str_app_cons. cbn [Helpers.replace_char].
  destruct (Ascii.eqb d c); rewrite IH; [|done]. by rewrite str_app_assoc.
Qed.

Lemma escape_like_pattern_cons c s :
  Helpers.escape_like_pattern (String c s)
  = ((if Ascii.eqb c "%" then "\%"
      else if Ascii.eqb c "_" then "\_" else String c EmptyString)
     ++ Helpers.escape_like_pattern s)%string.
Proof.
  unfold Helpers.escape_like_pattern. cbn [Helpers.replace_char].
  destruct (Ascii.eqb_spec c "%") as [->|Hp].
  - by rewrite replace_char_app.
  - cbn [Helpers.replace_char]. destruct (Ascii.eqb_spec c "_") as [->|Hu]; done.
Qed.

Lemma like_escaped c e p s :
  Sql.like c (String "\" (String e p)) s
  = match s with
    | EmptyString => false
    | String d s' => Sql.similar c e d && Sql.like c p s'
    end.
Proof. by destruct s. Qed.

Lemma like_after_escaped co s q x :
  no_backslash s = true ->
  Sql.like co (Helpers.escape_like_pattern s ++ q) x
  = match after_prefix co s x with
    | Some rest => Sql.like co q rest
    | None => false
    end.
Proof.
  revert x. induction s as [|c s IH]; intros x Hs.
  - by destruct x.
  - unfold no_backslash in Hs. simpl in Hs. apply andb_prop in Hs as [Hc Hs].
    apply negb_true_iff in Hc.
    rewrite escape_like_pattern_cons.
    destruct (Ascii.eqb_spec c "%") as [->|Hp];
      [|destruct (Ascii.eqb_spec c "_") as [->|Hu]].
    + change (("\%" ++ ?a) ++ ?b)%string with (String "\" (String "%" (a ++ b))).
      rewrite like_escaped. destruct x as [|d x]; [done|]. cbn [after_prefix].
      destruct (Sql.similar co "%" d); [by apply IH|done].
    + change (("\_" ++ ?a) ++ ?b)%string with (String "\" (String "_" (a ++ b))).
      rewrite like_escaped. destruct x as [|d x]; [done|]. cbn [after_prefix].
      destruct (Sql.similar co "_" d); [by apply IH|done].
    + change ((String c EmptyString ++ ?a) ++ ?b)%string with (String c (a ++ b)).
      rewrite like_literal.
      2:{ unfold wildcard. apply Ascii.eqb_neq in Hp, Hu. by rewrite Hp, Hu, Hc. }
      destruct x as [|d x]; [done|]. cbn [after_prefix].
      destruct (Sql.similar co c d); [by apply IH|done].
Qed.

Lemma after_prefix_eqb co s x :
  match after_prefix co s x with
  | Some EmptyString => true
  | _ => false
  end = String.eqb (Sql.folded co s) (Sql.folded co x).
Proof.
  revert x. induction s as [|c s IH]; intros [|d x]; try done.
  rewrite !folded_cons. cbn [after_prefix String.eqb]. unfold Sql.similar.
  destruct (Ascii.eqb (Sql.fold co c) (Sql.fold co d)); [apply IH|done].
Qed.

Lemma after_prefix_prefix co s x :
  match after_prefix co s x with Some _ => true | None => false end
  = String.prefix (Sql.folded co s) (Sql.folded co x).
Proof.
  revert x. induction s as [|c s IH]; intros [|d x]; try done.
  rewrite !folded_cons, prefix_cons. cbn [after_prefix]. unfold Sql.similar.
  destruct (Ascii.eqb (Sql.fold co c) (Sql.fold co d)); [apply IH|done].
Qed.

(** A string without backslash, once escaped, is a LIKE pattern that
    matches the strings that are character by character of the classes of
    its characters, and nothing else; followed by [%] it matches exactly
    the strings that start with such a string.  Under a binary collation
    these are the string itself and the strings it is a prefix of. *)
Theorem escape_like_pattern_literal c s x :
  no_backslash s = true ->
  Sql.like c (Helpers.escape_like_pattern s) x
  = String.eqb (Sql.folded c s) (Sql.folded c x)
  /\ Sql.like c (Helpers.escape_like_pattern s ++ "%") x
     = String.prefix (Sql.folded c s) (Sql.folded c x)
  /\ Sql.like Sql.binary (Helpers.escape_like_pattern s) x = String.eqb s x
  /\ Sql.like Sql.binary (Helpers.escape_like_pattern s ++ "%") x
     = String.prefix s x.
Proof.
  intros Hs.
  assert (forall co,
            Sql.like co (Helpers.escape_like_pattern s) x
            = String.eqb (Sql.folded co s) (Sql.folded co x)
            /\ Sql.like co (Helpers.escape_like_pattern s ++ "%") x
               = String.prefix (Sql.folded co s) (Sql.folded co x)) as Hall.
  { intros co. split.
    - rewrite <- after_prefix_eqb.
      rewrite <- (str_app_nil (Helpers.escape_like_pattern s)).
      rewrite like_after_escaped by done.
      destruct (after_prefix co s x) as [[|d r]|]; done.
    - rewrite <- after_prefix_prefix, like_after_escaped by done.
      destruct (after_prefix co s x); [apply like_any|done]. }
  destruct (Hall c) as [H1 H2]. destruct (Hall Sql.binary) as [H3 H4].
  rewrite H1, H2, H3, H4. by rewrite !folded_binary.
Qed.

Lemma escape_like_pattern_literal_witness :
  Sql.like Sql.ascii_ci (Helpers.escape_like_pattern "T_1%") "t_1%"
  = String.eqb (Sql.folded Sql.ascii_ci "T_1%") (Sql.folded Sql.ascii_ci "t_1%")
  /\ Sql.like Sql.ascii_ci (Helpers.escape_like_pattern "T_1%" ++ "%") "t_1%"
     = String.prefix (Sql.folded Sql.ascii_ci "T_1%") (Sql.folded Sql.ascii_ci "t_1%")
  /\ Sql.like Sql.binary (Helpers.escape_like_pattern "T_1%") "t_1%"
     = String.eqb "T_1%" "t_1%"
  /\ Sql.like Sql.binary (Helpers.escape_like_pattern "T_1%" ++ "%") "t_1%"
     = String.prefix "T_1%" "t_1%".
Proof.
  apply (escape_like_pattern_literal Sql.ascii_ci "T_1%" "t_1%"). reflexivity.
Defined.

(** Under a collation without regard to case the escaped pattern also
    matches the other spellings of the string; spaces at the end of the
    text count for [LIKE] also where [=] leaves them out. *)
Example escape_like_pattern_case :
  Sql.like Sql.ascii_ci (Helpers.escape_like_pattern "T_1%") "t_1%" = true
  /\ Sql.like Sql.binary (Helpers.escape_like_pattern "T_1%") "t_1%" = false
  /\ Sql.like Sql.ascii_ci_pad (Helpers.escape_like_pattern "T_1%") "T_1% " = false
  /\ Sql.eqb Sql.ascii_ci_pad "T_1%" "T_1% " = true.
Proof. repeat split; reflexivity. Qed.

(** The backslash itself is not escaped: the pattern built from the two
    characters backslash and [a] no longer matches them. *)
Example escape_like_pattern_backslash :
  Sql.like Sql.binary (Helpers.escape_like_pattern "\a") "\a" = false
  /\ Sql.like Sql.binary (Helpers.escape_like_pattern "\a") "a" = true.
Proof. split; reflexivity. Qed.

(** ** Pagination *)

Lemma clamp_value_range v lo hi :
  lo <= hi -> lo <= Helpers.clamp_value v lo hi <= hi.
Proof. unfold Helpers.clamp_value. lia. Qed.

(** The call raises exactly when the offset of the page asked for is
    above what the store takes.  When it returns, a page holds at most
    [per_page] rows with [per_page] between 1 and 1000, the page number is
    at least 1, [pages] is the number of pages needed for all rows, and
    [has_next] and [has_prev] say whether a later or an earlier page
    exists. *)
Theorem paginate_query_bounds {A} max_offset (query : list A) page per_page :
  match Helpers.paginate_query max_offset query page per_page with
  | None => max_offset < (Z.max 1 page - 1) * Helpers.clamp_value per_page 1 1000
  | Some r =>
      let pg := r.2 in
      (Helpers.pg_page pg - 1) * Helpers.pg_per_page pg <= max_offset
      /\ 1 <= Helpers.pg_per_page pg <= 1000
      /\ 1 <= Helpers.pg_page pg
      /\ len r.1 <= Helpers.pg_per_page pg
      /\ Helpers.pg_total pg = len query
      /\ (Helpers.pg_pages pg - 1) * Helpers.pg_per_page pg < len query
         <= Helpers.pg_pages pg * Helpers.pg_per_page pg
      /\ (Helpers.pg_pages pg = 0 <-> query = [])
      /\ (Helpers.pg_has_next pg = true <-> Helpers.pg_page pg < Helpers.pg_pages pg)
      /\ (Helpers.pg_has_prev pg = true <-> 1 < Helpers.pg_page pg)
  end.
Proof.
  unfold Helpers.paginate_query.
  pose proof (clamp_value_range per_page 1 1000 ltac:(lia)) as Hper.
  set (per := Helpers.clamp_value per_page 1 1000) in *.
  set (pg := Z.max 1 page).
  destruct (Z.ltb_spec max_offset ((pg - 1) * per)) as [Hout|Hin]; [done|].
  cbn [fst snd Helpers.pg_per_page Helpers.pg_page
       Helpers.pg_total Helpers.pg_pages Helpers.pg_has_next Helpers.pg_has_prev].
  assert (0 <= len query) as Hlen by (unfold len; lia).
  set (pages := (len query + per - 1) / per).
  assert ((pages - 1) * per < len query <= pages * per) as Hpages.
  { pose proof (Z.div_mod (len query + per - 1) per ltac:(lia)) as Hdm.
    pose proof (Z.mod_pos_bound (len query + per - 1) per ltac:(lia)) as Hmod.
    fold pages in Hdm. nia. }
  split; [done|]. split; [done|]. split; [lia|]. split.
  { unfold len. rewrite length_take. lia. }
  split; [done|]. split; [lia|]. split.
  { split.
    - intros H0. rewrite H0 in Hpages. destruct query; [done|].
      unfold len in Hpages. simpl in Hpages. lia.
    - intros ->. unfold pages, len. simpl.
      apply Z.div_small. lia. }
  split.
  - rewrite Z.ltb_lt. split; [nia|]. intros Hlt. nia.
  - apply Z.ltb_lt.
Qed.

(** A page number from the URL has no bound; the store's offset has. *)
Example paginate_query_raises :
  Helpers.paginate_query (2 ^ 64 - 1) [1; 2; 3] (2 ^ 64) 20 = None
  /\ (fst <$> Helpers.paginate_query (2 ^ 64 - 1) [1; 2; 3] 2 2) = Some [3].
Proof. split; vm_compute; reflexivity. Qed.

Lemma page_items_spec {A} max_offset (query : list A) per_page (p : nat) :
  (1 <= p)%nat ->
  let per := Helpers.clamp_value per_page 1 1000 in
  let n := Z.to_nat per in
  page_items max_offset query per_page p
  = if max_offset <? (Z.of_nat p - 1) * per then None
    else Some (take n (drop ((p - 1) * n) query)).
Proof.
  intros Hp per n. unfold page_items, Helpers.paginate_query.
  pose proof (clamp_value_range per_page 1 1000 ltac:(lia)) as Hper.
  fold per. rewrite Z.max_r by lia.
  destruct (max_offset <? (Z.of_nat p - 1) * per); [done|].
  cbn [fmap option_fmap option_map fst]. fold n. f_equal. f_equal. f_equal.
  unfold n. rewrite Z2Nat.inj_mul by lia. f_equal. lia.
Qed.

Lemma chunks_take {A} (query : list A) (n k : nat) :
  concat ((λ i, take n (drop (i * n) query)) <$> seq 0 k) = take (k * n) query.
Proof.
  induction k as [|k IH]; [done|].
  rewrite seq_S, fmap_app, concat_app, IH. simpl.
  rewrite app_nil_r, take_take_drop. f_equal. lia.
Qed.

(** When the store takes every offset up to the number of rows, the
    pages 1 to [pages] all come back, and put one after the other they
    give all rows of the query, each once and in order; a page beyond the
    last is empty if its offset is one the store takes, and raises if
    not. *)
Theorem paginate_query_pages_cover {A} max_offset (query : list A) per_page :
  len query <= max_offset ->
  let per := Helpers.clamp_value per_page 1 1000 in
  let pages := (len query + per - 1) / per in
  (Helpers.pg_pages <$> (snd <$> Helpers.paginate_query max_offset query 1 per_page))
  = Some pages
  /\ ((λ chunks, concat chunks) <$> mapM (page_items max_offset query per_page)
                      (seq 1 (Z.to_nat pages))) = Some query
  /\ (forall p : nat, pages < Z.of_nat p ->
        page_items max_offset query per_page p
        = if max_offset <? (Z.of_nat p - 1) * per then None else Some []).
Proof.
  intros Hmax per pages.
  pose proof (clamp_value_range per_page 1 1000 ltac:(lia)) as Hper.
  fold per in Hper.
  set (n := Z.to_nat per).
  assert (0 <= len query) as Hlen by (unfold len; lia).
  assert ((pages - 1) * per < len query <= pages * per) as Hpages.
  { pose proof (Z.div_mod (len query + per - 1) per ltac:(lia)) as Hdm.
    pose proof (Z.mod_pos_bound (len query + per - 1) per ltac:(lia)) as Hmod.
    fold pages in Hdm. nia. }
  assert (0 <= pages) as Hpos by nia.
  split; [|split].
  - unfold Helpers.paginate_query. fold per.
    replace (max_offset <? (Z.max 1 1 - 1) * per) with false; [done|].
    symmetry. apply Z.ltb_ge. lia.
  - assert (mapM (page_items max_offset query per_page) (seq 1 (Z.to_nat pages))
            = Some ((λ i, take n (drop (i * n) query)) <$> seq 0 (Z.to_nat pages)))
      as ->.
    { apply mapM_Some. rewrite <- fmap_S_seq. apply Forall2_fmap.
      apply Forall_Forall2_diag, Forall_forall. intros i Hi.
      apply elem_of_seq in Hi.
      rewrite (page_items_spec max_offset query per_page (S i)) by lia.
      fold per n.
      replace (max_offset <? (Z.of_nat (S i) - 1) * per) with false.
      - by replace (S i - 1)%nat with i by lia.
      - symmetry. apply Z.ltb_ge. nia. }
    cbn [fmap option_fmap option_map]. f_equal.
    rewrite (chunks_take query n (Z.to_nat pages)).
    apply take_ge. unfold len, n in *. nia.
  - intros p Hp. rewrite (page_items_spec max_offset query per_page p) by lia.
    fold per n. destruct (max_offset <? (Z.of_nat p - 1) * per); [done|].
    rewrite drop_ge; [by rewrite take_nil|].
    unfold len, n in *. nia.
Qed.

Lemma paginate_query_pages_cover_witness :
  let query := [1; 2; 3; 4; 5] in
  (Helpers.pg_pages <$> (snd <$> Helpers.paginate_query 100 query 1 2)) = Some 3
  /\ ((λ chunks, concat chunks) <$> mapM (page_items 100 query 2) (seq 1 3)) = Some query
  /\ (forall p : nat, 3 < Z.of_nat p ->
        page_items 100 query 2 p
        = if 100 <? (Z.of_nat p - 1) * 2 then None else Some []).
Proof.
  apply (paginate_query_pages_cover 100 [1; 2; 3; 4; 5] 2). vm_compute. discriminate.
Defined.
(** ** Sanitized input *)

Lemma delete_chars_all (P bad : ascii -> bool) s :
  all_chars P s = true -> all_chars P (Helpers.delete_chars bad s) = true.
Proof.
  induction s as [|c s IH]; [done|]. simpl. intros [Hc Hs]%andb_prop.
  destruct (bad c); simpl; [auto|]. by rewrite Hc, IH.
Qed.

Lemma delete_chars_none (bad : ascii -> bool) s :
  all_chars (λ c, negb (bad c)) (Helpers.delete_chars bad s) = true.
Proof.
  induction s as [|c s IH]; [done|]. simpl.
  destruct (bad c) eqn:Hc; simpl; [done|]. by rewrite Hc, IH.
Qed.

Lemma delete_chars_id (bad : ascii -> bool) s :
  all_chars (λ c, negb (bad c)) s = true -> Helpers.delete_chars bad s = s.
Proof.
  induction s as [|c s IH]; [done|]. simpl. intros [Hc Hs]%andb_prop.
  apply negb_true_iff in Hc. by rewrite Hc, IH.
Qed.

Lemma strip_tags_all (P : ascii -> bool) in_tag s :
  all_chars P s = true -> all_chars P (Helpers.strip_tags_from in_tag s) = true.
Proof.
  revert in_tag. induction s as [|c s IH]; intros in_tag; [done|]. simpl.
  intros [Hc Hs]%andb_prop. destruct in_tag.
  - destruct (Ascii.eqb c ">"); auto.
  - destruct (Ascii.eqb c "<" && Helpers.has_gt s); [auto|].
    simpl. by rewrite Hc, IH.
Qed.

Lemma strip_tags_id s :
  all_chars (λ c, negb (Ascii.eqb c "<")) s = true -> Helpers.strip_tags s = s.
Proof.
  unfold Helpers.strip_tags. induction s as [|c s IH]; [done|]. simpl.
  intros [Hc Hs]%andb_prop. apply negb_true_iff in Hc. rewrite Hc. simpl.
  by rewrite IH.
Qed.

Lemma lstrip_all (P : ascii -> bool) s :
  all_chars P s = true -> all_chars P (Helpers.lstrip s) = true.
Proof.
  induction s as [|c s IH]; [done|]. simpl. intros [Hc Hs]%andb_prop.
  destruct (Helpers.is_space c); [auto|]. simpl. by rewrite Hc, Hs.
Qed.

Lemma rstrip_all (P : ascii -> bool) s :
  all_chars P s = true -> all_chars P (Helpers.rstrip s) = true.
Proof.
  induction s as [|c s IH]; [done|]. simpl. intros [Hc Hs]%andb_prop.
  specialize (IH Hs). destruct (Helpers.rstrip s) as [|d r].
  - destruct (Helpers.is_space c); [done|]. simpl. by rewrite Hc.
  - simpl in *. by rewrite Hc, IH.
Qed.

Lemma lstrip_start s : starts_with_space (Helpers.lstrip s) = false.
Proof.
  induction s as [|c s IH]; [done|]. simpl.
  destruct (Helpers.is_space c) eqn:Hc; [done|]. simpl. done.
Qed.

Lemma rstrip_end s : ends_with_space (Helpers.rstrip s) = false.
Proof.
  induction s as [|c s IH]; [done|]. simpl.
  destruct (Helpers.rstrip s) as [|d r].
  - destruct (Helpers.is_space c) eqn:Hc; [done|]. simpl. done.
  - exact IH.
Qed.

Lemma lstrip_end s :
  ends_with_space s = false -> ends_with_space (Helpers.lstrip s) = false.
Proof.
  induction s as [|c s IH]; [done|]. intros Hend. simpl.
  destruct (Helpers.is_space c) eqn:Hc; [|done].
  apply IH. destruct s as [|d s]; [done|]. exact Hend.
Qed.

Lemma lstrip_id s : starts_with_space s = false -> Helpers.lstrip s = s.
Proof. destruct s as [|c s]; [done|]. simpl. by intros ->. Qed.

Lemma rstrip_id s : ends_with_space s = false -> Helpers.rstrip s = s.
Proof.
  induction s as [|c s IH]; [done|]. intros Hend. simpl.
  destruct s as [|d s].
  - simpl in *. by rewrite Hend.
  - rewrite IH by exact Hend. done.
Qed.

Lemma harmless_all s :
  all_chars harmless s = true <->
  all_chars (λ c, negb (Helpers.dangerous c)) s = true
  /\ all_chars (λ c, negb (Helpers.is_nul c)) s = true.
Proof.
  induction s as [|c s IH]; [done|]. simpl. unfold harmless at 1.
  rewrite !andb_true_iff, IH. tauto.
Qed.

Lemma sanitize_str_is_clean s :
  all_chars harmless (Helpers.sanitize_str s) = true
  /\ starts_with_space (Helpers.sanitize_str s) = false
  /\ ends_with_space (Helpers.sanitize_str s) = false.
Proof.
  unfold Helpers.sanitize_str, Helpers.strip. split; [|split].
  - apply harmless_all. split.
    + apply lstrip_all, rstrip_all, delete_chars_none.
    + apply lstrip_all, rstrip_all, delete_chars_all, strip_tags_all,
        delete_chars_none.
  - apply lstrip_start.
  - apply lstrip_end, rstrip_end.
Qed.

Lemma sanitize_str_of_clean s :
  all_chars harmless s = true ->
  starts_with_space s = false -> ends_with_space s = false ->
  Helpers.sanitize_str s = s.
Proof.
  intros [Hd Hn]%harmless_all Hstart Hend. unfold Helpers.sanitize_str, Helpers.strip.
  rewrite (delete_chars_id Helpers.is_nul) by done.
  rewrite strip_tags_id.
  2:{ clear -Hd. induction s as [|c s IH]; [done|]. simpl in *.
      apply andb_prop in Hd as [Hc Hs]. rewrite (IH Hs), andb_true_r.
      unfold Helpers.dangerous in Hc. apply negb_true_iff in Hc.
      apply negb_true_iff. by destruct (Ascii.eqb c "<"). }
  rewrite (delete_chars_id Helpers.dangerous) by done.
  by rewrite rstrip_id, lstrip_id.
Qed.

Lemma sanitize_str_idempotent s :
  Helpers.sanitize_str (Helpers.sanitize_str s) = Helpers.sanitize_str s.
Proof.
  destruct (sanitize_str_is_clean s) as (? & ? & ?). by apply sanitize_str_of_clean.
Qed.

(** A sanitized string holds none of the characters NUL, less-than,
    greater-than, double quote, single quote and ampersand, and neither
    starts nor ends with white space. *)
Theorem sanitize_str_clean s :
  all_chars harmless (Helpers.sanitize_str s) = true
  /\ starts_with_space (Helpers.sanitize_str s) = false
  /\ ends_with_space (Helpers.sanitize_str s) = false.
Proof. exact (sanitize_str_is_clean s). Qed.

(** A string that is already clean is returned unchanged. *)
Theorem sanitize_str_fixed s :
  all_chars harmless s = true ->
  starts_with_space s = false -> ends_with_space s = false ->
  Helpers.sanitize_str s = s.
Proof. exact (sanitize_str_of_clean s). Qed.

Lemma sanitize_str_fixed_witness :
  Helpers.sanitize_str "Windows" = "Windows".
Proof.
  apply (sanitize_str_fixed "Windows"); reflexivity.
Defined.

(** Structural induction on values, through lists and dictionaries. *)
Lemma pyval_nested_ind (P : Helpers.pyval -> Prop) :
  P Helpers.PNone ->
  (forall b, P (Helpers.PBool b)) ->
  (forall z, P (Helpers.PInt z)) ->
  (forall f, P (Helpers.PFloat f)) ->
  (forall s, P (Helpers.PStr s)) ->
  (forall l, Forall P l -> P (Helpers.PList l)) ->
  (forall d, Forall (λ kv, P kv.2) d -> P (Helpers.PDict d)) ->
  forall v, P v.
Proof.
  intros HNone HBool HInt HFloat HStr HList HDict.
  fix IH 1. intros v. destruct v as [|b|z|f|s|l|d].
  - exact HNone.
  - apply HBool.
  - apply HInt.
  - apply HFloat.
  - apply HStr.
  - apply HList. induction l as [|x l IHl]; constructor; [apply IH|exact IHl].
  - apply HDict. induction d as [|[k x] d IHd]; constructor; [apply IH|exact IHd].
Qed.

(** Sanitizing twice is sanitizing once, for strings and for any nesting
    of lists and dictionaries around them. *)
Theorem sanitize_input_idempotent v :
  Helpers.sanitize_input (Helpers.sanitize_input v) = Helpers.sanitize_input v.
Proof.
  induction v as [| | | |s|l IH|d IH] using pyval_nested_ind; try done.
  - simpl. by rewrite sanitize_str_idempotent.
  - simpl. f_equal. induction IH as [|x l Hx _ IHl]; [done|].
    simpl. by rewrite Hx, IHl.
  - simpl. f_equal. induction IH as [|[k x] d Hx _ IHd]; [done|].
    simpl in *. by rewrite Hx, IHd.
Qed.

(** ** Required fields *)

Lemma field_missing_spec data field :
  Helpers.field_missing data field = false <-> field_given data field.
Proof.
  unfold Helpers.field_missing, field_given.
  destruct (Dict.get data field) as [v|]; split.
  - intros H. exists v. apply orb_false_elim in H as [Hn He].
    repeat split; [by intros ->|by intros ->].
  - intros (v' & [= <-] & Hn & He).
    destruct v as [| | | |[|c s]| |]; done.
  - done.
  - by intros (v & ? & _).
Qed.

(** The validation succeeds, with no message, exactly when every required
    field is in the data with a value that is neither [None] nor the
    empty string; otherwise the message names the fields that are not, in
    the order they were required. *)
Theorem validate_required_fields_spec data required_fields :
  let r := Helpers.validate_required_fields data required_fields in
  (r.1 = true <-> Forall (field_given data) required_fields)
  /\ (r.1 = true -> r.2 = None)
  /\ (r.1 = false ->
      r.2 = Some ("Missing required fields: "
                  ++ String.concat ", "
                       (filter (λ f, ¬ field_given data f) required_fields))%string).
Proof.
  cbn zeta. unfold Helpers.validate_required_fields.
  assert (filter (λ f, Helpers.field_missing data f) required_fields
          = filter (λ f, ¬ field_given data f) required_fields) as Hfilter.
  { apply list_filter_iff. intros f. rewrite <- field_missing_spec.
    destruct (Helpers.field_missing data f); simpl; naive_solver. }
  rewrite Hfilter.
  destruct (filter (λ f, ¬ field_given data f) required_fields) as [|m ms] eqn:Hm.
  - simpl. repeat split; try done. intros _.
    apply Forall_forall. intros f Hf.
    destruct (decide (field_given data f)) as [|Hno]; [done|].
    assert (f ∈ filter (λ f, ¬ field_given data f) required_fields) as Hin
      by (by apply list_elem_of_filter).
    rewrite Hm in Hin. inversion Hin.
  - simpl. repeat split; try done. intros Hall. exfalso.
    assert (m ∈ filter (λ f, ¬ field_given data f) required_fields) as Hin
      by (rewrite Hm; by left).
    apply list_elem_of_filter in Hin as [Hno Hin].
    rewrite Forall_forall in Hall. auto.
Qed.

(** ** Cleaned dictionaries *)

Lemma clean_dict_dict d rn re :
  Helpers.clean_dict (Helpers.PDict d) rn re = Helpers.PDict (clean_items rn re d).
Proof.
  cbn [Helpers.clean_dict]. f_equal. unfold clean_items.
  induction d as [|[k v] d IH]; [done|].
  rewrite filter_cons. cbn [fst snd].
  destruct (decide (dropped rn re v = false)) as [Hkeep|Hdrop].
  - rewrite fmap_cons, <- IH. unfold dropped in Hkeep.
    apply orb_false_elim in Hkeep as [Hn He]. cbn [fst snd].
    rewrite Hn, He. by destruct v.
  - rewrite <- IH. apply not_false_is_true in Hdrop. unfold dropped in Hdrop.
    apply orb_prop in Hdrop as [Hn|He]; cbn [fst snd].
    + by rewrite Hn.
    + rewrite He. by destruct (rn && Helpers.is_none v).
Qed.

Lemma clean_value_kept rn re v :
  dropped rn re v = false -> dropped rn re (clean_value rn re v) = false.
Proof. by destruct v. Qed.

(** Cleaning a cleaned value changes nothing more.  Of a dictionary, the
    cleaning keeps the entries in their order, drops exactly those whose
    value is [None] or the empty string when asked to, and leaves no such
    value behind. *)
Theorem clean_dict_idempotent v rn re :
  Helpers.clean_dict (Helpers.clean_dict v rn re) rn re = Helpers.clean_dict v rn re
  /\ (forall d, v = Helpers.PDict d ->
        exists d', Helpers.clean_dict v rn re = Helpers.PDict d'
                   /\ d'.*1 = (filter (λ kv, dropped rn re kv.2 = false) d).*1
                   /\ Forall (λ kv, dropped rn re kv.2 = false) d').
Proof.
  split.
  - induction v as [| | | | | |d IH] using pyval_nested_ind; try done.
    rewrite !clean_dict_dict. f_equal. unfold clean_items.
    induction IH as [|[k x] d Hx _ IHd]; [done|].
    rewrite filter_cons. cbn [snd].
    destruct (decide (dropped rn re x = false)) as [Hkeep|Hdrop]; [|exact IHd].
    rewrite fmap_cons, filter_cons. cbn [fst snd].
    rewrite decide_True by (by apply clean_value_kept).
    rewrite fmap_cons, IHd. cbn [fst snd]. do 2 f_equal.
    by destruct x.
  - intros d ->. exists (clean_items rn re d). split; [apply clean_dict_dict|].
    unfold clean_items. split.
    + by rewrite <- list_fmap_compose.
    + apply Forall_fmap, Forall_forall. intros [k x] Hin.
      apply list_elem_of_filter in Hin as [Hkeep _]. by apply clean_value_kept.
Qed.

(** * Grouping of the sub-techniques *)

Lemma dict_get_elem {V} (d : Dict.t V) k v :
  Dict.get d k = Some v -> (k, v) ∈ d.
Proof.
  induction d as [|[k' v'] d IH]; [done|]. simpl.
  destruct (String.eqb_spec k' k) as [->|_].
  - intros [= ->]. by left.
  - intros H. right. auto.
Qed.

Lemma dict_set_elem {V} (d : Dict.t V) k v k' v' :
  (k', v') ∈ Dict.set d k v -> (k', v') ∈ d \/ (k' = k /\ v' = v).
Proof.
  induction d as [|[k0 v0] d IH]; simpl.
  - rewrite list_elem_of_singleton. intros [= -> ->]. by right.
  - destruct (String.eqb_spec k0 k) as [->|_]; rewrite !elem_of_cons.
    + intros [[= -> ->]|?]; [by right|left; by right].
    + intros [?|H]; [left; by left|]. destruct (IH H); [left; by right|by right].
Qed.

(** Every object filed in [subtechniques_by_parent] has a dot in its
    identifier and stands under the part of the identifier before the
    first dot; every object of [parent_techniques] has no dot. *)
Theorem subtechniques_grouped_by_parent db req w m d :
  answers db req w m ->
  m_subtechniques_by_parent m = Some d ->
  (forall k subs o, (k, subs) ∈ d -> o ∈ subs ->
     has_dot (o_attack_id o) = true /\ before_dot (o_attack_id o) = k)
  /\ (forall o, o ∈ m_parent_techniques m -> has_dot (o_attack_id o) = false).
Proof.
  intros Ha. apply answers_success in Ha as ->.
  simpl. destruct (include_subtechniques req); [|done]. intros [= <-].
  set (Inv := λ st : loop_state,
         (forall k subs o, (k, subs) ∈ subtechniques_by_parent st -> o ∈ subs ->
            has_dot (o_attack_id o) = true /\ before_dot (o_attack_id o) = k)
         /\ (forall o, o ∈ parent_techniques st -> has_dot (o_attack_id o) = false)).
  assert (forall rows st, Inv st -> Inv (fold_left (loop_step req) rows st)) as Hfold.
  { induction rows as [|row rows IH]; intros st Hst; [done|].
    simpl. apply IH. clear IH. destruct Hst as [Hsub Hpar].
    unfold loop_step, file. destruct (skipped req row); [done|].
    destruct (has_dot (attack_id (row_t row))) eqn:Hdot; split; cbn; try done.
    - intros k subs o Hin Ho.
      apply dict_set_elem in Hin as [Hin|[-> ->]]; [eauto|].
      apply elem_of_app in Ho as [Ho|Ho].
      + destruct (Dict.get (subtechniques_by_parent st) _) as [old|] eqn:Hget;
          [|inversion Ho].
        apply dict_get_elem in Hget. eauto.
      + apply list_elem_of_singleton in Ho as ->. done.
    - intros o Ho. apply elem_of_app in Ho as [Ho|Ho]; [auto|].
      apply list_elem_of_singleton in Ho as ->. done. }
  apply Hfold. split.
  - intros k subs o Hin. inversion Hin.
  - intros o Hin. inversion Hin.
Qed.

Lemma subtechniques_grouped_by_parent_witness :
  let m := matrix_success Sample.webshell Sample.all_of Sample.at_noon in
  (forall k subs o,
     (k, subs) ∈ default [] (m_subtechniques_by_parent m) ->
     o ∈ subs ->
     has_dot (o_attack_id o) = true /\ before_dot (o_attack_id o) = k)
  /\ (forall o, o ∈ m_parent_techniques m -> has_dot (o_attack_id o) = false).
Proof.
  apply (subtechniques_grouped_by_parent Sample.webshell Sample.all_of Sample.at_noon
           (matrix_success Sample.webshell Sample.all_of Sample.at_noon)).
  - vm_compute. reflexivity.
  - reflexivity.
Defined.

(** * The objects shared between the lists of the response *)

Lemma points_to_app store extra r o :
  points_to store r o -> points_to (store ++ extra) r o.
Proof.
  unfold points_to. destruct (store !! r) as [x|] eqn:H; [|done].
  intros. by rewrite (lookup_app_l_Some _ _ _ _ H).
Qed.

Lemma points_to_new store x :
  points_to (store ++ [x]) (length store) (Shared.fields x).
Proof. unfold points_to. by rewrite list_lookup_middle. Qed.

Lemma same_dict_get {A B} (R : A -> B -> Prop) d d' k :
  same_dict R d d' -> option_Forall2 R (Dict.get d k) (Dict.get d' k).
Proof.
  induction 1 as [|[k1 v1] [k2 v2] d d' [Hk Hv] _ IH]; simpl; [constructor|].
  simpl in Hk, Hv. subst k2. destruct (String.eqb k1 k); [by constructor|done].
Qed.

Lemma same_dict_set {A B} (R : A -> B -> Prop) d d' k v v' :
  same_dict R d d' -> R v v' -> same_dict R (Dict.set d k v) (Dict.set d' k v').
Proof.
  intros Hd Hv.
  induction Hd as [|[k1 v1] [k2 v2] d d' [Hk Hv1] Hd IH]; simpl.
  - by repeat constructor.
  - simpl in Hk, Hv1. subst k2.
    destruct (String.eqb k1 k); constructor; try done.
Qed.

Lemma same_dict_mono {A B} (R R' : A -> B -> Prop) d d' :
  (forall x y, R x y -> R' x y) -> same_dict R d d' -> same_dict R' d d'.
Proof.
  intros HR H. eapply Forall2_impl; [exact H|].
  intros x y [? ?]. split; auto.
Qed.

Lemma same_dict_values {A B} (R : A -> B -> Prop) d d' :
  same_dict R d d' -> Forall2 R (Dict.values d) (Dict.values d').
Proof.
  induction 1 as [|x y d d' [_ H] _ IH]; [constructor|]. by constructor.
Qed.

Lemma shared_run_loop_step req rows s s' :
  Shared.run_loop req rows s = Some s' ->
  s' = fold_left (Shared.loop_step req) rows s.
Proof.
  revert s. induction rows as [|row rows IH]; intros s; simpl; [by intros [= <-]|].
  unfold Shared.loop_body, Shared.loop_step.
  destruct (skipped req row); [apply IH|].
  destruct (version_of (row_t row)); [apply IH|done].
Qed.

(** The two models of the loop raise on the same rows. *)
Lemma run_loop_together req rows s st :
  is_Some (Shared.run_loop req rows s) -> is_Some (run_loop req rows st).
Proof.
  revert s st. induction rows as [|row rows IH]; intros s st; simpl; [by eexists|].
  unfold Shared.loop_body, loop_body.
  destruct (skipped req row); [apply IH|].
  destruct (version_of (row_t row)); [apply IH|]. by intros [? ?].
Qed.

Lemma shared_answers_success db req w m :
  Shared.get_ultimate_matrix db req w = Ok m -> m = shared_success db req w.
Proof.
  unfold Shared.get_ultimate_matrix, Shared.process_techniques, shared_success,
    shared_loop.
  destruct (Sql.raises (server w)); [done|].
  destruct (Shared.run_loop _ _ _) as [s|] eqn:Hrun; [|done].
  apply shared_run_loop_step in Hrun as ->. by intros [= <-].
Qed.

(** When the shared model answers, so does the value model. *)
Lemma shared_answers db req w m :
  Shared.get_ultimate_matrix db req w = Ok m ->
  answers db req w (matrix_success db req w).
Proof.
  unfold Shared.get_ultimate_matrix, Shared.process_techniques.
  intros Hm. apply answers_iff.
  destruct (Sql.raises (server w)); [done|]. split; [done|].
  apply (run_loop_versions req _ loop_init).
  apply (run_loop_together req _ Shared.loop_init).
  destruct (Shared.run_loop _ _ _); [by eexists|done].
Qed.

Lemma loop_step_flattens req s st row :
  flattens s st -> flattens (Shared.loop_step req s row) (loop_step req st row).
Proof.
  intros (Hp & Hs & Ha).
  unfold Shared.loop_step, loop_step, Shared.file, file.
  destruct (skipped req row); [done|].
  set (x := Shared.new_object row).
  assert (forall r o, points_to (Shared.store s) r o ->
                      points_to (Shared.store s ++ [x]) r o) as Hold
    by (intros; by apply points_to_app).
  assert (points_to (Shared.store s ++ [x]) (length (Shared.store s))
                    (technique_object row)) as Hnew
    by apply (points_to_new _ x).
  assert (same_dict (points_to (Shared.store s ++ [x]))
            (Dict.set (Shared.all_techniques_dict s) (attack_id (row_t row))
                      (length (Shared.store s)))
            (Dict.set (all_techniques_dict st) (attack_id (row_t row))
                      (technique_object row))) as Hall.
  { apply same_dict_set; [|done]. by apply (same_dict_mono _ _ _ _ Hold). }
  assert (same_dict (Forall2 (points_to (Shared.store s ++ [x])))
            (Shared.subtechniques_by_parent s) (subtechniques_by_parent st)) as Hs'.
  { apply (same_dict_mono (Forall2 (points_to (Shared.store s)))); [|done].
    intros l l' H. exact (Forall2_impl _ _ _ _ H Hold). }
  destruct (has_dot (attack_id (row_t row))); repeat split; cbn; try done.
  - exact (Forall2_impl _ _ _ _ Hp Hold).
  - apply same_dict_set; [done|]. apply Forall2_app; [|by repeat constructor].
    destruct (same_dict_get _ _ _ (before_dot (attack_id (row_t row))) Hs');
      [done|constructor].
  - apply Forall2_app; [|by repeat constructor].
    exact (Forall2_impl _ _ _ _ Hp Hold).
Qed.

Lemma process_flattens req rows :
  flattens (shared_loop req rows) (fold_left (loop_step req) rows loop_init).
Proof.
  unfold shared_loop.
  assert (flattens Shared.loop_init loop_init) as H0
    by (repeat split; constructor).
  revert H0. generalize Shared.loop_init, loop_init.
  induction rows as [|row rows IH]; intros s st H; [done|].
  simpl. by apply IH, loop_step_flattens.
Qed.

Lemma attach_fields subs store r i :
  Shared.fields <$> Shared.attach subs store r !! i = Shared.fields <$> store !! i.
Proof.
  unfold Shared.attach. destruct (store !! r) as [o|] eqn:Hr; [|done].
  assert (forall l, Shared.fields <$> <[r:=Shared.set_subtechniques o l]> store !! i
                    = Shared.fields <$> store !! i) as H.
  { intros l. destruct (decide (r = i)) as [->|Hne].
    - rewrite list_lookup_insert_eq by by eapply lookup_lt_Some. by rewrite Hr.
    - by rewrite list_lookup_insert_ne. }
  destruct (Dict.get subs _); apply H.
Qed.

Lemma attach_all_fields subs l store i :
  Shared.fields <$> fold_left (Shared.attach subs) l store !! i
  = Shared.fields <$> store !! i.
Proof.
  revert store. induction l as [|r l IH]; intros store; [done|].
  simpl. by rewrite IH, attach_fields.
Qed.

Lemma attach_lookup subs store r i o :
  store !! i = Some o ->
  Shared.attach subs store r !! i
  = Some (if decide (i = r) then attached subs o else o).
Proof.
  intros Hi. unfold Shared.attach. destruct (decide (i = r)) as [->|Hne].
  - rewrite Hi. unfold attached.
    destruct (Dict.get subs _); simpl;
      by rewrite list_lookup_insert_eq by by eapply lookup_lt_Some.
  - destruct (store !! r) as [o'|]; [|done].
    destruct (Dict.get subs _); by rewrite list_lookup_insert_ne.
Qed.

(** After the loop over the parents an object carries the two keys if
    it is one of the parents, and is as it was if it is not. *)
Lemma attach_all subs l store i o :
  store !! i = Some o ->
  fold_left (Shared.attach subs) l store !! i
  = Some (if decide (i ∈ l) then attached subs o else o).
Proof.
  revert store o. induction l as [|r l IH]; intros store o Hi.
  - cbn [fold_left]. by rewrite decide_False by apply not_elem_of_nil.
  - cbn [fold_left]. rewrite (IH _ _ (attach_lookup subs _ r _ _ Hi)).
    f_equal. destruct (decide (i = r)) as [->|Hne].
    + rewrite (decide_True (P := r ∈ r :: l)) by apply list_elem_of_here.
      by destruct (decide (r ∈ l)).
    + destruct (decide (i ∈ l)) as [Hin|Hnin].
      * by rewrite decide_True by by apply list_elem_of_further.
      * rewrite decide_False; [done|]. rewrite elem_of_cons. tauto.
Qed.

Lemma attached_carries subs o : carries subs (attached subs o).
Proof. done. Qed.

Lemma loop_step_well_filed req s row :
  well_filed s -> well_filed (Shared.loop_step req s row).
Proof.
  intros (Hp & Hs & Ha & Hb). unfold Shared.loop_step, Shared.file.
  destruct (skipped req row); [done|].
  set (x := Shared.new_object row).
  assert ((Shared.store s ++ [x])%list !! length (Shared.store s) = Some x) as Hnew
    by by rewrite list_lookup_middle.
  assert (Forall bare (Shared.store s ++ [x])%list) as Hb'.
  { apply Forall_app. split; [done|]. by repeat constructor. }
  assert (forall r, r ∈ Dict.values
                      (Dict.set (Shared.all_techniques_dict s)
                                (attack_id (row_t row)) (length (Shared.store s))) ->
                    (r < length (Shared.store s ++ [x])%list)%nat) as Ha'.
  { intros r Hr. rewrite length_app. simpl.
    unfold Dict.values in Hr. apply list_elem_of_fmap in Hr as [[k v] [-> Hin]].
    apply dict_set_elem in Hin as [Hin|[_ ->]]; [|simpl; lia].
    simpl. assert (v < length (Shared.store s))%nat; [|lia].
    apply Ha. unfold Dict.values. apply list_elem_of_fmap. by exists (k, v). }
  destruct (has_dot (attack_id (row_t row))) eqn:Hdot;
    (split; [|split; [|split]]); cbn; try done.
  - intros r Hr. destruct (Hp r Hr) as (o & Ho & ?). exists o.
    split; [by apply lookup_app_l_Some|done].
  - intros k l r Hin Hr. apply dict_set_elem in Hin as [Hin|[-> ->]].
    + destruct (Hs k l r Hin Hr) as (o & Ho & ?). exists o.
      split; [by apply lookup_app_l_Some|done].
    + apply elem_of_app in Hr as [Hr|Hr].
      * destruct (Dict.get (Shared.subtechniques_by_parent s) _) as [old|] eqn:Hget;
          [|inversion Hr].
        apply dict_get_elem in Hget. destruct (Hs _ _ r Hget Hr) as (o & Ho & ?).
        exists o. split; [by apply lookup_app_l_Some|done].
      * apply list_elem_of_singleton in Hr as ->. by exists x.
  - intros r Hr. apply elem_of_app in Hr as [Hr|Hr].
    + destruct (Hp r Hr) as (o & Ho & ?). exists o.
      split; [by apply lookup_app_l_Some|done].
    + apply list_elem_of_singleton in Hr as ->. by exists x.
  - intros k l r Hin Hr. destruct (Hs k l r Hin Hr) as (o & Ho & ?). exists o.
    split; [by apply lookup_app_l_Some|done].
Qed.

Lemma process_well_filed req rows :
  well_filed (shared_loop req rows).
Proof.
  unfold shared_loop.
  assert (well_filed Shared.loop_init) as H0.
  { split; [|split; [|split]].
    - intros r Hr. inversion Hr.
    - intros k l r Hr. inversion Hr.
    - intros r Hr. inversion Hr.
    - constructor. }
  revert H0. generalize Shared.loop_init.
  induction rows as [|row rows IH]; intros s H; [done|].
  simpl. by apply IH, loop_step_well_filed.
Qed.

Lemma points_to_attached subs l store r o :
  points_to store r o -> points_to (fold_left (Shared.attach subs) l store) r o.
Proof. unfold points_to. by rewrite attach_all_fields. Qed.

(** Writing the sub-technique lists into the parent objects changes no
    other field: what the references of the shared model lead to, when
    the response is written out, is the response of the value model, for
    the [techniques], the [parent_techniques] and the
    [subtechniques_by_parent]. *)
Theorem attachment_preserves_fields db req w m :
  Shared.get_ultimate_matrix db req w = Ok m ->
  exists v,
  answers db req w v /\
  Forall2 (points_to (Shared.m_store m)) (Shared.m_techniques m) (m_techniques v)
  /\ Forall2 (points_to (Shared.m_store m))
             (Shared.m_parent_techniques m) (m_parent_techniques v)
  /\ option_Forall2 (same_dict (Forall2 (points_to (Shared.m_store m))))
                    (Shared.m_subtechniques_by_parent m)
                    (m_subtechniques_by_parent v).
Proof.
  intros Hm. exists (matrix_success db req w).
  split; [by apply (shared_answers db req w m)|].
  apply shared_answers_success in Hm as ->.
  cbn. fold (shared_loop req (techniques_query (server w) db req)).
  destruct (process_flattens req (techniques_query (server w) db req))
    as (Hp & Hs & Ha).
  apply same_dict_values in Ha.
  destruct (include_subtechniques req); cbn.
  - split; [|split].
    + eapply Forall2_impl; [exact Ha|]. intros. by apply points_to_attached.
    + eapply Forall2_impl; [exact Hp|]. intros. by apply points_to_attached.
    + constructor. eapply same_dict_mono; [|exact Hs].
      intros l l' H. eapply Forall2_impl; [exact H|].
      intros. by apply points_to_attached.
  - split; [done|]. split; [done|constructor].
Qed.

Lemma attachment_preserves_fields_witness :
  let m := shared_success Sample.own_and_sub Sample.all_of Sample.at_noon in
  exists v,
  answers Sample.own_and_sub Sample.all_of Sample.at_noon v /\
  Forall2 (points_to (Shared.m_store m)) (Shared.m_techniques m) (m_techniques v)
  /\ Forall2 (points_to (Shared.m_store m))
             (Shared.m_parent_techniques m) (m_parent_techniques v)
  /\ option_Forall2 (same_dict (Forall2 (points_to (Shared.m_store m))))
                    (Shared.m_subtechniques_by_parent m)
                    (m_subtechniques_by_parent v).
Proof.
  apply (attachment_preserves_fields Sample.own_and_sub Sample.all_of
           Sample.at_noon).
  vm_compute. reflexivity.
Defined.

(** With [include_subtechniques] every object of [parent_techniques]
    carries, under [subtechniques], the list filed under its identifier
    in [subtechniques_by_parent], the empty list if there is none, and
    under [subtechniques_count] the length of that list.  The objects
    filed in [subtechniques_by_parent] carry neither key. *)
Theorem parents_carry_subtechniques db req w m subs :
  Shared.get_ultimate_matrix db req w = Ok m ->
  Shared.m_subtechniques_by_parent m = Some subs ->
  (forall r, r ∈ Shared.m_parent_techniques m ->
     exists o, Shared.m_store m !! r = Some o
               /\ has_dot (o_attack_id (Shared.fields o)) = false
               /\ carries subs o)
  /\ (forall k l r, (k, l) ∈ subs -> r ∈ l ->
        exists o, Shared.m_store m !! r = Some o
                  /\ has_dot (o_attack_id (Shared.fields o)) = true
                  /\ before_dot (o_attack_id (Shared.fields o)) = k
                  /\ bare o).
Proof.
  intros Hm. apply shared_answers_success in Hm as ->.
  cbn. fold (shared_loop req (techniques_query (server w) db req)).
  destruct (include_subtechniques req); [|done]. intros [= <-].
  destruct (process_well_filed req (techniques_query (server w) db req))
    as (Hp & Hs & _ & Hb).
  set (s := shared_loop req (techniques_query (server w) db req)) in *.
  split.
  - intros r Hr. destruct (Hp r Hr) as (o & Ho & Hdot).
    exists (attached (Shared.subtechniques_by_parent s) o).
    rewrite (attach_all _ _ _ _ _ Ho), decide_True by done.
    split; [done|]. split; [done|apply attached_carries].
  - intros k l r Hin Hr. destruct (Hs k l r Hin Hr) as (o & Ho & Hdot & Hk).
    exists o. rewrite (attach_all _ _ _ _ _ Ho), decide_False.
    + repeat split; try done; by apply (Forall_lookup_1 _ _ _ _ Hb Ho).
    + intros Hpar. destruct (Hp r Hpar) as (o' & Ho' & Hdot'). congruence.
Qed.

Lemma parents_carry_subtechniques_witness :
  let m := shared_success Sample.own_and_sub Sample.all_of Sample.at_noon in
  let subs := default [] (Shared.m_subtechniques_by_parent m) in
  (forall r, r ∈ Shared.m_parent_techniques m ->
     exists o, Shared.m_store m !! r = Some o
               /\ has_dot (o_attack_id (Shared.fields o)) = false
               /\ carries subs o)
  /\ (forall k l r, (k, l) ∈ subs -> r ∈ l ->
        exists o, Shared.m_store m !! r = Some o
                  /\ has_dot (o_attack_id (Shared.fields o)) = true
                  /\ before_dot (o_attack_id (Shared.fields o)) = k
                  /\ bare o).
Proof.
  apply (parents_carry_subtechniques Sample.own_and_sub Sample.all_of
           Sample.at_noon).
  - vm_compute. reflexivity.
  - reflexivity.
Defined.

Lemma filter_ext_in {A} (P Q : A -> Prop)
    `{!forall x, Decision (P x)} `{!forall x, Decision (Q x)} (l : list A) :
  (forall x, x ∈ l -> P x <-> Q x) -> filter P l = filter Q l.
Proof.
  induction l as [|x l IH]; intros HPQ; [done|].
  rewrite !filter_cons, IH by (intros; apply HPQ; by right).
  assert (P x <-> Q x) as Hx by (apply HPQ; by left).
  destruct (decide (P x)), (decide (Q x)); tauto.
Qed.

Lemma is_parent_app store x r :
  (r < length store)%nat -> is_parent (store ++ [x]) r = is_parent store r.
Proof. intros. unfold is_parent. by rewrite lookup_app_l. Qed.

Lemma is_parent_new store x :
  is_parent (store ++ [x]) (length store)
  = negb (has_dot (o_attack_id (Shared.fields x))).
Proof. unfold is_parent. by rewrite list_lookup_middle. Qed.

Lemma is_parent_attached subs l store r :
  is_parent (fold_left (Shared.attach subs) l store) r = is_parent store r.
Proof.
  unfold is_parent. pose proof (attach_all_fields subs l store r) as H.
  destruct (fold_left _ _ _ !! r), (store !! r); simpl in H; congruence.
Qed.

Lemma shared_body_store req s row :
  Shared.store (Shared.loop_step req s row)
  = if skipped req row then Shared.store s
    else (Shared.store s ++ [Shared.new_object row])%list.
Proof.
  unfold Shared.loop_step, Shared.file. destruct (skipped req row); [done|].
  by destruct (has_dot _).
Qed.

Lemma shared_body_dict req s row :
  Shared.all_techniques_dict (Shared.loop_step req s row)
  = if skipped req row then Shared.all_techniques_dict s
    else Dict.set (Shared.all_techniques_dict s) (row_key row)
                  (length (Shared.store s)).
Proof.
  unfold Shared.loop_step, Shared.file. destruct (skipped req row); [done|].
  by destruct (has_dot _).
Qed.

Lemma shared_body_parents req s row :
  Shared.parent_techniques (Shared.loop_step req s row)
  = if skipped req row then Shared.parent_techniques s
    else (Shared.parent_techniques s
          ++ (if has_dot (row_key row) then [] else [length (Shared.store s)]))%list.
Proof.
  unfold Shared.loop_step, Shared.file, row_key.
  destruct (skipped req row); [done|].
  destruct (has_dot _); cbn; [by rewrite app_nil_r|done].
Qed.

(** With distinct keys the parents are the objects without a dot of
    [all_techniques_dict], the same objects in the same order. *)
Lemma shared_loop_parents req rows s :
  well_filed s ->
  NoDup ((Shared.all_techniques_dict s).*1 ++ (row_key <$> kept req rows)) ->
  filter (λ r, is_parent (Shared.store s) r = true)
         (Dict.values (Shared.all_techniques_dict s))
  = Shared.parent_techniques s ->
  let s' := fold_left (Shared.loop_step req) rows s in
  filter (λ r, is_parent (Shared.store s') r = true)
         (Dict.values (Shared.all_techniques_dict s'))
  = Shared.parent_techniques s'.
Proof.
  revert s. induction rows as [|row rows IH]; intros s Hwf Hnd Hs; [done|].
  cbn [fold_left]. rewrite kept_cons in Hnd.
  pose proof (loop_step_well_filed req s row Hwf) as Hwf'.
  apply IH; [done|..]; clear IH Hwf';
    rewrite ?shared_body_store, ?shared_body_dict, ?shared_body_parents;
    destruct (skipped req row); try done.
  - rewrite fmap_cons in Hnd.
    assert (row_key row ∉ (Shared.all_techniques_dict s).*1) as Hfresh.
    { apply NoDup_app in Hnd as (_ & Hd & _). intros Hin.
      apply (Hd _ Hin). by left. }
    rewrite dict_set_fresh by done. rewrite fmap_app. cbn [fmap list_fmap fst].
    by rewrite <- app_assoc.
  - rewrite fmap_cons in Hnd.
    assert (row_key row ∉ (Shared.all_techniques_dict s).*1) as Hfresh.
    { apply NoDup_app in Hnd as (_ & Hd & _). intros Hin.
      apply (Hd _ Hin). by left. }
    destruct Hwf as (_ & _ & Ha & _).
    rewrite dict_set_fresh by done. unfold Dict.values.
    rewrite fmap_app, filter_app. f_equal.
    + rewrite <- Hs. apply filter_ext_in. intros r Hr.
      by rewrite is_parent_app by by apply Ha.
    + cbn [fmap list_fmap snd]. rewrite filter_cons, filter_nil.
      rewrite is_parent_new. unfold row_key. cbn.
      by destruct (has_dot (attack_id (row_t row))).
Qed.

(** With unique [attack_id]s the objects of the [techniques] list that
    have no dot in their identifier are the objects of
    [parent_techniques], the same ones in the same order; so with
    [include_subtechniques] they carry their sub-technique list and its
    length in the [techniques] list as well, and the other objects of the
    list carry neither key. *)
Theorem techniques_share_parent_objects db req w m subs :
  Shared.get_ultimate_matrix db req w = Ok m ->
  NoDup (attack_id <$> techniques db) ->
  Shared.m_subtechniques_by_parent m = Some subs ->
  filter (λ r, is_parent (Shared.m_store m) r = true) (Shared.m_techniques m)
  = Shared.m_parent_techniques m
  /\ (forall r, r ∈ Shared.m_techniques m ->
        exists o, Shared.m_store m !! r = Some o
                  /\ if has_dot (o_attack_id (Shared.fields o)) then bare o
                     else carries subs o).
Proof.
  intros Hm Hnd. apply shared_answers_success in Hm as ->.
  cbn. fold (shared_loop req (techniques_query (server w) db req)).
  destruct (include_subtechniques req); [|done]. intros [= <-].
  set (rows := techniques_query (server w) db req).
  pose proof (process_well_filed req rows) as Hwf.
  assert (filter (λ r, is_parent (Shared.store (shared_loop req rows)) r = true)
            (Dict.values (Shared.all_techniques_dict (shared_loop req rows)))
          = Shared.parent_techniques (shared_loop req rows)) as Hpar.
  { apply (shared_loop_parents req rows Shared.loop_init).
    - split; [|split; [|split]].
      + intros r Hr. inversion Hr.
      + intros k l r Hr. inversion Hr.
      + intros r Hr. inversion Hr.
      + constructor.
    - by apply kept_keys_nodup.
    - done. }
  set (s := shared_loop req rows) in *.
  destruct Hwf as (Hp & _ & Ha & Hb). split.
  - etrans; [|exact Hpar]. apply filter_ext_in. intros r _.
    by rewrite is_parent_attached.
  - intros r Hr.
    destruct (lookup_lt_is_Some_2 _ _ (Ha r Hr)) as [o Ho].
    rewrite (attach_all _ _ _ _ _ Ho).
    destruct (has_dot (o_attack_id (Shared.fields o))) eqn:Hdot.
    + exists o. rewrite decide_False.
      * split; [done|]. rewrite Hdot. by apply (Forall_lookup_1 _ _ _ _ Hb Ho).
      * intros Hin. destruct (Hp r Hin) as (o' & Ho' & Hdot'). congruence.
    + exists (attached (Shared.subtechniques_by_parent s) o).
      rewrite decide_True.
      * split; [done|]. cbn [attached Shared.set_subtechniques Shared.fields].
        rewrite Hdot. apply attached_carries.
      * rewrite <- Hpar. apply list_elem_of_filter. split; [|done].
        unfold is_parent. by rewrite Ho, Hdot.
Qed.

Lemma techniques_share_parent_objects_witness :
  let m := shared_success Sample.own_and_sub Sample.all_of Sample.at_noon in
  let subs := default [] (Shared.m_subtechniques_by_parent m) in
  filter (λ r, is_parent (Shared.m_store m) r = true) (Shared.m_techniques m)
  = Shared.m_parent_techniques m
  /\ (forall r, r ∈ Shared.m_techniques m ->
        exists o, Shared.m_store m !! r = Some o
                  /\ if has_dot (o_attack_id (Shared.fields o)) then bare o
                     else carries subs o).
Proof.
  apply (techniques_share_parent_objects Sample.own_and_sub Sample.all_of
           Sample.at_noon).
  - vm_compute. reflexivity.
  - by_evaluation.
  - reflexivity.
Defined.
